(** * Lightweight data warehouse: partition paths, adapter, reader

    A shallow embedding of the pipeline's Python sources

      - [src/config/database_config.py]   (constants, factory, path helpers)
      - [src/config/files_utils.py]       (directory creation, discovery)
      - [src/extraction/parquet_loader.py] (Hive-partitioned writes)
      - [src/config/database_interface.py], [src/config/duckdb_adapter.py]
      - [src/transformation/duckdb_reader.py]
      - [scripts/setup_project.py]        (the project skeleton)

    Python values are modelled as follows: [str] is [string], read as ASCII
    text; [int] is [Z]; [pathlib.Path] is the list of its parts; [dict] is a
    [gmap]; a method that mutates its object or the outside world is a
    function from the state before to the state after together with either
    a value or the exception raised.  The embedded engine and the file
    system are libraries outside the repository: they are modelled by the
    few operations the sources call. *)

From Stdlib Require Import ZArith String Ascii List Lia Bool.
From Stdlib Require Import DecimalString DecimalZ DecimalPos.
From stdpp Require Import base gmap strings list.

Open Scope Z_scope.

(* ================================================================== *)
(** ** Python built-ins used by the sources *)
(* ================================================================== *)

Module PyStr.

Definition code (c : ascii) : N := N_of_ascii c.



(** The characters [str.strip()] removes, on ASCII text: TAB, LF, VT, FF,
    CR, the separators FS, GS, RS, US and the space. *)
Definition isspace (c : ascii) : bool :=
  let n := code c in
  ((9 <=? n)%N && (n <=? 13)%N) || ((28 <=? n)%N && (n <=? 32)%N).

Definition upper_char (c : ascii) : ascii :=
  let n := code c in
  if ((97 <=? n)%N && (n <=? 122)%N) then ascii_of_N (n - 32) else c.

Definition lower_char (c : ascii) : ascii :=
  let n := code c in
  if ((65 <=? n)%N && (n <=? 90)%N) then ascii_of_N (n + 32) else c.

Fixpoint map_chars (f : ascii -> ascii) (s : string) : string :=
  match s with
  | EmptyString => EmptyString
  | String c s' => String (f c) (map_chars f s')
  end.

(** [s.upper()], [s.lower()] *)
Definition upper : string -> string := map_chars upper_char.
Definition lower : string -> string := map_chars lower_char.

(** [s.lstrip()], [s.rstrip()], [s.strip()] *)
Fixpoint lstrip (s : string) : string :=
  match s with
  | EmptyString => EmptyString
  | String c s' => if isspace c then lstrip s' else s
  end.

Fixpoint rstrip (s : string) : string :=
  match s with
  | EmptyString => EmptyString
  | String c s' =>
      match rstrip s' with
      | EmptyString => if isspace c then EmptyString else String c EmptyString
      | r => String c r
      end
  end.

Definition strip (s : string) : string := rstrip (lstrip s).

(** [s.startswith(p)] *)
Fixpoint startswith (s p : string) {struct p} : bool :=
  match p, s with
  | EmptyString, _ => true
  | String a p', String b s' => Ascii.eqb b a && startswith s' p'
  | String _ _, EmptyString => false
  end.

(** [sep.join(l)] *)
Definition join (sep : string) (l : list string) : string :=
  String.concat sep l.

(** [str(n)] and [f"{n}"] for an [int]. *)
Definition str_int (n : Z) : string := NilZero.string_of_int (Z.to_int n).

Fixpoint zeros (n : nat) : string :=
  match n with
  | O => EmptyString
  | S k => String "0" (zeros k)
  end.

(** [f"{n:0<w>d}"]: sign-aware zero padding to a minimum width. *)
Definition format_0d (w : nat) (n : Z) : string :=
  let sign := if n <? 0 then "-" else "" in
  let digits := str_int (Z.abs n) in
  sign +:+ zeros (w - String.length sign - String.length digits) +:+ digits.

End PyStr.

(** Python values that travel through [**kwargs] and query parameters. *)
Inductive pyval : Type :=
| PStr (s : string)
| PInt (n : Z).

(** [f"{v}"] *)
Definition py_str (v : pyval) : string :=
  match v with
  | PStr s => s
  | PInt n => PyStr.str_int n
  end.

(** A record batch: rows of cells.  Column names and types are inferred by
    the reading library and play no part here. *)
Definition DataFrame : Type := list (list pyval).

(** Exceptions the sources raise or let through. *)
Inductive exn : Type :=
| ValueError (msg : string)
| FileNotFoundError (msg : string)
| FileExistsError
| NotADirectoryError
| IsADirectoryError
| OverflowError
| AttributeError
| TypeError
| IndexError
| EngineError (msg : string).

Inductive result (A : Type) : Type :=
| Ok (a : A)
| Raise (e : exn).
Arguments Ok {A} a.
Arguments Raise {A} e.

(** A state-and-exception monad: the state survives a raise, as the
    attributes of a Python object and the file system do. *)
Definition M (S A : Type) : Type := S -> S * result A.

Definition ret {S A : Type} (a : A) : M S A := fun s => (s, Ok a).

Definition raise {S A : Type} (e : exn) : M S A := fun s => (s, Raise e).

Definition bind {S A B : Type} (m : M S A) (k : A -> M S B) : M S B :=
  fun s =>
    match m s with
    | (s', Ok a) => k a s'
    | (s', Raise e) => (s', Raise e)
    end.

Definition get {S : Type} : M S S := fun s => (s, Ok s).

Definition modify {S : Type} (f : S -> S) : M S unit := fun s => (f s, Ok tt).

Notation "x <- m ;; k" := (bind m (fun x => k))
  (at level 100, m at next level, right associativity).
Notation "m ;;; k" := (bind m (fun _ => k))
  (at level 100, right associativity).

(* ================================================================== *)
(** ** [pathlib] (POSIX flavour) *)
(* ================================================================== *)

(** A path is the tuple [Path.parts]; an absolute path starts with the
    part ["/"]. *)
Abbreviation Path := (list string).

Module PurePath.

(** Split at every ["/"]. *)
Fixpoint split_slash (cur : string) (s : string) : list string :=
  match s with
  | EmptyString => [String.rev cur]
  | String c s' =>
      if Ascii.eqb c "/" then String.rev cur :: split_slash EmptyString s'
      else split_slash (String c cur) s'
  end.

Definition keep_part (p : string) : bool :=
  negb (String.eqb p "") && negb (String.eqb p ".").

Definition is_absolute_str (s : string) : bool := PyStr.startswith s "/".

(** [Path(s)]: empty and ["."] components are dropped. *)
Definition of_str (s : string) : Path :=
  (if is_absolute_str s then ["/"] else []) ++
  List.filter keep_part (split_slash EmptyString s).

(** [p / s]: an absolute right operand replaces the left one. *)
Definition joinpath (p : Path) (s : string) : Path :=
  if is_absolute_str s then of_str s else p ++ of_str s.

(** [str(p)] *)
Definition to_str (p : Path) : string :=
  match p with
  | [] => "."
  | root :: rest =>
      if String.eqb root "/" then "/" +:+ PyStr.join "/" rest
      else PyStr.join "/" p
  end.

(** [p.parent] *)
Definition parent (p : Path) : Path :=
  match p with
  | [root] => if String.eqb root "/" then p else []
  | _ => removelast p
  end.

Fixpoint is_prefix (p q : Path) : bool :=
  match p, q with
  | [], _ => true
  | a :: p', b :: q' => String.eqb a b && is_prefix p' q'
  | _ :: _, [] => false
  end.

(** [p.relative_to(other)] *)
Definition relative_to (p other : Path) : result Path :=
  if is_prefix other p then Ok (drop (List.length other) p)
  else Raise (ValueError "path is not in the subpath of the other").

End PurePath.

Infix "/:" := PurePath.joinpath (at level 40, left associativity).

(* ================================================================== *)
(** ** [datetime] *)
(* ================================================================== *)

Module Datetime.

Record datetime : Type := mk {
  year : Z; month : Z; day : Z;
  hour : Z; minute : Z; second : Z; microsecond : Z
}.

Definition MINYEAR : Z := 1.
Definition MAXYEAR : Z := 9999.

Definition is_leap (y : Z) : bool :=
  (y mod 4 =? 0) && (negb (y mod 100 =? 0) || (y mod 400 =? 0)).

Definition days_in_month (y m : Z) : Z :=
  if m =? 2 then (if is_leap y then 29 else 28)
  else if (m =? 4) || (m =? 6) || (m =? 9) || (m =? 11) then 30
  else 31.

(** What the constructor of [datetime] accepts. *)
Definition valid (d : datetime) : Prop :=
  MINYEAR <= year d <= MAXYEAR /\
  1 <= month d <= 12 /\
  1 <= day d <= days_in_month (year d) (month d) /\
  0 <= hour d < 24 /\ 0 <= minute d < 60 /\
  0 <= second d < 60 /\ 0 <= microsecond d < 1000000.

(** [datetime(y, m, d)] *)
Definition date (y m d : Z) : datetime := mk y m d 0 0 0 0.

(** Comparison of two naive datetimes, [a <= b]: field by field. *)
Definition fields (d : datetime) : list Z :=
  [year d; month d; day d; hour d; minute d; second d; microsecond d].

Fixpoint lex_le (a b : list Z) : bool :=
  match a, b with
  | x :: a', y :: b' => (x <? y) || ((x =? y) && lex_le a' b')
  | [], _ => true
  | _ :: _, [] => false
  end.

Definition le (a b : datetime) : bool := lex_le (fields a) (fields b).

(** [d + timedelta(days=1)]; [None] is the overflow past [MAXYEAR]. *)
Definition add_one_day (d : datetime) : option datetime :=
  if day d <? days_in_month (year d) (month d) then
    Some (mk (year d) (month d) (day d + 1)
             (hour d) (minute d) (second d) (microsecond d))
  else if month d <? 12 then
    Some (mk (year d) (month d + 1) 1
             (hour d) (minute d) (second d) (microsecond d))
  else if year d <? MAXYEAR then
    Some (mk (year d + 1) 1 1
             (hour d) (minute d) (second d) (microsecond d))
  else None.

(** [d.toordinal()]: days since 0001-01-01, counted from 1. *)
Definition days_before_year (y : Z) : Z :=
  let p := y - 1 in p * 365 + p / 4 - p / 100 + p / 400.

Fixpoint days_before_month_nat (y : Z) (m : nat) : Z :=
  match m with
  | O => 0
  | S k => days_before_month_nat y k + days_in_month y (Z.of_nat (S k))
  end.

Definition days_before_month (y m : Z) : Z :=
  days_before_month_nat y (Z.to_nat (m - 1)).

Definition toordinal (d : datetime) : Z :=
  days_before_year (year d) + days_before_month (year d) (month d) + day d.

(** [d.strftime('%Y%m%d')] *)
Definition strftime_Ymd (d : datetime) : string :=
  PyStr.format_0d 4 (year d) +:+ PyStr.format_0d 2 (month d)
    +:+ PyStr.format_0d 2 (day d).

End Datetime.

Abbreviation datetime := Datetime.datetime.

(* ================================================================== *)
(** ** The file system *)
(* ================================================================== *)

Module FS.

Inductive node : Type :=
| Dir
| File (content : DataFrame).

(** The part of the operating system the sources touch: the tree of
    files and the working directory of the process. *)
Record OS : Type := mkOS {
  files : gmap Path node;
  cwd : Path
}.

(** [p.exists()]; the empty path is the working directory itself. *)
Definition path_exists (p : Path) (os : OS) : bool :=
  match p with
  | [] => true
  | _ => bool_decide (is_Some (files os !! p))
  end.

(** [p.mkdir(parents=True, exist_ok=True)]: every missing ancestor is
    created; a regular file in the way makes the call fail before
    anything is created. *)
Fixpoint mkdir_from (done_ : Path) (todo : list string)
    (fs : gmap Path node) : result (gmap Path node) :=
  match todo with
  | [] => Ok fs
  | part :: rest =>
      let q := done_ ++ [part] in
      match fs !! q with
      | Some (File _) =>
          Raise (match rest with
                 | [] => FileExistsError
                 | _ => NotADirectoryError
                 end)
      | Some Dir => mkdir_from q rest fs
      | None => mkdir_from q rest (<[q := Dir]> fs)
      end
  end.

Definition mkdir_parents (p : Path) : M OS unit :=
  fun os =>
    match mkdir_from [] p (files os) with
    | Ok fs' => (mkOS fs' (cwd os), Ok tt)
    | Raise e => (os, Raise e)
    end.

(** [df.to_parquet(p, ...)]: writes or overwrites the file at [p]. *)
Definition to_parquet (df : DataFrame) (p : Path) : M OS unit :=
  fun os =>
    match files os !! p with
    | Some Dir => (os, Raise IsADirectoryError)
    | _ => (mkOS (<[p := File df]> (files os)) (cwd os), Ok tt)
    end.

End FS.

Abbreviation OS := FS.OS.

(* ================================================================== *)
(** ** [config/database_config.py]: constants and path helpers *)
(* ================================================================== *)

Module Config.

Definition DB_PATH : string := "dwh.duckdb".
Definition RAW_DATA_PATH : Path := PurePath.of_str "data/raw/case_history".
Definition DEFAULT_MEMORY_LIMIT : string := "4GB".
Definition DEFAULT_THREADS : Z := 4.

Definition get_raw_data_path (date : datetime) : Path :=
  RAW_DATA_PATH /: PyStr.str_int (Datetime.year date)
                /: PyStr.format_0d 2 (Datetime.month date)
                /: PyStr.format_0d 2 (Datetime.day date).

Definition get_raw_file_path (date : datetime) : Path :=
  let folder := get_raw_data_path date in
  let filename := "casos_rrhh_" +:+ Datetime.strftime_Ymd date +:+ ".parquet" in
  folder /: filename.

End Config.

(* ================================================================== *)
(** ** [config/files_utils.py] *)
(* ================================================================== *)

Module FileUtils.

Definition ensure_path_exists (path : Path) : M OS Path :=
  FS.mkdir_parents path ;;; ret path.

(** The [while current <= end_date] loop of [list_raw_files_in_range].
    [fuel] bounds the number of iterations; [None] is returned only when
    it runs out. *)
Fixpoint range_loop (fuel : nat) (os : OS) (current end_date : datetime)
    (files : list Path) : option (result (list Path)) :=
  match fuel with
  | O => None
  | S fuel' =>
      if Datetime.le current end_date then
        let file_path := Config.get_raw_file_path current in
        let files' :=
          if FS.path_exists file_path os then files ++ [file_path]
          else files in
        match Datetime.add_one_day current with
        | Some next => range_loop fuel' os next end_date files'
        | None => Some (Raise OverflowError)
        end
      else Some (Ok files)
  end.

(** One iteration per day from [start_date] to [end_date], and the last
    test that leaves the loop. *)
Definition range_fuel (start_date end_date : datetime) : nat :=
  S (Z.to_nat (Datetime.toordinal end_date - Datetime.toordinal start_date + 1)).

Definition list_raw_files_in_range (start_date end_date : datetime)
    (os : OS) : option (result (list Path)) :=
  range_loop (range_fuel start_date end_date) os start_date end_date [].

End FileUtils.

(* ================================================================== *)
(** ** [extraction/parquet_loader.py] *)
(* ================================================================== *)

Module ParquetLoader.

Record t : Type := mk { base_path : Path }.

(** [ParquetLoader(base_path=RAW_DATA_PATH)] *)
Definition __init__ (base_path : option Path) : t :=
  mk (default Config.RAW_DATA_PATH base_path).

Definition _get_hive_partition_path (self : t) (extraction_date : datetime)
    : Path :=
  base_path self
    /: ("year=" +:+ PyStr.str_int (Datetime.year extraction_date))
    /: ("month=" +:+ PyStr.format_0d 2 (Datetime.month extraction_date))
    /: ("day=" +:+ PyStr.format_0d 2 (Datetime.day extraction_date)).

(** The name built inside [_save_to_parquet]. *)
Definition filename_for (extraction_date : datetime) : string :=
  "case_history_" +:+ Datetime.strftime_Ymd extraction_date +:+ ".parquet".

(** [output_path = partition_path / filename] *)
Definition output_path_for (self : t) (extraction_date : datetime) : Path :=
  _get_hive_partition_path self extraction_date /: filename_for extraction_date.

(** The report printed after the write shows
    [output_path.relative_to(Path.cwd())], which raises when the output
    path does not lie under the working directory. *)
Definition _save_to_parquet (self : t) (df : DataFrame)
    (extraction_date : datetime) : M OS Path :=
  let partition_path := _get_hive_partition_path self extraction_date in
  FileUtils.ensure_path_exists partition_path ;;;
  let output_path := output_path_for self extraction_date in
  FS.to_parquet df output_path ;;;
  os <- get ;;
  match PurePath.relative_to output_path (FS.cwd os) with
  | Raise e => raise e
  | Ok _ => ret output_path
  end.

End ParquetLoader.

(* ================================================================== *)
(** ** The embedded engine *)
(* ================================================================== *)

(** The engine is a library outside the repository.  Its model keeps a
    catalog of tables, the rows of the partitioned file tree, the open
    connections and the calls received, and gives a meaning to the
    statements the claims are about; every other statement is left to the
    functions [other_sql] and [other_query] the engine state carries. *)
Module Engine.

(** The engine-native connection object. *)
Inductive DuckDBPyConnection : Type :=
| Handle (id : nat).

#[global] Instance DuckDBPyConnection_eq_dec : EqDecision DuckDBPyConnection.
Proof. solve_decision. Defined.

(** A row of
    [read_parquet('<raw>/**/*.parquet', hive_partitioning = true)]:
    the partition columns read off the [key=value] directories, and the
    cells stored in the file. *)
Record prow : Type := mkRow {
  p_year : Z; p_month : Z; p_day : Z;
  p_data : list pyval
}.

(** The statements the adapter composes, and caller-written text. *)
Inductive sql : Type :=
| SetMemoryLimit (limit : pyval)
| SetThreads (n : pyval)
| CountTablesNamed
| DropTableIfExists (table_name : string)
| InsertSelectDf (table_name : string) (df : DataFrame)
| CreateAsSelectDf (table_name : string) (df : DataFrame)
| InsertSelectParquet (table_name : string) (parquet_path : Path)
| CreateAsSelectParquet (table_name : string) (parquet_path : Path)
| SelectCount (table_name : string)
| CopyToParquet (query : string) (output_path : Path)
| Describe (table_name : string)
| Checkpoint
| Text (query : string).

Definition nl : string := String "010" EmptyString.

Fixpoint spaces (n : nat) : string :=
  match n with
  | O => EmptyString
  | S k => String " " (spaces k)
  end.

(** The text each statement stands for, as the f-strings build it. *)
Definition sql_text (q : sql) : string :=
  match q with
  | SetMemoryLimit limit => "SET memory_limit='" +:+ py_str limit +:+ "'"
  | SetThreads n => "SET threads=" +:+ py_str n
  | CountTablesNamed =>
      nl +:+ spaces 12 +:+ "SELECT COUNT(*) " +:+
      nl +:+ spaces 12 +:+ "FROM information_schema.tables " +:+
      nl +:+ spaces 12 +:+ "WHERE table_name = ?" +:+
      nl +:+ spaces 8
  | DropTableIfExists t => "DROP TABLE IF EXISTS " +:+ t
  | InsertSelectDf t _ => "INSERT INTO " +:+ t +:+ " SELECT * FROM df"
  | CreateAsSelectDf t _ => "CREATE TABLE " +:+ t +:+ " AS SELECT * FROM df"
  | InsertSelectParquet t p =>
      "INSERT INTO " +:+ t +:+ " SELECT * FROM read_parquet('"
        +:+ PurePath.to_str p +:+ "')"
  | CreateAsSelectParquet t p =>
      "CREATE TABLE " +:+ t +:+ " AS SELECT * FROM read_parquet('"
        +:+ PurePath.to_str p +:+ "')"
  | SelectCount t => "SELECT COUNT(*) FROM " +:+ t
  | CopyToParquet query p =>
      "COPY (" +:+ query +:+ ") TO '" +:+ PurePath.to_str p
        +:+ "' (FORMAT PARQUET, COMPRESSION ZSTD)"
  | Describe t => "DESCRIBE " +:+ t
  | Checkpoint => "CHECKPOINT"
  | Text query => query
  end.

(** The engine-native result handle. *)
Definition relation : Type := list (list pyval).

(** [r.fetchone()], [r.fetchall()], [r.df()] *)
Definition fetchone (r : relation) : option (list pyval) := head r.
Definition fetchall (r : relation) : list (list pyval) := r.
Definition df (r : relation) : DataFrame := r.

(** What the engine was asked to do, in order. *)
Inductive call : Type :=
| CConnect (database : string) (h : DuckDBPyConnection)
| CExecute (h : DuckDBPyConnection) (q : sql) (params : option (list pyval))
| CFetchDf (h : DuckDBPyConnection) (query : string)
| CCommit (h : DuckDBPyConnection)
| CRollback (h : DuckDBPyConnection)
| CClose (h : DuckDBPyConnection).

(** How a statement ends inside the engine. *)
Inductive outcome (A : Type) : Type :=
| Done (a : A)
| Failed (msg : string).
Arguments Done {A} a.
Arguments Failed {A} msg.

Record t : Type := mk {
  tables : gmap string DataFrame;
  dataset : list prow;
  live : list DuckDBPyConnection;
  next_id : nat;
  calls : list call;
  other_sql : sql -> option (list pyval) -> gmap string DataFrame -> OS ->
              outcome (gmap string DataFrame * OS * relation);
  other_query : string -> list prow -> outcome (list prow)
}.

Definition set_tables (tb : gmap string DataFrame) (e : t) : t :=
  mk tb (dataset e) (live e) (next_id e) (calls e) (other_sql e) (other_query e).

Definition set_live (l : list DuckDBPyConnection) (e : t) : t :=
  mk (tables e) (dataset e) l (next_id e) (calls e) (other_sql e) (other_query e).

Definition set_next_id (n : nat) (e : t) : t :=
  mk (tables e) (dataset e) (live e) n (calls e) (other_sql e) (other_query e).

Definition record (c : call) (e : t) : t :=
  mk (tables e) (dataset e) (live e) (next_id e) (calls e ++ [c])
     (other_sql e) (other_query e).

Definition is_live (h : DuckDBPyConnection) (e : t) : bool :=
  bool_decide (h ∈ live e).

(** *** Statements on the catalog *)

Definition no_params (params : option (list pyval)) : bool :=
  match params with
  | None => true
  | Some _ => false
  end.

Definition exec_sql (q : sql) (params : option (list pyval)) (e : t) (os : OS)
    : outcome (gmap string DataFrame * OS * relation) :=
  match q with
  | SetMemoryLimit _ | SetThreads _ =>
      if no_params params then Done (tables e, os, [])
      else Failed "binder: no parameter expected"
  | CountTablesNamed =>
      match params with
      | Some [PStr name] =>
          let n := if bool_decide (name ∈ dom (tables e)) then 1 else 0 in
          Done (tables e, os, [[PInt n]])
      | _ => Failed "binder: one text parameter expected"
      end
  | DropTableIfExists name =>
      if no_params params then Done (delete name (tables e), os, [])
      else Failed "binder: no parameter expected"
  | InsertSelectDf name rows =>
      if no_params params then
        match tables e !! name with
        | Some old => Done (<[name := old ++ rows]> (tables e), os, [])
        | None => Failed "catalog: table does not exist"
        end
      else Failed "binder: no parameter expected"
  | CreateAsSelectDf name rows =>
      if no_params params then
        match tables e !! name with
        | Some _ => Failed "catalog: table already exists"
        | None => Done (<[name := rows]> (tables e), os, [])
        end
      else Failed "binder: no parameter expected"
  | _ => other_sql e q params (tables e) os
  end.

(** *** Reads of the partitioned tree *)

(** SQL white space. *)
Definition is_blank (c : ascii) : bool :=
  let n := PyStr.code c in
  ((9 <=? n)%N && (n <=? 13)%N) || (n =? 32)%N.

Fixpoint tokens (s : string) : list string :=
  match s with
  | EmptyString => []
  | String c s' =>
      if is_blank c then tokens s'
      else
        match s' with
        | EmptyString => [String c EmptyString]
        | String c' _ =>
            if is_blank c' then String c EmptyString :: tokens s'
            else
              match tokens s' with
              | w :: ws => String c w :: ws
              | [] => [String c EmptyString]
              end
        end
  end.

Inductive column : Type := ColYear | ColMonth | ColDay.

Inductive comparison : Type := CmpEq | CmpGe | CmpLe | CmpGt | CmpLt.

Record cond : Type := mkCond {
  c_col : column; c_op : comparison; c_val : Z
}.

Definition parse_column (s : string) : option column :=
  if String.eqb s "year" then Some ColYear
  else if String.eqb s "month" then Some ColMonth
  else if String.eqb s "day" then Some ColDay
  else None.

Definition parse_comparison (s : string) : option comparison :=
  if String.eqb s "=" then Some CmpEq
  else if String.eqb s ">=" then Some CmpGe
  else if String.eqb s "<=" then Some CmpLe
  else if String.eqb s ">" then Some CmpGt
  else if String.eqb s "<" then Some CmpLt
  else None.

(** An integer literal. *)
Definition parse_int (s : string) : option Z :=
  option_map Z.of_int (NilZero.int_of_string s).

Definition parse_cond (col op lit : string) : option cond :=
  match parse_column col, parse_comparison op, parse_int lit with
  | Some c, Some o, Some v => Some (mkCond c o v)
  | _, _, _ => None
  end.

(** [col op literal AND col op literal ...] *)
Fixpoint parse_conds (ts : list string) : option (list cond) :=
  match ts with
  | col :: op :: lit :: rest =>
      match parse_cond col op lit with
      | None => None
      | Some c =>
          match rest with
          | [] => Some [c]
          | kw :: rest' =>
              if String.eqb kw "AND" then
                match parse_conds rest' with
                | Some cs => Some (c :: cs)
                | None => None
                end
              else None
          end
      end
  | _ => None
  end.

Definition column_of (c : column) (r : prow) : Z :=
  match c with
  | ColYear => p_year r
  | ColMonth => p_month r
  | ColDay => p_day r
  end.

Definition compare (o : comparison) (a b : Z) : bool :=
  match o with
  | CmpEq => a =? b
  | CmpGe => a >=? b
  | CmpLe => a <=? b
  | CmpGt => a >? b
  | CmpLt => a <? b
  end.

Definition eval_cond (r : prow) (c : cond) : bool :=
  compare (c_op c) (column_of (c_col c) r) (c_val c).

Definition eval_where (conds : list cond) (r : prow) : bool :=
  forallb (eval_cond r) conds.

(** The head of every read the Reader composes, token by token. *)
Definition select_head : list string :=
  ["SELECT"; "*"; "FROM";
   "read_parquet('data/raw/case_history/**/*.parquet',";
   "hive_partitioning"; "="; "true)"].

Fixpoint list_eqb (a b : list string) : bool :=
  match a, b with
  | [], [] => true
  | x :: a', y :: b' => String.eqb x y && list_eqb a' b'
  | _, _ => false
  end.

(** [SELECT * FROM read_parquet(...)] with no filter or with a
    conjunction of comparisons on the partition columns; [None] for any
    other text. *)
Definition eval_select (query : string) (rows : list prow)
    : option (list prow) :=
  let ts := tokens query in
  if list_eqb (take 7 ts) select_head then
    match drop 7 ts with
    | [] => Some rows
    | kw :: conds =>
        if String.eqb kw "WHERE" then
          match parse_conds conds with
          | Some cs => Some (List.filter (eval_where cs) rows)
          | None => None
          end
        else None
    end
  else None.

End Engine.

Abbreviation DuckDBPyConnection := Engine.DuckDBPyConnection.

(* ================================================================== *)
(** ** [config/duckdb_adapter.py] and [config/database_interface.py] *)
(* ================================================================== *)

Module DuckDBAdapter.

Record t : Type := mk {
  db_path : Path;
  memory_limit : pyval;
  threads : pyval;
  conn : option DuckDBPyConnection
}.

(** [DuckDBAdapter(db_path, memory_limit, threads)] *)
Definition __init__ (db_path : string) (memory_limit threads : pyval) : t :=
  mk (PurePath.of_str db_path) memory_limit threads None.

End DuckDBAdapter.

(** One adapter object, the engine it talks to, and the file system. *)
Record World : Type := mkWorld {
  adapter : DuckDBAdapter.t;
  engine : Engine.t;
  os : OS
}.

Abbreviation Cmd := (M World).

Definition set_conn (c : option DuckDBPyConnection) (w : World) : World :=
  let a := adapter w in
  mkWorld (DuckDBAdapter.mk (DuckDBAdapter.db_path a)
             (DuckDBAdapter.memory_limit a) (DuckDBAdapter.threads a) c)
          (engine w) (os w).

Definition on_engine (f : Engine.t -> Engine.t) (w : World) : World :=
  mkWorld (adapter w) (f (engine w)) (os w).

(** *** Calls into the engine *)

Module Conn.

(** [duckdb.connect(database)] *)
Definition connect (database : string) : Cmd DuckDBPyConnection :=
  fun w =>
    let h := Engine.Handle (Engine.next_id (engine w)) in
    (on_engine (fun e =>
        Engine.record (Engine.CConnect database h)
          (Engine.set_next_id (S (Engine.next_id e))
            (Engine.set_live (h :: Engine.live e) e))) w,
     Ok h).

Definition closed_error {A : Type} : result A :=
  Raise (EngineError "connection already closed").

(** [c.execute(query)] and [c.execute(query, params)] *)
Definition execute (c : DuckDBPyConnection) (q : Engine.sql)
    (params : option (list pyval)) : Cmd Engine.relation :=
  fun w =>
    let w1 := on_engine (Engine.record (Engine.CExecute c q params)) w in
    if Engine.is_live c (engine w) then
      match Engine.exec_sql q params (engine w) (os w) with
      | Engine.Done (tb, os', rel) =>
          (mkWorld (adapter w1) (Engine.set_tables tb (engine w1)) os', Ok rel)
      | Engine.Failed msg => (w1, Raise (EngineError msg))
      end
    else (w1, closed_error).

(** [c.fetch_df(query)] as the Reader calls it on the object its [with]
    statement binds: the query is run and its rows are returned. *)
Definition fetch_df (c : DuckDBPyConnection) (query : string)
    : Cmd (list Engine.prow) :=
  fun w =>
    let w1 := on_engine (Engine.record (Engine.CFetchDf c query)) w in
    if Engine.is_live c (engine w) then
      match Engine.eval_select query (Engine.dataset (engine w)) with
      | Some rows => (w1, Ok rows)
      | None =>
          match Engine.other_query (engine w) query
                  (Engine.dataset (engine w)) with
          | Engine.Done rows => (w1, Ok rows)
          | Engine.Failed msg => (w1, Raise (EngineError msg))
          end
      end
    else (w1, closed_error).

(** [c.commit()], [c.rollback()]: the engine commits each statement on
    its own, so neither changes the catalog. *)
Definition commit (c : DuckDBPyConnection) : Cmd unit :=
  fun w =>
    let w1 := on_engine (Engine.record (Engine.CCommit c)) w in
    if Engine.is_live c (engine w) then (w1, Ok tt) else (w1, closed_error).

Definition rollback (c : DuckDBPyConnection) : Cmd unit :=
  fun w =>
    let w1 := on_engine (Engine.record (Engine.CRollback c)) w in
    if Engine.is_live c (engine w) then (w1, Ok tt) else (w1, closed_error).

(** [c.close()] *)
Definition close (c : DuckDBPyConnection) : Cmd unit :=
  modify (on_engine (fun e =>
    Engine.record (Engine.CClose c)
      (Engine.set_live (List.filter (fun h => negb (bool_decide (h = c)))
                          (Engine.live e)) e))).

End Conn.

(** *** The adapter's methods *)

Module Adapter.

Import DuckDBAdapter.

(** [self.conn] where the source goes on to call a method of it. *)
Definition the_conn : Cmd DuckDBPyConnection :=
  w <- get ;;
  match conn (adapter w) with
  | Some c => ret c
  | None => raise AttributeError
  end.

Definition connect : Cmd DuckDBPyConnection :=
  w <- get ;;
  match conn (adapter w) with
  | None =>
      c <- Conn.connect (PurePath.to_str (db_path (adapter w))) ;;
      modify (set_conn (Some c)) ;;;
      Conn.execute c (Engine.SetMemoryLimit (memory_limit (adapter w))) None ;;;
      Conn.execute c (Engine.SetThreads (threads (adapter w))) None ;;;
      ret c
  | Some c => ret c
  end.

Definition close : Cmd unit :=
  w <- get ;;
  match conn (adapter w) with
  | Some c => Conn.close c ;;; modify (set_conn None)
  | None => ret tt
  end.

(** [if self.conn is None: self.connect()] *)
Definition ensure_connected : Cmd unit :=
  w <- get ;;
  match conn (adapter w) with
  | None => connect ;;; ret tt
  | Some _ => ret tt
  end.

(** [if params:] *)
Definition truthy (params : option (list pyval)) : bool :=
  match params with
  | Some (_ :: _) => true
  | _ => false
  end.

Definition execute (query : Engine.sql) (params : option (list pyval))
    : Cmd Engine.relation :=
  ensure_connected ;;;
  c <- the_conn ;;
  if truthy params then Conn.execute c query params
  else Conn.execute c query None.

Fixpoint execute_each (query : Engine.sql) (params_list : list (list pyval))
    : Cmd unit :=
  match params_list with
  | [] => ret tt
  | params :: rest =>
      c <- the_conn ;;
      Conn.execute c query (Some params) ;;;
      execute_each query rest
  end.

Definition execute_many (query : Engine.sql) (params_list : list (list pyval))
    : Cmd unit :=
  ensure_connected ;;;
  execute_each query params_list.

Definition fetch_one (query : Engine.sql) (params : option (list pyval))
    : Cmd (option (list pyval)) :=
  result <- execute query params ;;
  ret (Engine.fetchone result).

Definition fetch_all (query : Engine.sql) (params : option (list pyval))
    : Cmd (list (list pyval)) :=
  result <- execute query params ;;
  ret (Engine.fetchall result).

Definition fetch_df (query : Engine.sql) (params : option (list pyval))
    : Cmd DataFrame :=
  result <- execute query params ;;
  ret (Engine.df result).

(** [result[0] > 0 if result else False] *)
Definition table_exists (table_name : string) : Cmd bool :=
  result <- fetch_one Engine.CountTablesNamed (Some [PStr table_name]) ;;
  match result with
  | Some (PInt n :: _) => ret (n >? 0)
  | Some (PStr _ :: _) => raise TypeError
  | Some [] | None => ret false
  end.

Definition create_table_from_df (df : DataFrame) (table_name : string)
    (if_exists : string) : Cmd unit :=
  ensure_connected ;;;
  exists_ <- table_exists table_name ;;
  (if exists_ && String.eqb if_exists "fail" then
     raise (ValueError ("Table '" +:+ table_name +:+ "' already exists"))
   else if exists_ && String.eqb if_exists "replace" then
     execute (Engine.DropTableIfExists table_name) None ;;; ret tt
   else ret tt) ;;;
  c <- the_conn ;;
  (if String.eqb if_exists "append" && exists_ then
     Conn.execute c (Engine.InsertSelectDf table_name df) None
   else
     Conn.execute c (Engine.CreateAsSelectDf table_name df) None) ;;;
  ret tt.

Definition create_table_from_parquet (parquet_path : Path)
    (table_name : string) (if_exists : string) : Cmd unit :=
  w <- get ;;
  (if FS.path_exists parquet_path (os w) then ret tt
   else raise (FileNotFoundError
                 ("Parquet file not found: " +:+ PurePath.to_str parquet_path))) ;;;
  exists_ <- table_exists table_name ;;
  (if exists_ && String.eqb if_exists "fail" then
     raise (ValueError ("Table '" +:+ table_name +:+ "' already exists"))
   else if exists_ && String.eqb if_exists "replace" then
     execute (Engine.DropTableIfExists table_name) None ;;; ret tt
   else ret tt) ;;;
  let query :=
    if String.eqb if_exists "append" && exists_ then
      Engine.InsertSelectParquet table_name parquet_path
    else Engine.CreateAsSelectParquet table_name parquet_path in
  execute query None ;;;
  count <- fetch_one (Engine.SelectCount table_name) None ;;
  match count with
  | Some (_ :: _) => ret tt
  | Some [] => raise IndexError
  | None => raise TypeError
  end.

(** [output_path.parent.mkdir(parents=True, exist_ok=True)] *)
Definition mkdir_parent (output_path : Path) : Cmd unit :=
  fun w =>
    match FS.mkdir_parents (PurePath.parent output_path) (os w) with
    | (os', r) => (mkWorld (adapter w) (engine w) os', r)
    end.

Definition export_to_parquet (query : string) (output_path : Path)
    (params : option (list pyval)) : Cmd unit :=
  mkdir_parent output_path ;;;
  execute (Engine.CopyToParquet query output_path) params ;;;
  ret tt.

Definition get_table_info (table_name : string) : Cmd DataFrame :=
  fetch_df (Engine.Describe table_name) None.

Definition commit : Cmd unit :=
  w <- get ;;
  match conn (adapter w) with
  | Some c => Conn.commit c
  | None => ret tt
  end.

Definition rollback : Cmd unit :=
  w <- get ;;
  match conn (adapter w) with
  | Some c => Conn.rollback c
  | None => ret tt
  end.

Definition vacuum : Cmd unit :=
  ensure_connected ;;;
  c <- the_conn ;;
  Conn.execute c Engine.Checkpoint None ;;;
  ret tt.

(** [DatabaseInterface.__enter__] and [__exit__]; [failed] says that
    [exc_type is not None]. *)
Definition __enter__ : Cmd DuckDBPyConnection := connect.

Definition __exit__ (failed : bool) : Cmd unit :=
  (if failed then rollback else ret tt) ;;;
  close.


(** Every operation of the adapter, for statements about all of them. *)
Inductive op : Type :=
| OpConnect
| OpClose
| OpExecute (query : Engine.sql) (params : option (list pyval))
| OpExecuteMany (query : Engine.sql) (params_list : list (list pyval))
| OpFetchOne (query : Engine.sql) (params : option (list pyval))
| OpFetchAll (query : Engine.sql) (params : option (list pyval))
| OpFetchDf (query : Engine.sql) (params : option (list pyval))
| OpTableExists (table_name : string)
| OpCreateTableFromDf (df : DataFrame) (table_name if_exists : string)
| OpCreateTableFromParquet (parquet_path : Path) (table_name if_exists : string)
| OpExportToParquet (query : string) (output_path : Path)
    (params : option (list pyval))
| OpGetTableInfo (table_name : string)
| OpCommit
| OpRollback
| OpVacuum
| OpEnter
| OpExit (failed : bool).

Definition forget {A : Type} (m : Cmd A) : Cmd unit := m ;;; ret tt.

Definition run (o : op) : Cmd unit :=
  match o with
  | OpConnect => forget connect
  | OpClose => close
  | OpExecute q p => forget (execute q p)
  | OpExecuteMany q ps => execute_many q ps
  | OpFetchOne q p => forget (fetch_one q p)
  | OpFetchAll q p => forget (fetch_all q p)
  | OpFetchDf q p => forget (fetch_df q p)
  | OpTableExists t => forget (table_exists t)
  | OpCreateTableFromDf df t m => create_table_from_df df t m
  | OpCreateTableFromParquet p t m => create_table_from_parquet p t m
  | OpExportToParquet q p ps => export_to_parquet q p ps
  | OpGetTableInfo t => forget (get_table_info t)
  | OpCommit => commit
  | OpRollback => rollback
  | OpVacuum => vacuum
  | OpEnter => forget __enter__
  | OpExit failed => __exit__ failed
  end.

End Adapter.

(* ================================================================== *)
(** ** [config/database_config.py]: the factory *)
(* ================================================================== *)

Module Factory.

(** [kwargs.get(key, default)] *)
Definition kwargs_get (kwargs : gmap string pyval) (key : string)
    (dflt : pyval) : pyval :=
  default dflt (kwargs !! key).

Definition get_database (db_type : string) (db_path : string)
    (kwargs : gmap string pyval) : result DuckDBAdapter.t :=
  if String.eqb (PyStr.lower db_type) "duckdb" then
    Ok (DuckDBAdapter.__init__ db_path
          (kwargs_get kwargs "memory_limit" (PStr Config.DEFAULT_MEMORY_LIMIT))
          (kwargs_get kwargs "threads" (PInt Config.DEFAULT_THREADS)))
  else Raise (ValueError ("Unsupported database type: " +:+ db_type)).

Definition get_default_database : result DuckDBAdapter.t :=
  get_database "duckdb" Config.DB_PATH ∅.

End Factory.

(* ================================================================== *)
(** ** [transformation/duckdb_reader.py] *)
(* ================================================================== *)

Module DuckDBReader.

(** [self.db] is the adapter of the world the methods run in. *)
Record t : Type := mk { raw_path : Path }.

Definition __init__ : t := mk Config.RAW_DATA_PATH.

(** The lines every query starts with, indented as in the source. *)
Definition select_from (indent : nat) (self : t) : string :=
  Engine.nl +:+ Engine.spaces indent +:+ "SELECT * " +:+
  Engine.nl +:+ Engine.spaces indent +:+ "FROM read_parquet('" +:+
    PurePath.to_str (raw_path self) +:+ "/**/*.parquet', " +:+
  Engine.nl +:+ Engine.spaces (indent + 18) +:+ "hive_partitioning = true)" +:+
  Engine.nl.

Definition read_all_cases_query (self : t) : string :=
  select_from 16 self +:+ Engine.spaces 12.


Definition where_clauses (year : Z) (month day : option Z) : list string :=
  ["year = " +:+ PyStr.str_int year] ++
  match month with
  | Some m => ["month = " +:+ PyStr.str_int m]
  | None => []
  end ++
  match day with
  | Some d => ["day = " +:+ PyStr.str_int d]
  | None => []
  end.

Definition read_cases_by_date_query (self : t) (year : Z)
    (month day : option Z) : string :=
  let where_clause := PyStr.join " AND " (where_clauses year month day) in
  select_from 16 self +:+ Engine.spaces 16 +:+ "WHERE " +:+ where_clause +:+
  Engine.nl +:+ Engine.spaces 12.


Definition read_cases_by_date_range_query (self : t)
    (start_date end_date : datetime) : string :=
  select_from 16 self +:+
  Engine.spaces 16 +:+ "WHERE year >= "
    +:+ PyStr.str_int (Datetime.year start_date) +:+ " " +:+
  Engine.nl +:+ Engine.spaces 18 +:+ "AND year <= "
    +:+ PyStr.str_int (Datetime.year end_date) +:+
  Engine.nl +:+ Engine.spaces 18 +:+ "AND month >= "
    +:+ PyStr.str_int (Datetime.month start_date) +:+
  Engine.nl +:+ Engine.spaces 18 +:+ "AND month <= "
    +:+ PyStr.str_int (Datetime.month end_date) +:+
  Engine.nl +:+ Engine.spaces 12.


Definition get_partition_stats_query (self : t) : string :=
  Engine.nl +:+ Engine.spaces 16 +:+ "SELECT " +:+
  Engine.nl +:+ Engine.spaces 20 +:+ "year," +:+
  Engine.nl +:+ Engine.spaces 20 +:+ "month," +:+
  Engine.nl +:+ Engine.spaces 20 +:+ "day," +:+
  Engine.nl +:+ Engine.spaces 20 +:+ "COUNT(*) as case_count," +:+
  Engine.nl +:+ Engine.spaces 20 +:+ "COUNT(DISTINCT CASE_ID) as unique_cases" +:+
  Engine.nl +:+ Engine.spaces 16 +:+ "FROM read_parquet('" +:+
    PurePath.to_str (raw_path self) +:+ "/**/*.parquet', " +:+
  Engine.nl +:+ Engine.spaces 34 +:+ "hive_partitioning = true)" +:+
  Engine.nl +:+ Engine.spaces 16 +:+ "GROUP BY year, month, day" +:+
  Engine.nl +:+ Engine.spaces 16 +:+ "ORDER BY year DESC, month DESC, day DESC" +:+
  Engine.nl +:+ Engine.spaces 12.


Definition query_cases_query (self : t) (sql_filter : string) : string :=
  if PyStr.startswith (PyStr.upper (PyStr.strip sql_filter)) "SELECT" then
    sql_filter
  else
    select_from 20 self +:+ Engine.spaces 20 +:+ "WHERE " +:+ sql_filter +:+
    Engine.nl +:+ Engine.spaces 16.


End DuckDBReader.

(* ================================================================== *)
(** ** Vocabulary of the specification *)
(* ================================================================== *)

(** Definitions that follow the words of the specification, to be
    compared with what the sources compute. *)
Module Spec.

(** The decimal digit of a number below ten. *)
Definition digit (n : Z) : ascii := ascii_of_N (48 + Z.to_N n).

(** Two-digit, zero-padded. *)
Definition two_digits (n : Z) : string :=
  String (digit (n / 10)) (String (digit (n mod 10)) EmptyString).

Definition four_digits (n : Z) : string :=
  String (digit (n / 1000)) (String (digit (n / 100 mod 10))
    (two_digits (n mod 100))).

(** [<base>/year=<Y>/month=<MM>/day=<DD>] *)
Definition hive_dir (base : Path) (D : datetime) : Path :=
  base ++ ["year=" +:+ PyStr.str_int (Datetime.year D);
           "month=" +:+ two_digits (Datetime.month D);
           "day=" +:+ two_digits (Datetime.day D)].

Definition YYYYMMDD (D : datetime) : string :=
  four_digits (Datetime.year D) +:+ two_digits (Datetime.month D)
    +:+ two_digits (Datetime.day D).

(** [case_history_<YYYYMMDD>.parquet] *)
Definition partition_file_name (D : datetime) : string :=
  "case_history_" +:+ YYYYMMDD D +:+ ".parquet".







End Spec.

(** Every character of a string satisfies a test. *)
Fixpoint all_chars (P : ascii -> bool) (s : string) : bool :=
  match s with
  | EmptyString => true
  | String c s' => P c && all_chars P s'
  end.

(** The characters of a printed integer. *)
Definition is_dec_char (c : ascii) : bool :=
  let n := PyStr.code c in
  ((48 <=? n)%N && (n <=? 57)%N) || (n =? 45)%N.

Definition not_slash (c : ascii) : bool := negb (Ascii.eqb c "/").


(** At most one connection is open, and it is the one the adapter
    holds. *)
Definition one_connection (w : World) : Prop :=
  Engine.live (engine w) =
  match DuckDBAdapter.conn (adapter w) with
  | Some c => [c]
  | None => []
  end.

(** The number of connections opened so far. *)
Definition is_connect (c : Engine.call) : bool :=
  match c with
  | Engine.CConnect _ _ => true
  | _ => false
  end.

Definition connects (w : World) : nat :=
  List.length (List.filter is_connect (Engine.calls (engine w))).

(** The empty engine, whose other statements all fail. *)
Definition fresh_engine (rows : list Engine.prow) : Engine.t :=
  Engine.mk ∅ rows [] 0 []
    (fun _ _ _ _ => Engine.Failed "not modelled")
    (fun _ _ => Engine.Failed "not modelled").


(** The connection the adapter holds once it has connected. *)
Definition entered (w : World) : DuckDBPyConnection :=
  match DuckDBAdapter.conn (adapter w) with
  | Some c => c
  | None => Engine.Handle (Engine.next_id (engine w))
  end.

(** What connecting asks of the engine: nothing when a connection is
    held, else the opening and the two settings. *)
Definition opening (w : World) : list Engine.call :=
  match DuckDBAdapter.conn (adapter w) with
  | Some _ => []
  | None =>
      let c := Engine.Handle (Engine.next_id (engine w)) in
      [Engine.CConnect (PurePath.to_str (DuckDBAdapter.db_path (adapter w))) c;
       Engine.CExecute c
         (Engine.SetMemoryLimit (DuckDBAdapter.memory_limit (adapter w))) None;
       Engine.CExecute c
         (Engine.SetThreads (DuckDBAdapter.threads (adapter w))) None]
  end.


(** What the connection invariants look at: the handle the adapter
    holds, the open connections, the number of connections opened. *)
Definition conn_view (w : World)
    : option DuckDBPyConnection * list DuckDBPyConnection * nat :=
  (DuckDBAdapter.conn (adapter w), Engine.live (engine w), connects w).

(** A command keeps a property of the view; a command leaves the view
    alone. *)
Definition keeps {A : Type}
    (P : option DuckDBPyConnection * list DuckDBPyConnection * nat -> Prop)
    (m : Cmd A) : Prop :=
  forall w, P (conn_view w) -> P (conn_view (fst (m w))).

Definition stable {A : Type} (m : Cmd A) : Prop :=
  forall w, conn_view (fst (m w)) = conn_view w.

(** The live connections are the one the adapter holds, if any. *)
Definition held_only
    (v : option DuckDBPyConnection * list DuckDBPyConnection * nat) : Prop :=
  v.1.2 = match v.1.1 with Some c => [c] | None => [] end.

(** The adapter holds [c], [c] alone is live, [n] connections were opened. *)
Definition holding (c : DuckDBPyConnection) (n : nat)
    (v : option DuckDBPyConnection * list DuckDBPyConnection * nat) : Prop :=
  v = (Some c, [c], n).

(** A sequence of operations on one adapter, whatever each returns. *)
Definition run_all (ops : list Adapter.op) (w : World) : World :=
  fold_left (fun w o => fst (Adapter.run o w)) ops w.

(** A world with a newly built adapter and no connection open. *)
Definition new_world (a : DuckDBAdapter.t) (rows : list Engine.prow) : World :=
  mkWorld a (fresh_engine rows) (FS.mkOS ∅ []).

(** A test holds of each of the 256 characters. *)
Definition all_ascii (f : ascii -> bool) : bool :=
  forallb (fun n => f (ascii_of_nat n)) (seq 0 256).





(* ================================================================== *)
(** ** More of the adapter and the Reader *)
(* ================================================================== *)





(* ================================================================== *)
(** ** More of the Loader and the path helpers *)
(* ================================================================== *)

(** Two datetimes of the same calendar day. *)
Definition same_day (a b : datetime) : Prop :=
  Datetime.year a = Datetime.year b /\
  Datetime.month a = Datetime.month b /\
  Datetime.day a = Datetime.day b.

(** [_save_to_parquet] got past the write: it returned, or only the
    report after the write raised. *)
Definition wrote (r : result Path) : Prop :=
  match r with
  | Ok _ | Raise (ValueError _) => True
  | Raise _ => False
  end.

(** The time of day of a datetime, and the order of two of them. *)
Definition time_of_day (d : datetime) : list Z :=
  [Datetime.hour d; Datetime.minute d; Datetime.second d;
   Datetime.microsecond d].

Definition time_le (a b : datetime) : bool :=
  Datetime.lex_le (time_of_day a) (time_of_day b).

(** [d], the day after, and so on: [n] days, each at the time of day
    of [d]. *)
Fixpoint days_from (n : nat) (d : datetime) : list datetime :=
  match n with
  | O => []
  | S k =>
      d :: match Datetime.add_one_day d with
           | Some d' => days_from k d'
           | None => []
           end
  end.

(** The number of days from [start_date] on that are not after
    [end_date]: the day of [end_date] counts only when the time of day
    of [start_date] is not after that of [end_date]. *)
Definition days_visited (start_date end_date : datetime) : nat :=
  Z.to_nat (Datetime.toordinal end_date - Datetime.toordinal start_date
            + (if time_le start_date end_date then 1 else 0)).

(* ================================================================== *)
(** ** [ParquetLoader.get_data_summary]: the partition values of a path *)
(* ================================================================== *)

Module DataSummary.

(** [s.split(sep)] for a separator of one character. *)
Fixpoint split_at (sep : ascii) (cur : string) (s : string) : list string :=
  match s with
  | EmptyString => [String.rev cur]
  | String c s' =>
      if Ascii.eqb c sep then String.rev cur :: split_at sep EmptyString s'
      else split_at sep (String c cur) s'
  end.

Definition split (s : string) (sep : ascii) : list string :=
  split_at sep EmptyString s.

(** [part.split('=')[1]] *)
Definition value_of (part : string) : result string :=
  match split part "=" with
  | _ :: v :: _ => Ok v
  | _ => Raise IndexError
  end.

(** [year], [month], [day]: [None] until a part sets them. *)
Record values : Type := mkValues {
  year : option string;
  month : option string;
  day : option string
}.

(** The body of [for part in parts]. *)
Definition scan (acc : values) (part : string) : result values :=
  if PyStr.startswith part "year=" then
    match value_of part with
    | Ok v => Ok (mkValues (Some v) (month acc) (day acc))
    | Raise e => Raise e
    end
  else if PyStr.startswith part "month=" then
    match value_of part with
    | Ok v => Ok (mkValues (year acc) (Some v) (day acc))
    | Raise e => Raise e
    end
  else if PyStr.startswith part "day=" then
    match value_of part with
    | Ok v => Ok (mkValues (year acc) (month acc) (Some v))
    | Raise e => Raise e
    end
  else Ok acc.

Fixpoint scan_parts (acc : values) (parts : list string) : result values :=
  match parts with
  | [] => Ok acc
  | part :: rest =>
      match scan acc part with
      | Ok acc' => scan_parts acc' rest
      | Raise e => Raise e
      end
  end.

(** [year = month = day = None], then the loop over [file_path.parts]. *)
Definition partition_values (file_path : Path) : result values :=
  scan_parts (mkValues None None None) file_path.

End DataSummary.

(** A character other than the equals sign. *)
Definition not_equals_sign (c : ascii) : bool := negb (Ascii.eqb c "=").


(* ================================================================== *)
(** ** [ParquetLoader.load_from_csv] and [load_from_excel] *)
(* ================================================================== *)

(** [pandas] and the clock are outside the repository: the reader of a
    source file ([pd.read_csv(path, **pandas_kwargs)],
    [pd.read_excel(path, sheet_name=..., **pandas_kwargs)]) and the value
    of [datetime.now()] are arguments of the model. *)
Module LoaderSources.






End LoaderSources.


(* ================================================================== *)
(** ** [scripts/setup_project.py] *)
(* ================================================================== *)

Module SetupProject.

(** A text file is kept as a frame of one cell, an empty file as the
    empty frame. *)
Definition text_file (content : string) : FS.node :=
  FS.File [[PStr content]].

Definition empty_file : FS.node := FS.File [].

(** What opening a file for writing asks of its directory. *)
Definition check_parent (p : Path) (os : OS) : result unit :=
  match PurePath.parent p with
  | [] => Ok tt
  | dir =>
      match FS.files os !! dir with
      | Some FS.Dir => Ok tt
      | Some (FS.File _) => Raise NotADirectoryError
      | None => Raise (FileNotFoundError "No such file or directory")
      end
  end.

(** [p.touch(exist_ok=True)] *)
Definition touch (p : Path) : M OS unit :=
  fun os =>
    match FS.files os !! p with
    | Some _ => (os, Ok tt)
    | None =>
        match check_parent p os with
        | Ok _ => (FS.mkOS (<[p := empty_file]> (FS.files os)) (FS.cwd os), Ok tt)
        | Raise e => (os, Raise e)
        end
    end.

(** [p.write_text(content, encoding="utf-8")] *)
Definition write_text (p : Path) (content : string) : M OS unit :=
  fun os =>
    match FS.files os !! p with
    | Some FS.Dir => (os, Raise IsADirectoryError)
    | _ =>
        match check_parent p os with
        | Ok _ =>
            (FS.mkOS (<[p := text_file content]> (FS.files os)) (FS.cwd os),
             Ok tt)
        | Raise e => (os, Raise e)
        end
    end.

(** [for x in l: f(x)] *)
Fixpoint for_each {A : Type} (f : A -> M OS unit) (l : list A) : M OS unit :=
  match l with
  | [] => ret tt
  | x :: rest => f x ;;; for_each f rest
  end.

(** The list [base_folders]; the source has no comma between ["tests"]
    and ["sql/queries"], and adjacent string literals are one string. *)
Definition base_folders : list string :=
  ["data/staging";
   "data/warehouse";
   "src/config";
   "src/extraction";
   "src/transformation";
   "src/reporting";
   "tests" +:+ "sql/queries";
   "scripts";
   "backups";
   "logs"].

Definition init_files : list string :=
  ["src/__init__.py";
   "src/config/__init__.py";
   "src/extraction/__init__.py";
   "src/transformation/__init__.py";
   "src/reporting/__init__.py"].

(** The two long texts the script writes, [.gitignore] and [README.md]
    (which ends with the date), are arguments, and so is the value of
    [datetime.now()]. *)
Definition create_project_structure (gitignore_content : string)
    (readme_content : datetime -> string) (now : datetime) : M OS unit :=
  os <- get ;;
  let base_path := FS.cwd os in
  for_each (fun folder => FS.mkdir_parents (base_path /: folder))
    base_folders ;;;
  let current_date := now in
  let raw_example_path :=
    base_path /: "data" /: "raw" /: "case_history"
      /: PyStr.str_int (Datetime.year current_date)
      /: PyStr.format_0d 2 (Datetime.month current_date)
      /: PyStr.format_0d 2 (Datetime.day current_date) in
  FS.mkdir_parents raw_example_path ;;;
  match PurePath.relative_to raw_example_path base_path with
  | Raise e => raise e
  | Ok _ => ret tt
  end ;;;
  for_each (fun init_file => touch (base_path /: init_file)) init_files ;;;
  let gitignore_path := base_path /: ".gitignore" in
  os1 <- get ;;
  (if FS.path_exists gitignore_path os1 then ret tt
   else write_text gitignore_path gitignore_content) ;;;
  let readme_path := base_path /: "README.md" in
  os2 <- get ;;
  (if FS.path_exists readme_path os2 then ret tt
   else write_text readme_path (readme_content current_date)) ;;;
  ret tt.

(** The names right under the working directory that the script makes
    or writes. *)
Definition top_level : list string :=
  ["data"; "src"; "testssql"; "scripts"; "backups"; "logs"; ".gitignore";
   "README.md"].

End SetupProject.

(** A command leaves the entry at [q] as it is; a command leaves every
    entry that exists as it is. *)
Definition keeps_entry {A : Type} (q : Path) (m : M OS A) : Prop :=
  forall os, FS.files (fst (m os)) !! q = FS.files os !! q.

Definition keeps_entries {A : Type} (m : M OS A) : Prop :=
  forall os q x,
    FS.files os !! q = Some x -> FS.files (fst (m os)) !! q = Some x.


(* ================================================================== *)
(** ** [files_utils.list_all_raw_files]: the listing and its order *)
(* ================================================================== *)

Module RawFiles.

(** [a ?= b] on two paths: the comparison of the tuples of their parts,
    each part compared as [str], character by character. *)
Fixpoint path_compare (p q : Path) : comparison :=
  match p, q with
  | [], [] => Eq
  | [], _ :: _ => Lt
  | _ :: _, [] => Gt
  | a :: p', b :: q' =>
      match String.compare a b with
      | Eq => path_compare p' q'
      | c => c
      end
  end.

(** [p < q], [p <= q] *)
Definition path_ltb (p q : Path) : bool :=
  match path_compare p q with
  | Lt => true
  | _ => false
  end.

Definition path_leb (p q : Path) : bool :=
  match path_compare p q with
  | Gt => false
  | _ => true
  end.

(** [sorted(l)] *)
Fixpoint insert_sorted (p : Path) (l : list Path) : list Path :=
  match l with
  | [] => [p]
  | q :: l' => if path_leb p q then p :: l else q :: insert_sorted p l'
  end.

Definition sorted (l : list Path) : list Path :=
  foldr insert_sorted [] l.

(** [fnmatch(name, "*" + suffix)] *)
Fixpoint ends_with (s suffix : string) : bool :=
  String.eqb s suffix ||
  match s with
  | EmptyString => false
  | String _ s' => ends_with s' suffix
  end.

(** [p.name] *)
Definition name (p : Path) : string := List.last p EmptyString.

(** A directory, the working directory being one. *)
Definition is_dir (os : OS) (p : Path) : bool :=
  match p with
  | [] => true
  | _ =>
      match FS.files os !! p with
      | Some FS.Dir => true
      | _ => false
      end
  end.

(** [q] is reached by walking down from [base]: [base] and every
    directory between [base] and [q] is a directory. *)
Definition walked (os : OS) (base q : Path) : bool :=
  forallb (fun k => is_dir os (take k q))
    (seq (length base) (length q - length base)).

(** [base.rglob("*.parquet")], in no particular order: what lies below
    [base], files and directories alike, under a name that matches. *)
Definition rglob_parquet (base : Path) (os : OS) : list Path :=
  List.filter
    (fun q => PurePath.is_prefix base q
              && (length base <? length q)%nat
              && ends_with (name q) ".parquet"
              && walked os base q)
    (List.map fst (map_to_list (FS.files os))).

Definition list_all_raw_files (os : OS) : list Path :=
  let parquet_files := rglob_parquet Config.RAW_DATA_PATH os in
  sorted parquet_files.

End RawFiles.

(** An earlier calendar day. *)
Definition day_before (a b : datetime) : Prop :=
  Datetime.year a < Datetime.year b \/
  (Datetime.year a = Datetime.year b /\
   (Datetime.month a < Datetime.month b \/
    (Datetime.month a = Datetime.month b /\ Datetime.day a < Datetime.day b))).

(** A list of paths in order: each is at most those after it. *)
Fixpoint in_order (l : list Path) : Prop :=
  match l with
  | [] => True
  | x :: l' => Forall (fun y => RawFiles.path_leb x y = true) l' /\ in_order l'
  end.

(** [p] comes before [q] in a list. *)
Definition comes_before (p q : Path) (l : list Path) : Prop :=
  exists l1 l2 l3, l = l1 ++ p :: l2 ++ q :: l3.

(* ================================================================== *)
(** * Properties *)
(* ================================================================== *)

(* ------------------------------------------------------------------ *)
(** ** Characters of strings, and single path components *)
(* ------------------------------------------------------------------ *)

Section Strings.

Lemma all_chars_app P s1 s2 :
  all_chars P (s1 +:+ s2) = all_chars P s1 && all_chars P s2.
Proof.
  induction s1 as [|c s1 IH]; simpl; [done|]. by rewrite IH, andb_assoc.
Qed.

Lemma all_chars_impl (P Q : ascii -> bool) s :
  (forall c, P c = true -> Q c = true) ->
  all_chars P s = true -> all_chars Q s = true.
Proof.
  intros HPQ. induction s as [|c s IH]; simpl; [done|].
  rewrite !andb_true_iff. intros [H1 H2]. auto.
Qed.

Lemma string_of_uint_dec d :
  all_chars is_dec_char (NilEmpty.string_of_uint d) = true.
Proof. induction d; simpl; auto. Qed.

Lemma str_int_dec z : all_chars is_dec_char (PyStr.str_int z) = true.
Proof.
  unfold PyStr.str_int.
  destruct (Z.to_int z) as [d|d]; destruct d; simpl;
    auto using string_of_uint_dec.
Qed.

Lemma zeros_dec n : all_chars is_dec_char (PyStr.zeros n) = true.
Proof. induction n; simpl; auto. Qed.

Lemma format_0d_dec w z : all_chars is_dec_char (PyStr.format_0d w z) = true.
Proof.
  unfold PyStr.format_0d. rewrite !all_chars_app, zeros_dec, str_int_dec.
  by destruct (z <? 0).
Qed.

Lemma strftime_Ymd_dec D :
  all_chars is_dec_char (Datetime.strftime_Ymd D) = true.
Proof.
  unfold Datetime.strftime_Ymd. by rewrite !all_chars_app, !format_0d_dec.
Qed.

Lemma dec_not_slash c : is_dec_char c = true -> not_slash c = true.
Proof.
  unfold not_slash. destruct (Ascii.eqb_spec c "/") as [->|]; [|done].
  by vm_compute.
Qed.


End Strings.

Section PathComponents.

Lemma split_slash_no_slash cur s :
  all_chars not_slash s = true ->
  PurePath.split_slash cur s = [String.rev_app cur s].
Proof.
  revert cur. induction s as [|c s IH]; intros cur; simpl; [done|].
  rewrite andb_true_iff. unfold not_slash at 1. intros [Hc Hs].
  destruct (Ascii.eqb c "/"); [done|]. by rewrite IH.
Qed.

Lemma is_absolute_cons c s :
  PurePath.is_absolute_str (String c s) = Ascii.eqb c "/".
Proof.
  unfold PurePath.is_absolute_str; cbn [PyStr.startswith].
  by destruct (Ascii.eqb c "/").
Qed.

Lemma not_slash_head c s :
  all_chars not_slash (String c s) = true -> Ascii.eqb c "/" = false.
Proof.
  simpl. rewrite andb_true_iff. unfold not_slash. intros [Hc _].
  by destruct (Ascii.eqb c "/").
Qed.

(** A single component: no separator, not empty, not the dot. *)
Lemma of_str_single c s :
  all_chars not_slash (String c s) = true ->
  String c s <> "." ->
  PurePath.of_str (String c s) = [String c s].
Proof.
  intros Hs Hdot. unfold PurePath.of_str.
  rewrite is_absolute_cons, (not_slash_head _ _ Hs), split_slash_no_slash by done.
  cbn [app List.filter String.rev_app]. unfold PurePath.keep_part.
  destruct (String.eqb_spec (String c s) "") as [|_]; [done|].
  by destruct (String.eqb_spec (String c s) ".") as [|_].
Qed.

Lemma joinpath_single p c s :
  all_chars not_slash (String c s) = true ->
  String c s <> "." ->
  p /: String c s = p ++ [String c s].
Proof.
  intros Hs Hdot. unfold PurePath.joinpath.
  by rewrite is_absolute_cons, (not_slash_head _ _ Hs), of_str_single.
Qed.

(** A literal of two characters or more, a printed number, a literal. *)
Lemma joinpath_filename p pre x suf :
  all_chars not_slash pre = true ->
  (2 <= String.length pre)%nat ->
  all_chars is_dec_char x = true ->
  all_chars not_slash suf = true ->
  p /: (pre +:+ x +:+ suf) = p ++ [pre +:+ x +:+ suf].
Proof.
  intros Hpre Hlen Hx Hsuf.
  destruct pre as [|a [|b pre]]; simpl in Hlen; [lia..|].
  change (p /: String a (String b (pre +:+ x +:+ suf))
          = p ++ [String a (String b (pre +:+ x +:+ suf))]).
  apply joinpath_single; [|done].
  change (all_chars not_slash (String a (String b pre) +:+ x +:+ suf) = true).
  rewrite !all_chars_app, Hpre, Hsuf, andb_true_r. simpl.
  eapply all_chars_impl; [apply dec_not_slash|done].
Qed.

Lemma joinpath_component p pre x :
  all_chars not_slash pre = true ->
  (2 <= String.length pre)%nat ->
  all_chars is_dec_char x = true ->
  p /: (pre +:+ x) = p ++ [pre +:+ x].
Proof.
  intros Hpre Hlen Hx.
  destruct pre as [|a [|b pre]]; simpl in Hlen; [lia..|].
  change (p /: String a (String b (pre +:+ x))
          = p ++ [String a (String b (pre +:+ x))]).
  apply joinpath_single; [|done].
  change (all_chars not_slash (String a (String b pre) +:+ x) = true).
  rewrite all_chars_app, Hpre. simpl.
  eapply all_chars_impl; [apply dec_not_slash|done].
Qed.

End PathComponents.

(* ------------------------------------------------------------------ *)
(** ** Zero-padded numbers *)
(* ------------------------------------------------------------------ *)

Section Digits.

Lemma forallb_range (P : Z -> bool) (lo len : Z) :
  forallb P (List.map (fun k => lo + Z.of_nat k) (seq 0 (Z.to_nat len))) = true ->
  forall n, lo <= n < lo + len -> P n = true.
Proof.
  rewrite forallb_forall. intros H n Hn. apply H.
  apply in_map_iff. exists (Z.to_nat (n - lo)). split; [lia|].
  apply in_seq. lia.
Qed.

Lemma format_0d_two_digits n :
  0 <= n < 100 -> PyStr.format_0d 2 n = Spec.two_digits n.
Proof.
  intros Hn. apply String.eqb_eq.
  apply (forallb_range
    (fun n => String.eqb (PyStr.format_0d 2 n) (Spec.two_digits n)) 0 100);
    [by vm_compute | lia].
Qed.

Lemma format_0d_four_digits n :
  0 <= n < 10000 -> PyStr.format_0d 4 n = Spec.four_digits n.
Proof.
  intros Hn. apply String.eqb_eq.
  apply (forallb_range
    (fun n => String.eqb (PyStr.format_0d 4 n) (Spec.four_digits n)) 0 10000);
    [by vm_compute | lia].
Qed.

Lemma days_in_month_le_31 y m : Datetime.days_in_month y m <= 31.
Proof. unfold Datetime.days_in_month. repeat case_match; lia. Qed.

Lemma days_in_month_ge_28 y m : 28 <= Datetime.days_in_month y m.
Proof. unfold Datetime.days_in_month. repeat case_match; lia. Qed.

End Digits.

(* ------------------------------------------------------------------ *)
(** ** The Loader's layout *)
(* ------------------------------------------------------------------ *)

Section Loader.

Lemma mkdir_from_frame done_ todo fs fs' q :
  FS.mkdir_from done_ todo fs = Ok fs' ->
  (List.length done_ + List.length todo < List.length q)%nat ->
  fs' !! q = fs !! q.
Proof.
  revert done_ fs. induction todo as [|part rest IH]; intros done_ fs; simpl.
  - by intros [= ->].
  - intros Hmk Hlen.
    destruct (fs !! (done_ ++ [part])) as [[|c]|] eqn:E; [|done|].
    + eapply IH; [done|]. rewrite length_app. simpl. lia.
    + erewrite IH; [|done|rewrite length_app; simpl; lia].
      apply lookup_insert_ne. intros <-.
      rewrite length_app in Hlen. simpl in Hlen. lia.
Qed.

Lemma mkdir_from_ok done_ todo fs :
  (forall q c, fs !! q = Some (FS.File c) -> ~ q `prefix_of` done_ ++ todo) ->
  exists fs', FS.mkdir_from done_ todo fs = Ok fs'.
Proof.
  revert done_ fs. induction todo as [|part rest IH]; intros done_ fs Hfree; simpl.
  - by eexists.
  - destruct (fs !! (done_ ++ [part])) as [[|c]|] eqn:E.
    + apply IH. intros q c' Hq. rewrite <- app_assoc. by eapply Hfree.
    + exfalso. apply (Hfree _ _ E). exists rest. by rewrite <- app_assoc.
    + apply IH. intros q c Hq. rewrite <- app_assoc. simpl.
      destruct (decide (done_ ++ [part] = q)) as [<-|Hne].
      * by rewrite lookup_insert_eq in Hq.
      * rewrite lookup_insert_ne in Hq by done. by eapply Hfree.
Qed.

Lemma mkdir_from_raises done_ todo fs e :
  FS.mkdir_from done_ todo fs = Raise e ->
  e = FileExistsError \/ e = NotADirectoryError.
Proof.
  revert done_ fs. induction todo as [|part rest IH]; intros done_ fs; simpl; [done|].
  destruct (fs !! (done_ ++ [part])) as [[|c]|]; eauto.
  destruct rest; intros [= <-]; auto.
Qed.

Lemma hive_partition_path_spec self D :
  Datetime.valid D ->
  ParquetLoader._get_hive_partition_path self D
  = Spec.hive_dir (ParquetLoader.base_path self) D.
Proof.
  intros (_ & Hm & Hd & _).
  pose proof (days_in_month_le_31 (Datetime.year D) (Datetime.month D)).
  unfold ParquetLoader._get_hive_partition_path, Spec.hive_dir.
  rewrite !joinpath_component;
    auto using str_int_dec, format_0d_dec; try (simpl; lia).
  rewrite !format_0d_two_digits by lia. by rewrite <- !app_assoc.
Qed.

Lemma filename_for_spec D :
  Datetime.valid D ->
  ParquetLoader.filename_for D = Spec.partition_file_name D.
Proof.
  intros (Hy & Hm & Hd & _).
  pose proof (days_in_month_le_31 (Datetime.year D) (Datetime.month D)).
  unfold ParquetLoader.filename_for, Spec.partition_file_name,
    Datetime.strftime_Ymd, Spec.YYYYMMDD, Datetime.MINYEAR, Datetime.MAXYEAR in *.
  by rewrite format_0d_four_digits, !format_0d_two_digits by lia.
Qed.

Lemma output_path_for_last self D :
  ParquetLoader.output_path_for self D
  = ParquetLoader._get_hive_partition_path self D ++ [ParquetLoader.filename_for D].
Proof.
  apply joinpath_filename; auto using strftime_Ymd_dec. simpl; lia.
Qed.

Lemma get_raw_file_path_last D :
  Config.get_raw_file_path D
  = Config.get_raw_data_path D
      ++ ["casos_rrhh_" +:+ Datetime.strftime_Ymd D +:+ ".parquet"].
Proof.
  apply joinpath_filename; auto using strftime_Ymd_dec. simpl; lia.
Qed.

Lemma raw_file_path_is_no_output_path self D D' :
  Config.get_raw_file_path D' <> ParquetLoader.output_path_for self D.
Proof.
  rewrite get_raw_file_path_last, output_path_for_last.
  intros H. apply app_inj_tail in H as [_ H]. discriminate H.
Qed.

Lemma range_loop_found fuel os current end_date files found p :
  FileUtils.range_loop fuel os current end_date files = Some (Ok found) ->
  p ∈ found ->
  p ∈ files \/ exists D, p = Config.get_raw_file_path D.
Proof.
  revert current files. induction fuel as [|fuel IH]; intros current files; simpl; [done|].
  destruct (Datetime.le current end_date); [|intros [= ->]; auto].
  destruct (Datetime.add_one_day current) as [next|]; [|done].
  intros Hloop Hp. destruct (IH _ _ Hloop Hp) as [Hin|]; [|auto].
  destruct (FS.path_exists _ os); [|auto].
  apply elem_of_app in Hin as [|Hin]; [auto|].
  apply list_elem_of_singleton in Hin. eauto.
Qed.

End Loader.



(** C1.  The discovery does not look where the Loader writes.  For every
    date the path [get_raw_file_path] builds,
    [<raw>/<YYYY>/<MM>/<DD>/casos_rrhh_<YYYYMMDD>.parquet], differs from
    every output path of the Loader, so no file the Loader writes is ever
    returned by [list_raw_files_in_range], whatever the range.  At
    11 February 2025, with the default base and an empty tree: the Loader
    writes its file, and the discovery over that one day returns the
    empty list. *)
Theorem list_raw_files_in_range_misses_loader_output :
  (forall (self : ParquetLoader.t) (D D' : datetime),
     Config.get_raw_file_path D' <> ParquetLoader.output_path_for self D) /\
  (forall (self : ParquetLoader.t) (df : DataFrame) (D : datetime) (os : OS)
          (start_date end_date : datetime) (found : list Path),
     FileUtils.list_raw_files_in_range start_date end_date
       (fst (ParquetLoader._save_to_parquet self df D os)) = Some (Ok found) ->
     ParquetLoader.output_path_for self D ∉ found) /\
  (let D := Datetime.date 2025 2 11 in
   let self := ParquetLoader.__init__ None in
   let os' := fst (ParquetLoader._save_to_parquet self [[PInt 1]] D
                     (FS.mkOS ∅ ["/"; "srv"; "dwh"])) in
   ParquetLoader.output_path_for self D
   = ["data"; "raw"; "case_history"; "year=2025"; "month=02"; "day=11";
      "case_history_20250211.parquet"] /\
   FS.files os' !! ParquetLoader.output_path_for self D
   = Some (FS.File [[PInt 1]]) /\
   Config.get_raw_file_path D
   = ["data"; "raw"; "case_history"; "2025"; "02"; "11";
      "casos_rrhh_20250211.parquet"] /\
   FileUtils.list_raw_files_in_range D D os' = Some (Ok [])).
Proof.
  split; [|split].
  - intros. apply raw_file_path_is_no_output_path.
  - intros self df D os start_date end_date found Hfound Hin.
    destruct (range_loop_found _ _ _ _ _ _ _ Hfound Hin) as [Hnil|[D' HD']].
    + by apply elem_of_nil in Hnil.
    + by apply (raw_file_path_is_no_output_path self D D').
  - by vm_compute.
Qed.
Section Calendar.
Import Datetime.

Lemma month_cases m :
  1 <= m <= 12 ->
  m = 1 \/ m = 2 \/ m = 3 \/ m = 4 \/ m = 5 \/ m = 6 \/
  m = 7 \/ m = 8 \/ m = 9 \/ m = 10 \/ m = 11 \/ m = 12.
Proof. lia. Qed.

Lemma is_leap_spec y :
  is_leap y = true <-> (y mod 4 = 0 /\ (y mod 100 <> 0 \/ y mod 400 = 0)).
Proof.
  unfold is_leap.
  rewrite andb_true_iff, orb_true_iff, negb_true_iff, !Z.eqb_eq, Z.eqb_neq.
  done.
Qed.

(** A year has 365 days, and one more when it is a leap year. *)
Lemma days_before_next_year y :
  days_before_year (y + 1)
  = days_before_year y + (if is_leap y then 366 else 365).
Proof.
  unfold days_before_year.
  destruct (is_leap y) eqn:E.
  - apply is_leap_spec in E. replace (y + 1 - 1) with y by lia.
    Z.div_mod_to_equations. lia.
  - assert (~ (y mod 4 = 0 /\ (y mod 100 <> 0 \/ y mod 400 = 0))) as N.
    { intros H. apply is_leap_spec in H. congruence. }
    replace (y + 1 - 1) with y by lia.
    Z.div_mod_to_equations. lia.
Qed.

Lemma days_before_year_mono a b :
  a <= b -> days_before_year a <= days_before_year b.
Proof.
  intros H. unfold days_before_year. Z.div_mod_to_equations. lia.
Qed.

Lemma days_before_month_next y m :
  1 <= m ->
  days_before_month y (m + 1) = days_before_month y m + days_in_month y m.
Proof.
  intros Hm. unfold days_before_month.
  replace (Z.to_nat (m + 1 - 1)) with (S (Z.to_nat (m - 1))) by lia.
  cbn [days_before_month_nat]. do 2 f_equal. lia.
Qed.

(** The table of month lengths, for a month that is known. *)
Ltac month_table y :=
  unfold days_before_month in *;
  repeat match goal with
         | |- context [Z.to_nat ?e] =>
             let v := eval vm_compute in (Z.to_nat e) in
             change (Z.to_nat e) with v
         end;
  cbv -[Z.add Z.le Z.lt is_leap] in *; destruct (is_leap y); lia.

(** The day of the year lies within the year. *)
Lemma day_of_year_bounds y m d :
  1 <= m <= 12 -> 1 <= d <= days_in_month y m ->
  1 <= days_before_month y m + d <= (if is_leap y then 366 else 365).
Proof.
  intros Hm Hd.
  destruct (month_cases m Hm) as [->|[->|[->|[->|[->|[->|[->|[->|[->|[->|[->| ->]]]]]]]]]]];
    month_table y.
Qed.

Lemma day_of_year_mono y m d m' d' :
  1 <= m <= 12 -> 1 <= m' <= 12 ->
  1 <= d <= days_in_month y m -> 1 <= d' <= days_in_month y m' ->
  m < m' ->
  days_before_month y m + d < days_before_month y m' + d'.
Proof.
  intros Hm Hm' Hd Hd' Hlt.
  destruct (month_cases m Hm) as [->|[->|[->|[->|[->|[->|[->|[->|[->|[->|[->| ->]]]]]]]]]]];
  destruct (month_cases m' Hm') as [->|[->|[->|[->|[->|[->|[->|[->|[->|[->|[->| ->]]]]]]]]]]];
    try lia; month_table y.
Qed.

Lemma lex_le_cons x a y b :
  lex_le (x :: a) (y :: b) = true -> x < y \/ (x = y /\ lex_le a b = true).
Proof.
  simpl. rewrite orb_true_iff, andb_true_iff, Z.ltb_lt, Z.eqb_eq. tauto.
Qed.


(** The next day is a day, one later. *)
Lemma add_one_day_next a b :
  valid a -> add_one_day a = Some b ->
  valid b /\ toordinal b = toordinal a + 1.
Proof.
  intros (Hy & Hm & Hd & Ht). unfold add_one_day, MINYEAR, MAXYEAR in *.
  destruct (day a <? days_in_month (year a) (month a)) eqn:E1.
  - apply Z.ltb_lt in E1. intros [= <-]. unfold valid, toordinal; simpl.
    unfold MINYEAR, MAXYEAR. repeat split; try tauto; lia.
  - apply Z.ltb_ge in E1.
    destruct (month a <? 12) eqn:E2.
    + apply Z.ltb_lt in E2. intros [= <-]. unfold valid, toordinal; simpl.
      pose proof (days_in_month_ge_28 (year a) (month a + 1)).
      rewrite days_before_month_next by lia.
      unfold MINYEAR, MAXYEAR. repeat split; try tauto; lia.
    + apply Z.ltb_ge in E2.
      destruct (year a <? 9999) eqn:E3; [|done].
      apply Z.ltb_lt in E3. intros [= <-]. unfold valid, toordinal; simpl.
      assert (month a = 12) as Hm12 by lia. rewrite Hm12 in *.
      rewrite days_before_next_year.
      unfold MINYEAR, MAXYEAR.
      change (days_in_month (year a + 1) 1) with 31.
      change (days_in_month (year a) 12) with 31 in *.
      assert (days_before_month (year a) 12
              = if is_leap (year a) then 335 else 334) as ->.
      { generalize (year a). intros y. month_table y. }
      change (days_before_month (year a + 1) 1) with 0.
      repeat split; try tauto; destruct (is_leap (year a)); lia.
Qed.



End Calendar.
Section Report.

(** An absolute working directory is no prefix of a path that does not
    start at the root. *)
Lemma is_prefix_root_relative rest base tail :
  (forall b bs, base = b :: bs -> b <> "/") ->
  (forall t ts, tail = t :: ts -> t <> "/") ->
  PurePath.is_prefix ("/" :: rest) (base ++ tail) = false.
Proof.
  intros Hb Ht. destruct base as [|b bs]; cbn [app].
  - destruct tail as [|t ts]; [done|]. cbn [PurePath.is_prefix].
    destruct (String.eqb "/" t) eqn:E; [|done].
    apply String.eqb_eq in E. exfalso. by apply (Ht _ _ eq_refl).
  - cbn [PurePath.is_prefix].
    destruct (String.eqb "/" b) eqn:E; [|done].
    apply String.eqb_eq in E. exfalso. by apply (Hb _ _ eq_refl).
Qed.

End Report.


(** X2.  With a base path that does not start at the root, as the
    default one, and the working directory an absolute path,
    [_save_to_parquet] never returns the output path: when nothing stands
    in the way of the write the file is written, and the report that
    follows raises [ValueError]. *)
Theorem save_to_parquet_relative_base_report_raises
    (self : ParquetLoader.t) (df : DataFrame) (D : datetime) (os : OS)
    (rest : Path) :
  Datetime.valid D ->
  FS.cwd os = "/" :: rest ->
  (forall b bs, ParquetLoader.base_path self = b :: bs -> b <> "/") ->
  let out := ParquetLoader.output_path_for self D in
  (forall os' p, ParquetLoader._save_to_parquet self df D os <> (os', Ok p)) /\
  ((forall q c, FS.files os !! q = Some (FS.File c) ->
      ~ q `prefix_of` ParquetLoader._get_hive_partition_path self D) ->
   FS.files os !! out <> Some FS.Dir ->
   exists os' msg,
     ParquetLoader._save_to_parquet self df D os = (os', Raise (ValueError msg)) /\
     FS.files os' !! out = Some (FS.File df)).
Proof.
  intros HD Hcwd Hrel out.
  pose proof (hive_partition_path_spec self D HD) as Hdir.
  pose proof (output_path_for_last self D) as Hout. fold out in Hout.
  assert (PurePath.is_prefix ("/" :: rest) out = false) as Hpre.
  { rewrite Hout, Hdir. unfold Spec.hive_dir. rewrite <- app_assoc.
    apply is_prefix_root_relative; [done|].
    intros t ts [= <- _]. done. }
  unfold ParquetLoader._save_to_parquet, FileUtils.ensure_path_exists,
    FS.mkdir_parents, FS.to_parquet, PurePath.relative_to, bind, get, ret, raise.
  fold out.
  destruct (FS.mkdir_from [] _ (FS.files os)) as [fs1|e] eqn:Hmk; simpl.
  - assert (fs1 !! out = FS.files os !! out) as Hframe.
    { eapply mkdir_from_frame; [done|]. rewrite Hout, length_app. simpl. lia. }
    split.
    + intros os' p. destruct (fs1 !! out) as [[|c]|] eqn:E; simpl; try done;
        rewrite Hcwd, Hpre; done.
    + intros _ Hnodir. rewrite <- Hframe in Hnodir.
      destruct (fs1 !! out) as [[|c]|] eqn:E; simpl; try done;
        rewrite Hcwd, Hpre; simpl; do 2 eexists;
        (split; [reflexivity|]); simpl; by rewrite lookup_insert_eq.
  - split; [done|].
    intros Hfree _.
    destruct (mkdir_from_ok [] _ (FS.files os) Hfree). congruence.
Qed.

(** X2 with the default base, on an empty tree, from [/srv]. *)
Lemma save_to_parquet_relative_base_report_raises_witness :
  let os := FS.mkOS ∅ ["/"; "srv"] in
  let D := Datetime.date 2025 2 11 in
  Datetime.valid D /\
  exists os' msg,
    ParquetLoader._save_to_parquet (ParquetLoader.__init__ None) [] D os
    = (os', Raise (ValueError msg)) /\
    FS.files os' !! ParquetLoader.output_path_for (ParquetLoader.__init__ None) D
    = Some (FS.File []).
Proof.
  intros os D.
  assert (Datetime.valid D) as HD by (repeat split; vm_compute; congruence).
  split; [exact HD|].
  refine (proj2 (save_to_parquet_relative_base_report_raises
                   (ParquetLoader.__init__ None) [] D os ["srv"] HD eq_refl _) _ _).
  - intros b bs [= <- _]. done.
  - intros q c Hq. subst os. simpl in Hq. by rewrite lookup_empty in Hq.
  - subst os. simpl. by rewrite lookup_empty.
Defined.

Section Tokens.

Lemma parse_int_str_int z : Engine.parse_int (PyStr.str_int z) = Some z.
Proof.
  unfold Engine.parse_int, PyStr.str_int.
  rewrite NilZero.isi.
  - simpl. by rewrite DecimalZ.of_to.
  - destruct z; simpl; try discriminate.
    intros [= H]. by apply Unsigned.to_uint_nonnil in H.
  - destruct z; simpl; try discriminate.
    intros [= H]. by apply Unsigned.to_uint_nonnil in H.
Qed.

Lemma str_int_nonempty z : PyStr.str_int z <> "".
Proof.
  intros H. pose proof (parse_int_str_int z) as P. by rewrite H in P.
Qed.






End Tokens.
Section ReaderQueries.

Import Engine.

Let self := DuckDBReader.__init__.


Lemma append_assoc (a b c : string) : (a +:+ b) +:+ c = a +:+ (b +:+ c).
Proof.
  induction a as [|x a IH]; [done|].
  change (String x ((a +:+ b) +:+ c) = String x (a +:+ (b +:+ c))).
  by rewrite IH.
Qed.







End ReaderQueries.
(* ------------------------------------------------------------------ *)
(** ** The text of the queries

    The statements the embedding renders, character by character as the
    source's string literals give them for the default raw path. *)

Example read_all_cases_text :
  DuckDBReader.read_all_cases_query DuckDBReader.__init__ = "
                SELECT * 
                FROM read_parquet('data/raw/case_history/**/*.parquet', 
                                  hive_partitioning = true)
            ".
Proof. reflexivity. Qed.

Example read_cases_by_date_text :
  DuckDBReader.read_cases_by_date_query DuckDBReader.__init__ 2025 (Some 2) None = "
                SELECT * 
                FROM read_parquet('data/raw/case_history/**/*.parquet', 
                                  hive_partitioning = true)
                WHERE year = 2025 AND month = 2
            ".
Proof. reflexivity. Qed.

Example read_cases_by_date_negative_day_text :
  DuckDBReader.read_cases_by_date_query DuckDBReader.__init__ 2025 (Some 2) (Some (-11)) = "
                SELECT * 
                FROM read_parquet('data/raw/case_history/**/*.parquet', 
                                  hive_partitioning = true)
                WHERE year = 2025 AND month = 2 AND day = -11
            ".
Proof. reflexivity. Qed.

Example read_cases_by_date_range_text :
  DuckDBReader.read_cases_by_date_range_query DuckDBReader.__init__ (Datetime.date 2024 12 5) (Datetime.date 2025 1 7) = "
                SELECT * 
                FROM read_parquet('data/raw/case_history/**/*.parquet', 
                                  hive_partitioning = true)
                WHERE year >= 2024 
                  AND year <= 2025
                  AND month >= 12
                  AND month <= 1
            ".
Proof. reflexivity. Qed.

Example get_partition_stats_text :
  DuckDBReader.get_partition_stats_query DuckDBReader.__init__ = "
                SELECT 
                    year,
                    month,
                    day,
                    COUNT(*) as case_count,
                    COUNT(DISTINCT CASE_ID) as unique_cases
                FROM read_parquet('data/raw/case_history/**/*.parquet', 
                                  hive_partitioning = true)
                GROUP BY year, month, day
                ORDER BY year DESC, month DESC, day DESC
            ".
Proof. reflexivity. Qed.

Example query_cases_where_text :
  DuckDBReader.query_cases_query DuckDBReader.__init__ "STATUS = 'Resolved'" = "
                    SELECT * 
                    FROM read_parquet('data/raw/case_history/**/*.parquet', 
                                      hive_partitioning = true)
                    WHERE STATUS = 'Resolved'
                ".
Proof. reflexivity. Qed.

Example query_cases_select_text :
  DuckDBReader.query_cases_query DuckDBReader.__init__ "  select 1" = "  select 1".
Proof. reflexivity. Qed.

Example table_exists_text :
  Engine.sql_text Engine.CountTablesNamed = "
            SELECT COUNT(*) 
            FROM information_schema.tables 
            WHERE table_name = ?
        ".
Proof. reflexivity. Qed.

Ltac live_true :=
  repeat first
    [ progress simpl
    | rewrite bool_decide_eq_true_2
        by (first [done | apply list_elem_of_singleton; done | set_solver])
    | rewrite bool_decide_eq_false_2 by (first [done | set_solver]) ].



Section AdapterRuns.
Import DuckDBAdapter.

End AdapterRuns.
Section Invariants.
Import DuckDBAdapter.

Variable P : option DuckDBPyConnection * list DuckDBPyConnection * nat -> Prop.

Lemma stable_keeps {A} (m : Cmd A) : stable m -> keeps P m.
Proof. intros H w Hw. by rewrite H. Qed.

Lemma keeps_ret {A} (a : A) : keeps P (ret a).
Proof. by intros w Hw. Qed.

Lemma keeps_raise {A} e : keeps P (@raise World A e).
Proof. by intros w Hw. Qed.

Lemma keeps_bind {A B} (m : Cmd A) (k : A -> Cmd B) :
  keeps P m -> (forall a, keeps P (k a)) -> keeps P (bind m k).
Proof.
  intros Hm Hk w Hw. unfold bind. specialize (Hm w Hw).
  destruct (m w) as [w1 [a|e]]; simpl in *; [by apply Hk|done].
Qed.

Lemma keeps_get_bind {A} (k : World -> Cmd A) :
  (forall w, P (conn_view w) -> P (conn_view (fst (k w w)))) ->
  keeps P (bind get k).
Proof. intros H w Hw. unfold bind, get. by apply H. Qed.

Lemma keeps_get_any {A} (k : World -> Cmd A) :
  (forall w0, keeps P (k w0)) -> keeps P (bind get k).
Proof. intros H. apply keeps_get_bind. intros w Hw. by apply H. Qed.

Lemma connects_record c w :
  is_connect c = false ->
  connects (on_engine (Engine.record c) w) = connects w.
Proof.
  intros Hc. unfold connects. destruct w as [a [tb ds lv nx cs o1 o2] o]; simpl.
  rewrite List.filter_app. simpl. rewrite Hc. by rewrite app_nil_r.
Qed.

Lemma stable_execute c q params : stable (Conn.execute c q params).
Proof.
  intros w. unfold Conn.execute, conn_view.
  destruct w as [a [tb ds lv nx cs o1 o2] o]; simpl.
  destruct (Engine.is_live _ _); simpl.
  - destruct (Engine.exec_sql _ _ _ _) as [[[tb' o'] rel]|msg]; simpl;
      unfold connects; simpl; rewrite List.filter_app; simpl;
      by rewrite app_nil_r.
  - unfold connects; simpl; rewrite List.filter_app; simpl; by rewrite app_nil_r.
Qed.

Lemma stable_fetch_df c q : stable (Conn.fetch_df c q).
Proof.
  intros w. unfold Conn.fetch_df, conn_view.
  destruct w as [a [tb ds lv nx cs o1 o2] o]; simpl.
  repeat case_match; simpl; unfold connects; simpl;
    rewrite List.filter_app; simpl; by rewrite app_nil_r.
Qed.

Lemma stable_commit c : stable (Conn.commit c).
Proof.
  intros w. unfold Conn.commit, conn_view.
  destruct w as [a [tb ds lv nx cs o1 o2] o]; simpl.
  repeat case_match; simpl; unfold connects; simpl;
    rewrite List.filter_app; simpl; by rewrite app_nil_r.
Qed.

Lemma stable_rollback c : stable (Conn.rollback c).
Proof.
  intros w. unfold Conn.rollback, conn_view.
  destruct w as [a [tb ds lv nx cs o1 o2] o]; simpl.
  repeat case_match; simpl; unfold connects; simpl;
    rewrite List.filter_app; simpl; by rewrite app_nil_r.
Qed.

Lemma stable_mkdir_parent p : stable (Adapter.mkdir_parent p).
Proof.
  intros w. unfold Adapter.mkdir_parent. by destruct (FS.mkdir_parents _ _).
Qed.

Lemma keeps_the_conn : keeps P Adapter.the_conn.
Proof.
  apply keeps_get_any. intros w0. destruct (conn (adapter w0));
    [apply keeps_ret|apply keeps_raise].
Qed.

End Invariants.
Section ConnectionInvariants.
Import DuckDBAdapter.

Lemma one_connection_view w : one_connection w <-> held_only (conn_view w).
Proof. done. Qed.

Lemma connect_connected c w :
  conn (adapter w) = Some c -> Adapter.connect w = (w, Ok c).
Proof. intros H. unfold Adapter.connect, bind, get. by rewrite H. Qed.

Lemma close_not_connected w :
  conn (adapter w) = None -> Adapter.close w = (w, Ok tt).
Proof. intros H. unfold Adapter.close, bind, get. by rewrite H. Qed.

Lemma keeps_connect_held : keeps held_only Adapter.connect.
Proof.
  intros w. unfold held_only, conn_view. simpl.
  destruct (conn (adapter w)) as [c|] eqn:Hc.
  - rewrite (connect_connected c w Hc). simpl. by rewrite Hc.
  - destruct w as [[p m t cn] [tb ds lv nx cs o1 o2] o]; simpl in *; subst.
    intros ->.
    unfold Adapter.connect, bind, get, modify, ret, Conn.connect, Conn.execute,
      Engine.is_live.
    by live_true.
Qed.

Lemma keeps_connect_holding c n : keeps (holding c n) Adapter.connect.
Proof.
  intros w Hw. pose proof Hw as [= Hc _ _].
  by rewrite (connect_connected c w Hc).
Qed.

Lemma keeps_close_held : keeps held_only Adapter.close.
Proof.
  intros w. unfold held_only, conn_view. simpl.
  destruct (conn (adapter w)) as [c|] eqn:Hc.
  - destruct w as [[p m t cn] [tb ds lv nx cs o1 o2] o]; simpl in *; subst.
    intros ->.
    unfold Adapter.close, bind, get, modify, ret, Conn.close.
    by live_true.
  - rewrite (close_not_connected w Hc). simpl. by rewrite Hc.
Qed.

Lemma close_holding c n w :
  holding c n (conn_view w) ->
  conn_view (fst (Adapter.close w)) = (None, [], n) /\
  snd (Adapter.close w) = Ok tt /\
  Engine.calls (engine (fst (Adapter.close w)))
  = Engine.calls (engine w) ++ [Engine.CClose c].
Proof.
  unfold holding, conn_view.
  destruct w as [[p m t cn] [tb ds lv nx cs o1 o2] o]; simpl.
  intros [= -> -> <-].
  unfold Adapter.close, bind, get, modify, ret, Conn.close, connects.
  live_true. rewrite List.filter_app. simpl. by rewrite app_nil_r.
Qed.

Lemma keeps_ensure_connected_held : keeps held_only Adapter.ensure_connected.
Proof.
  apply keeps_get_any. intros w0. destruct (conn (adapter w0)).
  - apply keeps_ret.
  - apply keeps_bind; [apply keeps_connect_held|intros; apply keeps_ret].
Qed.

Lemma keeps_ensure_connected_holding c n :
  keeps (holding c n) Adapter.ensure_connected.
Proof.
  apply keeps_get_any. intros w0. destruct (conn (adapter w0)).
  - apply keeps_ret.
  - apply keeps_bind; [apply keeps_connect_holding|intros; apply keeps_ret].
Qed.

Lemma keeps_execute_each P q ps :
  keeps P (Adapter.execute_each q ps).
Proof.
  induction ps as [|params ps IH]; simpl.
  - apply keeps_ret.
  - apply keeps_bind; [apply keeps_the_conn|intros c].
    apply keeps_bind; [apply stable_keeps, stable_execute|intros _; exact IH].
Qed.

Ltac keeps_step connect_lemma ensure_lemma :=
  lazymatch goal with
  | |- keeps _ (ret _) => apply keeps_ret
  | |- keeps _ (raise _) => apply keeps_raise
  | |- keeps _ Adapter.the_conn => apply keeps_the_conn
  | |- keeps _ Adapter.connect => apply connect_lemma
  | |- keeps _ Adapter.ensure_connected => apply ensure_lemma
  | |- keeps _ (Adapter.execute_each _ _) => apply keeps_execute_each
  | |- keeps _ (Conn.execute _ _ _) => apply stable_keeps, stable_execute
  | |- keeps _ (Conn.fetch_df _ _) => apply stable_keeps, stable_fetch_df
  | |- keeps _ (Conn.commit _) => apply stable_keeps, stable_commit
  | |- keeps _ (Conn.rollback _) => apply stable_keeps, stable_rollback
  | |- keeps _ (Adapter.mkdir_parent _) => apply stable_keeps, stable_mkdir_parent
  | |- keeps _ (bind get _) => apply keeps_get_any; intros
  | |- keeps _ (bind _ _) => apply keeps_bind; [|intros]
  | |- keeps _ (if ?b then _ else _) => destruct b
  | |- keeps _ (match ?x with _ => _ end) => destruct x
  | |- keeps _ (let _ := _ in _) => cbv zeta
  end.

Ltac keeps_op connect_lemma ensure_lemma :=
  unfold Adapter.run, Adapter.forget, Adapter.execute_many,
    Adapter.get_table_info, Adapter.create_table_from_df,
    Adapter.create_table_from_parquet, Adapter.export_to_parquet,
    Adapter.vacuum, Adapter.commit, Adapter.rollback, Adapter.__enter__,
    Adapter.table_exists, Adapter.fetch_one, Adapter.fetch_all,
    Adapter.fetch_df, Adapter.execute;
  repeat keeps_step connect_lemma ensure_lemma.

Lemma keeps_run_held o : keeps held_only (Adapter.run o).
Proof.
  destruct o; try (keeps_op keeps_connect_held keeps_ensure_connected_held).
  - apply keeps_close_held.
  - unfold Adapter.run, Adapter.__exit__, Adapter.rollback.
    apply keeps_bind; [|intros; apply keeps_close_held].
    destruct failed; keeps_op keeps_connect_held keeps_ensure_connected_held.
Qed.

Lemma keeps_run_holding c n o :
  match o with
  | Adapter.OpClose | Adapter.OpExit _ => True
  | _ => keeps (holding c n) (Adapter.run o)
  end.
Proof.
  destruct o; try exact I;
    keeps_op (keeps_connect_holding c n) (keeps_ensure_connected_holding c n).
Qed.

Lemma exit_holding c n failed w :
  holding c n (conn_view w) ->
  conn_view (fst (Adapter.__exit__ failed w)) = (None, [], n) /\
  snd (Adapter.__exit__ failed w) = Ok tt /\
  Engine.calls (engine (fst (Adapter.__exit__ failed w)))
  = Engine.calls (engine w)
      ++ (if failed then [Engine.CRollback c] else []) ++ [Engine.CClose c].
Proof.
  unfold holding, conn_view.
  destruct w as [[p m t cn] [tb ds lv nx cs o1 o2] o]; simpl.
  intros [= -> -> <-].
  unfold Adapter.__exit__, Adapter.rollback, Adapter.close, bind, get, modify,
    ret, Conn.rollback, Conn.close, connects, Engine.is_live.
  destruct failed; live_true; rewrite !List.filter_app; simpl;
    rewrite ?app_nil_r, <- ?app_assoc; done.
Qed.

End ConnectionInvariants.
Section AdapterTheorems.
Import DuckDBAdapter.

Lemma holding_of_one_connection c w :
  one_connection w -> conn (adapter w) = Some c ->
  holding c (connects w) (conn_view w).
Proof.
  unfold one_connection, holding, conn_view. intros Hl Hc.
  by rewrite Hl, Hc.
Qed.



Lemma run_all_one_connection ops w :
  one_connection w -> one_connection (run_all ops w).
Proof.
  revert w. induction ops as [|o ops IH]; intros w Hw; simpl; [done|].
  apply IH. by apply (keeps_run_held o w).
Qed.

End AdapterTheorems.
(** C7.  An adapter holds at most one connection.  In every state in which
    the open connections are exactly the one the adapter holds, if any:
    each operation of the adapter leaves the state so, and so does every
    sequence of operations; at most one connection is open afterwards;
    [connect] on a connected adapter returns the handle it holds and
    changes nothing (no connection is opened, no setting is sent again);
    an operation run on a connected adapter opens no connection; [close]
    on an adapter that holds no handle changes nothing. *)
Theorem adapter_holds_one_connection (o : Adapter.op) (w : World) :
  one_connection w ->
  one_connection (fst (Adapter.run o w)) /\
  (List.length (Engine.live (engine (fst (Adapter.run o w)))) <= 1)%nat /\
  (forall ops, one_connection (run_all ops w)) /\
  (forall c, DuckDBAdapter.conn (adapter w) = Some c ->
     Adapter.connect w = (w, Ok c) /\
     connects (fst (Adapter.run o w)) = connects w) /\
  (DuckDBAdapter.conn (adapter w) = None -> Adapter.close w = (w, Ok tt)).
Proof.
  intros Hw.
  pose proof (keeps_run_held o w Hw) as Hw'.
  split; [exact Hw'|]. split; [|split; [|split]].
  - unfold held_only, conn_view in Hw'. simpl in Hw'. rewrite Hw'.
    destruct (DuckDBAdapter.conn _); simpl; lia.
  - intros ops. by apply run_all_one_connection.
  - intros c Hc. split; [by apply connect_connected|].
    pose proof (holding_of_one_connection c w Hw Hc) as Hh.
    pose proof (keeps_run_holding c (connects w) o) as Hk.
    destruct o;
      try (specialize (Hk w Hh); unfold holding, conn_view in Hk;
           by injection Hk).
    + destruct (close_holding c _ w Hh) as [Hv _].
      unfold conn_view in Hv. by injection Hv.
    + destruct (exit_holding c _ failed w Hh) as [Hv _].
      unfold conn_view in Hv. by injection Hv.
  - apply close_not_connected.
Qed.

(** A new adapter, connecting. *)
Lemma adapter_holds_one_connection_witness :
  let w := new_world (DuckDBAdapter.__init__ "dwh.duckdb" (PStr "4GB") (PInt 4)) [] in
  one_connection w /\
  one_connection (fst (Adapter.run Adapter.OpConnect w)).
Proof.
  assert (one_connection
            (new_world (DuckDBAdapter.__init__ "dwh.duckdb" (PStr "4GB") (PInt 4)) []))
    as Hw by reflexivity.
  split; [exact Hw|].
  exact (proj1 (adapter_holds_one_connection Adapter.OpConnect _ Hw)).
Defined.


Section CreateTable.
Import DuckDBAdapter.



End CreateTable.




Section Reads.


End Reads.




Section CaseInsensitive.

Lemma all_ascii_spec f : all_ascii f = true -> forall c, f c = true.
Proof.
  unfold all_ascii. rewrite forallb_forall. intros H c.
  rewrite <- (ascii_nat_embedding c). apply H, in_seq.
  pose proof (nat_ascii_bounded c). lia.
Qed.








End CaseInsensitive.




(* ------------------------------------------------------------------ *)
(** ** The other modes of [create_table_from_df], and [table_exists] *)
(* ------------------------------------------------------------------ *)

(** Unfolds the adapter's methods down to the calls on the engine. *)
Ltac adapter_unfold :=
  unfold Adapter.create_table_from_df, Adapter.create_table_from_parquet,
    Adapter.export_to_parquet, Adapter.mkdir_parent, Adapter.get_table_info,
    Adapter.vacuum, Adapter.execute_many, Adapter.table_exists,
    Adapter.fetch_one, Adapter.fetch_all, Adapter.fetch_df, Adapter.execute,
    Adapter.ensure_connected, Adapter.connect, Adapter.close, Adapter.commit,
    Adapter.rollback, Adapter.the_conn,
    bind, get, modify, ret, raise, Conn.connect, Conn.execute, Conn.close,
    Conn.commit, Conn.rollback, Engine.is_live.

Section CreateTableModes.
Import DuckDBAdapter.

Lemma table_exists_spec name w :
  one_connection w ->
  exists w',
    Adapter.table_exists name w
    = (w', Ok (bool_decide (name ∈ dom (Engine.tables (engine w))))) /\
    conn (adapter w') = Some (entered w) /\
    Engine.live (engine w') = [entered w] /\
    Engine.tables (engine w') = Engine.tables (engine w) /\
    os w' = os w /\
    Engine.calls (engine w') =
      Engine.calls (engine w) ++ opening w ++
      [Engine.CExecute (entered w) Engine.CountTablesNamed (Some [PStr name])].
Proof.
  unfold one_connection, entered, opening.
  destruct w as [[p m t [c0|]] [tb ds lv nx cs o1 o2] o]; simpl; intros ->;
    adapter_unfold; live_true;
    destruct (decide (name ∈ dom tb));
    live_true; eexists; (split; [reflexivity|]); simpl;
    by rewrite <- ?app_assoc.
Qed.

End CreateTableModes.

(** X3.  [table_exists(name)], in a state in which the adapter's
    connection invariant holds, returns whether the catalog has a table
    of that name.  It changes neither the catalog nor the file tree, and
    it leaves the adapter connected: a connection is opened when none
    was held, and stays open. *)
Theorem table_exists_reads_catalog (name : string) (w : World) :
  one_connection w ->
  let w' := fst (Adapter.table_exists name w) in
  (snd (Adapter.table_exists name w) = Ok true
   <-> name ∈ dom (Engine.tables (engine w))) /\
  (snd (Adapter.table_exists name w) = Ok false
   <-> name ∉ dom (Engine.tables (engine w))) /\
  Engine.tables (engine w') = Engine.tables (engine w) /\
  os w' = os w /\
  DuckDBAdapter.conn (adapter w') = Some (entered w) /\
  Engine.live (engine w') = [entered w].
Proof.
  intros Hw w'. subst w'.
  destruct (table_exists_spec name w Hw) as (w1 & -> & Hc & Hl & Ht & Ho & _).
  simpl. repeat split; try done.
  - intros [= H]. by apply bool_decide_eq_true in H.
  - intros H. by rewrite bool_decide_eq_true_2.
  - intros [= H]. by apply bool_decide_eq_false in H.
  - intros H. by rewrite bool_decide_eq_false_2.
Qed.

Lemma table_exists_reads_catalog_witness :
  let w := mkWorld (DuckDBAdapter.__init__ "dwh.duckdb" (PStr "4GB") (PInt 4))
             (Engine.set_tables {["cases" := [[PInt 7]]]} (fresh_engine []))
             (FS.mkOS ∅ []) in
  one_connection w /\
  (snd (Adapter.table_exists "cases" w) = Ok true
   <-> "cases" ∈ dom (Engine.tables (engine w))).
Proof.
  intros w.
  assert (one_connection w) as Hw by reflexivity.
  split; [exact Hw|].
  exact (proj1 (table_exists_reads_catalog "cases" w Hw)).
Defined.

Ltac catalog_run :=
  repeat first
    [ progress live_true
    | progress unfold DataFrame in *
    | match goal with
      | H : ?tb !! ?name = _ |- context [?tb !! ?name] => rewrite H
      | H : String.eqb ?a ?b = _ |- context [String.eqb ?a ?b] => rewrite H
      end
    | rewrite lookup_delete_eq ].






(* ------------------------------------------------------------------ *)
(** ** [create_table_from_parquet] and [export_to_parquet] *)
(* ------------------------------------------------------------------ *)

(** X7.  [create_table_from_parquet] looks for the file first.  When
    nothing exists at [parquet_path] it raises [FileNotFoundError] and
    that is all it does, whatever the mode and whether or not the table
    exists: no connection is opened, the engine is not called, the
    catalog and the file tree are what they were. *)
Theorem create_table_from_parquet_missing_file
    (parquet_path : Path) (table_name if_exists : string) (w : World) :
  FS.path_exists parquet_path (os w) = false ->
  Adapter.create_table_from_parquet parquet_path table_name if_exists w
  = (w, Raise (FileNotFoundError
                 ("Parquet file not found: " +:+ PurePath.to_str parquet_path))).
Proof.
  intros Hmiss.
  unfold Adapter.create_table_from_parquet, bind, get, raise.
  by rewrite Hmiss.
Qed.

Lemma create_table_from_parquet_missing_file_witness :
  let w := new_world (DuckDBAdapter.__init__ "dwh.duckdb" (PStr "4GB") (PInt 4)) [] in
  FS.path_exists ["exports"; "cases.parquet"] (os w) = false /\
  Adapter.create_table_from_parquet ["exports"; "cases.parquet"] "cases" "replace" w
  = (w, Raise (FileNotFoundError "Parquet file not found: exports/cases.parquet")).
Proof.
  intros w.
  assert (FS.path_exists ["exports"; "cases.parquet"] (os w) = false) as Hm
    by reflexivity.
  split; [exact Hm|].
  exact (create_table_from_parquet_missing_file
           ["exports"; "cases.parquet"] "cases" "replace" w Hm).
Defined.

(** X8.  [create_table_from_parquet(path, name, if_exists='fail')] on a
    file that exists, in a state in which the adapter's connection
    invariant holds, raises the value error when the table exists: the
    catalog and the file tree are unchanged, and all the engine was
    asked is the opening of a connection, if none was held, and the
    look-up of the name. *)
Theorem create_table_from_parquet_fail_exists
    (parquet_path : Path) (name : string) (w : World) :
  one_connection w ->
  FS.path_exists parquet_path (os w) = true ->
  name ∈ dom (Engine.tables (engine w)) ->
  exists w',
    Adapter.create_table_from_parquet parquet_path name "fail" w
    = (w', Raise (ValueError ("Table '" +:+ name +:+ "' already exists"))) /\
    Engine.tables (engine w') = Engine.tables (engine w) /\
    os w' = os w /\
    Engine.calls (engine w') =
      Engine.calls (engine w) ++ opening w ++
      [Engine.CExecute (entered w) Engine.CountTablesNamed (Some [PStr name])].
Proof.
  unfold one_connection, entered, opening.
  destruct w as [[p m t [c0|]] [tb ds lv nx cs o1 o2] o]; simpl;
    intros -> Hex Hin;
    adapter_unfold; simpl; rewrite Hex; catalog_run;
    eexists; (split; [reflexivity|]); simpl;
    by rewrite <- ?app_assoc.
Qed.

Lemma create_table_from_parquet_fail_exists_witness :
  let p := ["exports"; "cases.parquet"] in
  let w := mkWorld (DuckDBAdapter.__init__ "dwh.duckdb" (PStr "4GB") (PInt 4))
             (Engine.set_tables {["cases" := [[PInt 7]]]} (fresh_engine []))
             (FS.mkOS {[p := FS.File [[PInt 8]]]} []) in
  (one_connection w /\ FS.path_exists p (os w) = true /\
   "cases" ∈ dom (Engine.tables (engine w))) /\
  exists w',
    Adapter.create_table_from_parquet p "cases" "fail" w
    = (w', Raise (ValueError "Table 'cases' already exists")) /\
    Engine.tables (engine w') = Engine.tables (engine w).
Proof.
  intros p w.
  assert (one_connection w) as Hw by reflexivity.
  assert (FS.path_exists p (os w) = true) as Hex by (vm_compute; reflexivity).
  assert ("cases" ∈ dom (Engine.tables (engine w))) as Hin.
  { apply elem_of_dom. exists [[PInt 7]]. apply lookup_insert_eq. }
  split; [done|].
  destruct (create_table_from_parquet_fail_exists p "cases" w Hw Hex Hin)
    as (w' & Hrun & Ht & _).
  exists w'. split; [exact Hrun|exact Ht].
Defined.
(** X9.  [export_to_parquet] makes the directory of the output file
    before it talks to the engine.  When a regular file is in the way of
    that directory the call raises [FileExistsError] or
    [NotADirectoryError] and nothing else happens: no connection is
    opened and no statement is sent.  Otherwise the COPY statement is
    sent, with the parameters when there are some, and when the engine
    refuses it the directories that were made stay behind. *)
Theorem export_to_parquet_makes_directory_first
    (query : string) (output_path : Path) (params : option (list pyval))
    (w : World) :
  one_connection w ->
  let w' := fst (Adapter.export_to_parquet query output_path params w) in
  let r := snd (Adapter.export_to_parquet query output_path params w) in
  match FS.mkdir_from [] (PurePath.parent output_path) (FS.files (os w)) with
  | Raise e =>
      w' = w /\ r = Raise e /\ (e = FileExistsError \/ e = NotADirectoryError)
  | Ok fs' =>
      Engine.calls (engine w') =
        Engine.calls (engine w) ++ opening w ++
        [Engine.CExecute (entered w) (Engine.CopyToParquet query output_path)
           (if Adapter.truthy params then params else None)] /\
      ((exists e, r = Raise e) -> os w' = FS.mkOS fs' (FS.cwd (os w)))
  end.
Proof.
  unfold one_connection, entered, opening.
  destruct w as [[p m t [c0|]] [tb ds lv nx cs o1 o2] [fs wd]]; simpl;
    intros ->;
    (destruct (FS.mkdir_from [] (PurePath.parent output_path) fs)
       as [fs'|e] eqn:Hmk;
     [| adapter_unfold; unfold FS.mkdir_parents; simpl; rewrite Hmk; simpl;
        split; [done|split; [done|by eapply mkdir_from_raises]]]);
    adapter_unfold; unfold FS.mkdir_parents; simpl; rewrite Hmk;
    live_true; destruct (Adapter.truthy params); live_true;
    match goal with
    | |- context [o1 ?a ?b ?c ?d] => destruct (o1 a b c d) as [[[tb1 os1] rel]|msg]
    end; simpl; rewrite <- ?app_assoc;
    (split; [done|]); intros [e He]; done.
Qed.

Lemma export_to_parquet_makes_directory_first_witness :
  let w := new_world (DuckDBAdapter.__init__ "dwh.duckdb" (PStr "4GB") (PInt 4)) [] in
  let out := ["exports"; "2025"; "cases.parquet"] in
  one_connection w /\
  FS.files (os (fst (Adapter.export_to_parquet "SELECT 1" out None w)))
    !! ["exports"; "2025"] = Some FS.Dir.
Proof.
  intros w out.
  assert (one_connection w) as Hw by reflexivity.
  split; [exact Hw|].
  pose proof (export_to_parquet_makes_directory_first "SELECT 1" out None w Hw)
    as H.
  change (FS.mkdir_from [] (PurePath.parent out) (FS.files (os w)))
    with (@Ok (gmap Path FS.node)
            (<[ ["exports"; "2025"] := FS.Dir ]>
               (<[ ["exports"] := FS.Dir ]> (FS.files (os w))))) in H.
  cbv zeta in H. destruct H as [_ H].
  rewrite H; [|by eexists]. simpl.
  apply lookup_insert_eq.
Defined.
(* ------------------------------------------------------------------ *)
(** ** [execute_many], and connecting again after [close] *)
(* ------------------------------------------------------------------ *)

Section ExecuteMany.
Import DuckDBAdapter.

Lemma ensure_connected_spec w :
  one_connection w ->
  exists w1,
    Adapter.ensure_connected w = (w1, Ok tt) /\
    conn (adapter w1) = Some (entered w) /\
    Engine.live (engine w1) = [entered w] /\
    Engine.calls (engine w1) = Engine.calls (engine w) ++ opening w /\
    Engine.tables (engine w1) = Engine.tables (engine w) /\
    os w1 = os w.
Proof.
  unfold one_connection, entered, opening.
  destruct w as [[p m t [c0|]] [tb ds lv nx cs o1 o2] o]; simpl; intros ->.
  - eexists. split; [reflexivity|]. simpl. by rewrite app_nil_r.
  - adapter_unfold. live_true. eexists. split; [reflexivity|]. simpl.
    by rewrite <- !app_assoc.
Qed.

Lemma conn_execute_adapter c q params w :
  adapter (fst (Conn.execute c q params w)) = adapter w /\
  Engine.calls (engine (fst (Conn.execute c q params w)))
  = Engine.calls (engine w) ++ [Engine.CExecute c q params].
Proof.
  unfold Conn.execute.
  destruct (Engine.is_live c (engine w)); [|done].
  by destruct (Engine.exec_sql q params (engine w) (os w)) as [[[tb os'] rel]|msg].
Qed.

Lemma execute_each_cons c q p ps w :
  conn (adapter w) = Some c ->
  Adapter.execute_each q (p :: ps) w
  = match Conn.execute c q (Some p) w with
    | (w1, Ok _) => Adapter.execute_each q ps w1
    | (w1, Raise e) => (w1, Raise e)
    end.
Proof.
  intros Hc. cbn [Adapter.execute_each]. unfold Adapter.the_conn, bind, get.
  rewrite Hc. unfold ret at 1.
  by destruct (Conn.execute c q (Some p) w) as [w1 [rel|e]].
Qed.

Lemma execute_each_calls c q ps w :
  conn (adapter w) = Some c ->
  exists k,
    (k <= length ps)%nat /\
    Engine.calls (engine (fst (Adapter.execute_each q ps w)))
    = Engine.calls (engine w)
        ++ map (fun p => Engine.CExecute c q (Some p)) (take k ps) /\
    (snd (Adapter.execute_each q ps w) = Ok tt -> k = length ps) /\
    conn (adapter (fst (Adapter.execute_each q ps w))) = Some c.
Proof.
  revert w. induction ps as [|p ps IH]; intros w Hc.
  - exists 0%nat. simpl. by rewrite app_nil_r.
  - rewrite (execute_each_cons c q p ps w Hc).
    destruct (conn_execute_adapter c q (Some p) w) as [Ha Hcalls].
    destruct (Conn.execute c q (Some p) w) as [w1 [rel|e]] eqn:Hex;
      simpl in Ha, Hcalls.
    + destruct (IH w1) as (k & Hk & Hcs & Hok & Hconn); [by rewrite Ha|].
      exists (S k). split; [simpl; lia|]. split.
      { rewrite Hcs, Hcalls, <- app_assoc. done. }
      split; [intros H; by rewrite (Hok H)|done].
    + exists 1%nat. split; [simpl; lia|]. simpl. rewrite ?take_0. simpl.
      split; [done|]. split; [done|by rewrite Ha].
Qed.

End ExecuteMany.

(** X10.  [execute_many(query, params_list)], in a state in which the
    adapter's connection invariant holds, connects when no connection is
    held and then sends the statement once for each parameter list, in
    the order of the list, each list as it is.  It stops at the first
    statement the engine refuses: the statements sent are those of a
    prefix of the list, the whole list when the call returns.  With an
    empty list it returns having sent nothing but the opening of the
    connection, and either way the adapter is left connected. *)
Theorem execute_many_sends_in_order
    (query : Engine.sql) (params_list : list (list pyval)) (w : World) :
  one_connection w ->
  let w' := fst (Adapter.execute_many query params_list w) in
  let r := snd (Adapter.execute_many query params_list w) in
  (exists k,
     (k <= length params_list)%nat /\
     Engine.calls (engine w') =
       Engine.calls (engine w) ++ opening w ++
       map (fun p => Engine.CExecute (entered w) query (Some p))
         (take k params_list) /\
     (r = Ok tt -> k = length params_list)) /\
  (params_list = [] -> r = Ok tt) /\
  DuckDBAdapter.conn (adapter w') = Some (entered w).
Proof.
  intros Hw w' r. subst w' r.
  destruct (ensure_connected_spec w Hw) as (w1 & Hrun & Hc & _ & Hcalls & _).
  unfold Adapter.execute_many, bind. rewrite Hrun.
  destruct (execute_each_calls (entered w) query params_list w1 Hc)
    as (k & Hk & Hcs & Hok & Hconn).
  split; [|split; [|done]].
  - exists k. split; [done|]. split; [|done].
    by rewrite Hcs, Hcalls, <- app_assoc.
  - by intros ->.
Qed.

Lemma execute_many_sends_in_order_witness :
  let w := new_world (DuckDBAdapter.__init__ "dwh.duckdb" (PStr "4GB") (PInt 4)) [] in
  one_connection w /\
  DuckDBAdapter.conn
    (adapter (fst (Adapter.execute_many Engine.CountTablesNamed
                     [[PStr "cases"]; [PStr "staff"]] w)))
  = Some (Engine.Handle 0).
Proof.
  intros w.
  assert (one_connection w) as Hw by reflexivity.
  split; [exact Hw|].
  exact (proj2 (proj2 (execute_many_sends_in_order Engine.CountTablesNamed
                         [[PStr "cases"]; [PStr "staff"]] w Hw))).
Defined.
Section Reconnect.
Import DuckDBAdapter.

Lemma connect_new w :
  conn (adapter w) = None -> Engine.live (engine w) = [] ->
  let c := Engine.Handle (Engine.next_id (engine w)) in
  exists w1,
    Adapter.connect w = (w1, Ok c) /\
    conn (adapter w1) = Some c /\
    Engine.live (engine w1) = [c] /\
    Engine.next_id (engine w1) = S (Engine.next_id (engine w)) /\
    Engine.calls (engine w1) = Engine.calls (engine w) ++ opening w.
Proof.
  unfold opening.
  destruct w as [[p m t c0] [tb ds lv nx cs o1 o2] o]; simpl.
  intros -> ->. adapter_unfold. simpl.
  rewrite !bool_decide_eq_true_2 by (apply list_elem_of_singleton; reflexivity).
  simpl. eexists. split; [reflexivity|]. simpl.
  by rewrite <- !app_assoc.
Qed.

Lemma close_connected w c :
  conn (adapter w) = Some c -> Engine.live (engine w) = [c] ->
  exists w2,
    Adapter.close w = (w2, Ok tt) /\
    conn (adapter w2) = None /\
    Engine.live (engine w2) = [] /\
    Engine.next_id (engine w2) = Engine.next_id (engine w) /\
    Engine.calls (engine w2) = Engine.calls (engine w) ++ [Engine.CClose c].
Proof.
  destruct w as [[p m t c0] [tb ds lv nx cs o1 o2] o]; simpl.
  intros -> ->. adapter_unfold. simpl.
  eexists. split; [reflexivity|]. simpl.
  rewrite bool_decide_eq_true_2 by reflexivity. done.
Qed.

End Reconnect.

(** X11.  Connecting, closing and connecting again on an adapter that
    held no connection opens two connections.  The second [connect]
    returns a new handle, sends the two settings again, and leaves that
    handle as the only open connection; the handle of the first
    [connect] is dead, a statement run on it raises. *)
Theorem reconnect_opens_new_connection
    (q : Engine.sql) (params : option (list pyval)) (w : World) :
  one_connection w ->
  DuckDBAdapter.conn (adapter w) = None ->
  let c1 := entered w in
  let w2 := fst (Adapter.close (fst (Adapter.connect w))) in
  let w3 := fst (Adapter.connect w2) in
  snd (Adapter.connect w) = Ok c1 /\
  snd (Adapter.connect w2) = Ok (entered w2) /\
  entered w2 <> c1 /\
  Engine.live (engine w3) = [entered w2] /\
  Engine.calls (engine w3) =
    Engine.calls (engine w) ++ opening w ++ [Engine.CClose c1] ++ opening w2 /\
  connects w3 = (connects w + 2)%nat /\
  snd (Conn.execute c1 q params w3) = Conn.closed_error.
Proof.
  intros Hw Hnone. cbv zeta.
  assert (Engine.live (engine w) = []) as Hlive
    by (unfold one_connection in Hw; by rewrite Hnone in Hw).
  assert (entered w = Engine.Handle (Engine.next_id (engine w))) as Hc1
    by (unfold entered; by rewrite Hnone).
  destruct (connect_new w Hnone Hlive)
    as (w1 & Hrun1 & Hconn1 & Hlive1 & Hnext1 & Hcalls1).
  rewrite <- Hc1 in Hrun1, Hconn1, Hlive1.
  set (c1 := entered w) in *.
  destruct (close_connected w1 c1 Hconn1 Hlive1)
    as (w2 & Hrun2 & Hconn2 & Hlive2 & Hnext2 & Hcalls2).
  destruct (connect_new w2 Hconn2 Hlive2)
    as (w3 & Hrun3 & Hconn3 & Hlive3 & Hnext3 & Hcalls3).
  assert (entered w2 = Engine.Handle (Engine.next_id (engine w2))) as Hc2
    by (unfold entered; by rewrite Hconn2).
  rewrite <- Hc2 in Hrun3, Hconn3, Hlive3.
  assert (entered w2 <> c1) as Hne.
  { rewrite Hc2, Hc1, Hnext2, Hnext1. intros [= H]. lia. }
  rewrite Hrun1. cbn [fst snd]. rewrite Hrun2. cbn [fst snd].
  rewrite Hrun3. cbn [fst snd].
  split; [done|]. split; [done|]. split; [done|]. split; [done|].
  assert (Engine.calls (engine w3) =
          Engine.calls (engine w) ++ opening w ++ [Engine.CClose c1] ++ opening w2)
    as Hcalls by (by rewrite Hcalls3, Hcalls2, Hcalls1, <- !app_assoc).
  split; [done|]. split.
  - unfold connects. rewrite Hcalls.
    rewrite !List.filter_app, !length_app. unfold opening.
    rewrite Hnone, Hconn2. simpl. lia.
  - unfold Conn.execute, Engine.is_live. rewrite Hlive3.
    rewrite bool_decide_eq_false_2; [done|].
    intros H. apply list_elem_of_singleton in H. by apply Hne.
Qed.

Lemma reconnect_opens_new_connection_witness :
  let w := new_world (DuckDBAdapter.__init__ "dwh.duckdb" (PStr "4GB") (PInt 4)) [] in
  (one_connection w /\ DuckDBAdapter.conn (adapter w) = None) /\
  entered (fst (Adapter.close (fst (Adapter.connect w)))) <> entered w.
Proof.
  intros w.
  assert (one_connection w) as Hw by reflexivity.
  assert (DuckDBAdapter.conn (adapter w) = None) as Hn by reflexivity.
  split; [done|].
  exact (proj1 (proj2 (proj2
           (reconnect_opens_new_connection Engine.Checkpoint None w Hw Hn)))).
Defined.
(* ------------------------------------------------------------------ *)
(** ** The connection through the adapter's and the Reader's calls *)
(* ------------------------------------------------------------------ *)



Section ReaderConnections.
Import DuckDBAdapter.



End ReaderConnections.


(* ------------------------------------------------------------------ *)
(** ** What the Reader's methods return, one against the other *)
(* ------------------------------------------------------------------ *)

Section ReaderResults.
Import Engine.





End ReaderResults.
Section ReaderEquations.
Import Engine.

Let self := DuckDBReader.__init__.





End ReaderEquations.








(* ------------------------------------------------------------------ *)
(** ** One file for each day *)
(* ------------------------------------------------------------------ *)

Section OnePathPerDay.

Lemma digit_inj a b :
  0 <= a < 10 -> 0 <= b < 10 -> Spec.digit a = Spec.digit b -> a = b.
Proof.
  intros Ha Hb H. unfold Spec.digit in H.
  apply (f_equal N_of_ascii) in H.
  rewrite !N_ascii_embedding in H by lia. lia.
Qed.

Lemma two_digits_inj a b :
  0 <= a < 100 -> 0 <= b < 100 ->
  Spec.two_digits a = Spec.two_digits b -> a = b.
Proof.
  intros Ha Hb [= H1 H2].
  assert (0 <= a / 10 < 10 /\ 0 <= b / 10 < 10) as [Ha1 Hb1]
    by (split; split;
          first [apply Z.div_pos; lia | apply Z.div_lt_upper_bound; lia]).
  pose proof (Z.mod_pos_bound a 10 ltac:(lia)).
  pose proof (Z.mod_pos_bound b 10 ltac:(lia)).
  apply digit_inj in H1; [|done..].
  apply digit_inj in H2; [|done..].
  rewrite (Z.div_mod a 10), (Z.div_mod b 10) by lia. lia.
Qed.

Lemma str_int_inj a b : PyStr.str_int a = PyStr.str_int b -> a = b.
Proof.
  intros H. apply (f_equal Engine.parse_int) in H.
  rewrite !parse_int_str_int in H. by injection H.
Qed.

Lemma joinpath_digits p x :
  all_chars is_dec_char x = true -> x <> "" -> p /: x = p ++ [x].
Proof.
  intros Hx Hne. destruct x as [|c s]; [done|].
  apply joinpath_single.
  - eapply all_chars_impl; [apply dec_not_slash|done].
  - intros [= -> ->]. discriminate Hx.
Qed.

Lemma raw_data_path_spec D :
  Datetime.valid D ->
  Config.get_raw_data_path D
  = Config.RAW_DATA_PATH
      ++ [PyStr.str_int (Datetime.year D); Spec.two_digits (Datetime.month D);
          Spec.two_digits (Datetime.day D)].
Proof.
  intros (Hy & Hm & Hd & _).
  pose proof (days_in_month_le_31 (Datetime.year D) (Datetime.month D)).
  unfold Config.get_raw_data_path.
  rewrite !format_0d_two_digits by lia.
  rewrite (joinpath_digits _ (PyStr.str_int _))
    by (first [apply str_int_dec | apply str_int_nonempty]).
  rewrite (joinpath_digits _ (Spec.two_digits (Datetime.month D))); cycle 1.
  { rewrite <- format_0d_two_digits by lia. apply format_0d_dec. }
  { done. }
  rewrite (joinpath_digits _ (Spec.two_digits (Datetime.day D))); cycle 1.
  { rewrite <- format_0d_two_digits by lia. apply format_0d_dec. }
  { done. }
  by rewrite <- !app_assoc.
Qed.

Lemma append_inv_head p a b : p +:+ a = p +:+ b -> a = b.
Proof.
  induction p as [|c p IH]; [done|].
  change (String c (p +:+ a) = String c (p +:+ b) -> a = b).
  intros [= H]. by apply IH.
Qed.

Lemma three_parts_inj {A : Type} (a b c a' b' c' : A) :
  [a; b; c] = [a'; b'; c'] -> a = a' /\ b = b' /\ c = c'.
Proof. intros H. by injection H. Qed.

Lemma same_day_fields D D' :
  Datetime.valid D -> Datetime.valid D' ->
  PyStr.str_int (Datetime.year D) = PyStr.str_int (Datetime.year D') ->
  Spec.two_digits (Datetime.month D) = Spec.two_digits (Datetime.month D') ->
  Spec.two_digits (Datetime.day D) = Spec.two_digits (Datetime.day D') ->
  Datetime.year D = Datetime.year D' /\
  Datetime.month D = Datetime.month D' /\
  Datetime.day D = Datetime.day D'.
Proof.
  intros (Hy & Hm & Hd & _) (Hy' & Hm' & Hd' & _) H1 H2 H3.
  pose proof (days_in_month_le_31 (Datetime.year D) (Datetime.month D)).
  pose proof (days_in_month_le_31 (Datetime.year D') (Datetime.month D')).
  split; [by apply str_int_inj|].
  split; apply two_digits_inj; (lia || done).
Qed.

Lemma output_path_for_same_day (self : ParquetLoader.t) D D' :
  Datetime.valid D -> Datetime.valid D' ->
  ParquetLoader.output_path_for self D = ParquetLoader.output_path_for self D'
  <-> same_day D D'.
Proof.
  intros HD HD'. split.
  - rewrite !output_path_for_last, !hive_partition_path_spec by done.
    intros H. apply app_inj_tail in H as [H _].
    unfold Spec.hive_dir in H. apply app_inv_head in H.
    apply three_parts_inj in H as (H1 & H2 & H3).
    apply append_inv_head in H1, H2, H3.
    by apply (same_day_fields D D' HD HD').
  - intros (Hy & Hm & Hd).
    unfold ParquetLoader.output_path_for, ParquetLoader._get_hive_partition_path,
      ParquetLoader.filename_for, Datetime.strftime_Ymd.
    by rewrite Hy, Hm, Hd.
Qed.

Lemma raw_file_path_same_day D D' :
  Datetime.valid D -> Datetime.valid D' ->
  Config.get_raw_file_path D = Config.get_raw_file_path D' <-> same_day D D'.
Proof.
  intros HD HD'. split.
  - rewrite !get_raw_file_path_last, !raw_data_path_spec by done.
    intros H. apply app_inj_tail in H as [H _].
    apply app_inv_head in H. apply three_parts_inj in H as (H1 & H2 & H3).
    by apply (same_day_fields D D' HD HD').
  - intros (Hy & Hm & Hd).
    unfold Config.get_raw_file_path, Config.get_raw_data_path,
      Datetime.strftime_Ymd.
    by rewrite Hy, Hm, Hd.
Qed.

End OnePathPerDay.
(** X18.  Both layouts name one file for each calendar day.  For dates
    the constructor of [datetime] accepts, the output path of the Loader
    is the same for two dates exactly when they have the same year,
    month and day, and so is the path of [get_raw_file_path]: the time
    of day plays no part, and two different days never share a path. *)
Theorem one_path_per_day (self : ParquetLoader.t) (D D' : datetime) :
  Datetime.valid D -> Datetime.valid D' ->
  (ParquetLoader.output_path_for self D = ParquetLoader.output_path_for self D'
   <-> same_day D D') /\
  (Config.get_raw_file_path D = Config.get_raw_file_path D' <-> same_day D D').
Proof.
  intros HD HD'. split.
  - by apply output_path_for_same_day.
  - by apply raw_file_path_same_day.
Qed.

Lemma one_path_per_day_witness :
  let D := Datetime.mk 2025 2 11 8 30 0 0 in
  let D' := Datetime.mk 2025 2 11 17 45 0 0 in
  (Datetime.valid D /\ Datetime.valid D') /\
  ParquetLoader.output_path_for (ParquetLoader.__init__ None) D
  = ParquetLoader.output_path_for (ParquetLoader.__init__ None) D'.
Proof.
  intros D D'.
  assert (Datetime.valid D) as HD by (repeat split; vm_compute; congruence).
  assert (Datetime.valid D') as HD' by (repeat split; vm_compute; congruence).
  split; [done|].
  apply (proj1 (one_path_per_day (ParquetLoader.__init__ None) D D' HD HD')).
  by repeat split.
Defined.
(* ------------------------------------------------------------------ *)
(** ** Directories, and saving more than once *)
(* ------------------------------------------------------------------ *)

Section Directories.

(** [mkdir] leaves what exists as it is. *)
Lemma mkdir_from_keeps done_ todo fs fs' q x :
  FS.mkdir_from done_ todo fs = Ok fs' ->
  fs !! q = Some x -> fs' !! q = Some x.
Proof.
  revert done_ fs. induction todo as [|part rest IH]; intros done_ fs; simpl.
  - by intros [= ->].
  - intros Hmk Hq.
    destruct (fs !! (done_ ++ [part])) as [[|c]|] eqn:E; [|done|].
    + by eapply IH.
    + eapply IH; [done|].
      rewrite lookup_insert_ne; [done|]. intros Heq. subst q. congruence.
Qed.

(** After [mkdir], the directory and each of its ancestors is there. *)
Lemma mkdir_from_dirs done_ todo fs fs' k :
  FS.mkdir_from done_ todo fs = Ok fs' ->
  (0 < k <= length todo)%nat ->
  fs' !! (done_ ++ take k todo) = Some FS.Dir.
Proof.
  revert done_ fs k. induction todo as [|part rest IH]; intros done_ fs k; simpl.
  - lia.
  - intros Hmk Hk.
    destruct k as [|k]; [lia|]. simpl.
    assert (fs' !! (done_ ++ [part]) = Some FS.Dir) as Hfirst.
    { destruct (fs !! (done_ ++ [part])) as [[|c]|] eqn:E; [|done|].
      - by eapply mkdir_from_keeps.
      - eapply mkdir_from_keeps; [done|]. apply lookup_insert_eq. }
    destruct k as [|k].
    + by rewrite take_0.
    + replace (done_ ++ part :: take (S k) rest)
        with ((done_ ++ [part]) ++ take (S k) rest)
        by (by rewrite <- app_assoc).
      destruct (fs !! (done_ ++ [part])) as [[|c]|] eqn:E; [|done|];
        (eapply IH; [done|lia]).
Qed.

(** Where the directory and its ancestors are there, [mkdir] changes
    nothing. *)
Lemma mkdir_from_again done_ todo fs :
  (forall k, (0 < k <= length todo)%nat ->
     fs !! (done_ ++ take k todo) = Some FS.Dir) ->
  FS.mkdir_from done_ todo fs = Ok fs.
Proof.
  revert done_. induction todo as [|part rest IH]; intros done_ Hdirs; simpl;
    [done|].
  pose proof (Hdirs 1%nat ltac:(simpl; lia)) as H1.
  change (take 1 (part :: rest)) with [part] in H1. rewrite H1.
  apply IH. intros k Hk.
  specialize (Hdirs (S k)). simpl in Hdirs.
  rewrite <- app_assoc. apply Hdirs. lia.
Qed.

Lemma save_to_parquet_run (self : ParquetLoader.t) df D os :
  ParquetLoader._save_to_parquet self df D os =
  match FS.mkdir_from [] (ParquetLoader._get_hive_partition_path self D)
          (FS.files os) with
  | Raise e => (os, Raise e)
  | Ok fs1 =>
      let out := ParquetLoader.output_path_for self D in
      match fs1 !! out with
      | Some FS.Dir => (FS.mkOS fs1 (FS.cwd os), Raise IsADirectoryError)
      | _ =>
          (FS.mkOS (<[out := FS.File df]> fs1) (FS.cwd os),
           match PurePath.relative_to out (FS.cwd os) with
           | Raise e => Raise e
           | Ok _ => Ok out
           end)
      end
  end.
Proof.
  unfold ParquetLoader._save_to_parquet, FileUtils.ensure_path_exists,
    FS.mkdir_parents, FS.to_parquet, bind, get, ret, raise.
  destruct (FS.mkdir_from [] _ (FS.files os)) as [fs1|e]; simpl; [|done].
  destruct (fs1 !! _) as [[|c]|]; simpl; try done;
    by destruct (PurePath.relative_to _ _).
Qed.

Lemma relative_to_raises p other e :
  PurePath.relative_to p other = Raise e -> exists msg, e = ValueError msg.
Proof.
  unfold PurePath.relative_to. destruct (PurePath.is_prefix other p); [done|].
  intros [= <-]. by eexists.
Qed.

End Directories.
Section SaveTwice.

Lemma wrote_inv (self : ParquetLoader.t) df D os :
  wrote (snd (ParquetLoader._save_to_parquet self df D os)) ->
  exists fs1,
    FS.mkdir_from [] (ParquetLoader._get_hive_partition_path self D)
      (FS.files os) = Ok fs1 /\
    fs1 !! ParquetLoader.output_path_for self D <> Some FS.Dir /\
    FS.files (fst (ParquetLoader._save_to_parquet self df D os))
    = <[ParquetLoader.output_path_for self D := FS.File df]> fs1 /\
    FS.cwd (fst (ParquetLoader._save_to_parquet self df D os)) = FS.cwd os.
Proof.
  rewrite save_to_parquet_run.
  destruct (FS.mkdir_from [] _ (FS.files os)) as [fs1|e] eqn:Hmk.
  - cbv zeta.
    destruct (fs1 !! ParquetLoader.output_path_for self D) as [[|c]|] eqn:E;
      simpl; [done|..]; intros _; exists fs1; (split; [done|]);
      (split; [congruence|done]).
  - simpl. destruct (mkdir_from_raises _ _ _ _ Hmk) as [-> | ->]; done.
Qed.

Lemma partition_path_length (self : ParquetLoader.t) D :
  Datetime.valid D ->
  length (ParquetLoader._get_hive_partition_path self D)
  = (length (ParquetLoader.base_path self) + 3)%nat /\
  length (ParquetLoader.output_path_for self D)
  = (length (ParquetLoader.base_path self) + 4)%nat.
Proof.
  intros HD. rewrite output_path_for_last, hive_partition_path_spec by done.
  unfold Spec.hive_dir. rewrite !length_app. simpl. lia.
Qed.

(** A save leaves every file other than its own as it is. *)
Lemma save_to_parquet_frame (self : ParquetLoader.t) df D os q :
  Datetime.valid D ->
  (length (ParquetLoader.base_path self) + 3 < length q)%nat ->
  q <> ParquetLoader.output_path_for self D ->
  FS.files (fst (ParquetLoader._save_to_parquet self df D os)) !! q
  = FS.files os !! q.
Proof.
  intros HD Hlen Hne. rewrite save_to_parquet_run.
  destruct (partition_path_length self D HD) as [Hl _].
  destruct (FS.mkdir_from [] _ (FS.files os)) as [fs1|e] eqn:Hmk; [|done].
  assert (fs1 !! q = FS.files os !! q) as Hframe.
  { eapply mkdir_from_frame; [done|]. simpl. lia. }
  cbv zeta.
  destruct (fs1 !! ParquetLoader.output_path_for self D) as [[|c]|]; simpl;
    rewrite ?lookup_insert_ne by done; done.
Qed.

End SaveTwice.

(** X19.  Saving again.  After a save that wrote its file, a second save
    by the same Loader for a date of the same calendar day also writes,
    and the file then holds the second frame alone: the first is lost.
    A second save for another day, whether it succeeds or not, leaves
    the file of the first as it was. *)
Theorem save_to_parquet_again
    (self : ParquetLoader.t) (df1 df2 : DataFrame) (D1 D2 : datetime) (os : OS) :
  Datetime.valid D1 -> Datetime.valid D2 ->
  wrote (snd (ParquetLoader._save_to_parquet self df1 D1 os)) ->
  let out1 := ParquetLoader.output_path_for self D1 in
  let os1 := fst (ParquetLoader._save_to_parquet self df1 D1 os) in
  let os2 := fst (ParquetLoader._save_to_parquet self df2 D2 os1) in
  FS.files os1 !! out1 = Some (FS.File df1) /\
  (same_day D1 D2 ->
   wrote (snd (ParquetLoader._save_to_parquet self df2 D2 os1)) /\
   FS.files os2 !! out1 = Some (FS.File df2)) /\
  (~ same_day D1 D2 -> FS.files os2 !! out1 = Some (FS.File df1)).
Proof.
  intros HD1 HD2 Hw out1 os1 os2.
  destruct (wrote_inv self df1 D1 os Hw) as (fs1 & Hmk & Hnodir & Hfiles & Hcwd).
  fold os1 in Hfiles, Hcwd. fold out1 in Hfiles, Hnodir.
  assert (FS.files os1 !! out1 = Some (FS.File df1)) as Hfirst
    by (by rewrite Hfiles, lookup_insert_eq).
  split; [done|]. split.
  - intros Hsame.
    assert (ParquetLoader.output_path_for self D2 = out1) as Hout
      by (symmetry; by apply output_path_for_same_day).
    assert (ParquetLoader._get_hive_partition_path self D2
            = ParquetLoader._get_hive_partition_path self D1) as Hdir.
    { destruct Hsame as (Hy & Hm & Hd).
      unfold ParquetLoader._get_hive_partition_path. by rewrite Hy, Hm, Hd. }
    assert (FS.mkdir_from [] (ParquetLoader._get_hive_partition_path self D1)
              (FS.files os1) = Ok (FS.files os1)) as Hagain.
    { apply mkdir_from_again. intros k Hk. rewrite Hfiles.
      rewrite lookup_insert_ne.
      - by apply (mkdir_from_dirs [] _ (FS.files os) fs1 k).
      - intros Heq. apply (f_equal length) in Heq.
        destruct (partition_path_length self D1 HD1) as [Hl1 Hl2].
        fold out1 in Hl2. simpl in Heq. rewrite length_take in Heq. lia. }
    subst os2. rewrite save_to_parquet_run, Hdir, Hagain, Hout. cbv zeta.
    rewrite Hfirst. simpl. split; [|by rewrite lookup_insert_eq].
    destruct (PurePath.relative_to out1 (FS.cwd os1)) as [p|e] eqn:Hrel;
      [done|].
    by destruct (relative_to_raises _ _ _ Hrel) as [msg ->].
  - intros Hdiff. subst os2.
    rewrite save_to_parquet_frame; [done|done|..].
    + destruct (partition_path_length self D1 HD1) as [_ Hl2].
      fold out1 in Hl2. lia.
    + intros Heq. apply Hdiff.
      apply (output_path_for_same_day self D1 D2 HD1 HD2). by subst out1.
Qed.

Lemma save_to_parquet_again_witness :
  let self := ParquetLoader.__init__ None in
  let D := Datetime.date 2025 2 11 in
  let os := FS.mkOS ∅ [] in
  (Datetime.valid D /\
   wrote (snd (ParquetLoader._save_to_parquet self [[PInt 1]] D os))) /\
  FS.files
    (fst (ParquetLoader._save_to_parquet self [[PInt 2]] D
            (fst (ParquetLoader._save_to_parquet self [[PInt 1]] D os))))
    !! ParquetLoader.output_path_for self D
  = Some (FS.File [[PInt 2]]).
Proof.
  intros self D os.
  assert (Datetime.valid D) as HD by (repeat split; vm_compute; congruence).
  assert (wrote (snd (ParquetLoader._save_to_parquet self [[PInt 1]] D os)))
    as Hw by (vm_compute; exact I).
  split; [done|].
  apply (save_to_parquet_again self [[PInt 1]] [[PInt 2]] D D os HD HD Hw).
  by repeat split.
Defined.
(* ------------------------------------------------------------------ *)
(** ** The days [list_raw_files_in_range] visits *)
(* ------------------------------------------------------------------ *)

Section Visits.
Import Datetime.

(** An earlier day has a smaller ordinal. *)
Lemma date_lt_toordinal a b :
  valid a -> valid b ->
  year a < year b \/
  (year a = year b /\
   (month a < month b \/ (month a = month b /\ day a < day b))) ->
  toordinal a < toordinal b.
Proof.
  intros (Hya & Hma & Hda & _) (Hyb & Hmb & Hdb & _) H.
  unfold toordinal.
  pose proof (day_of_year_bounds _ _ _ Hma Hda) as Ba.
  pose proof (day_of_year_bounds _ _ _ Hmb Hdb) as Bb.
  destruct H as [Hy|[Hy [Hm|[Hm Hd]]]].
  - pose proof (days_before_year_mono (year a + 1) (year b) ltac:(lia)) as Hmono.
    rewrite days_before_next_year in Hmono.
    destruct (is_leap (year a)); lia.
  - rewrite Hy in *.
    pose proof (day_of_year_mono (year b) (month a) (day a) (month b) (day b)
                  Hma Hmb Hda Hdb Hm). lia.
  - rewrite Hy, Hm. lia.
Qed.

Lemma le_fields a b :
  le a b =
  (year a <? year b) || ((year a =? year b) &&
  ((month a <? month b) || ((month a =? month b) &&
  ((day a <? day b) || ((day a =? day b) && time_le a b))))).
Proof. reflexivity. Qed.

(** The order of two datetimes is the order of their days, and on one
    day that of their times. *)
Lemma le_by_ordinal a b :
  valid a -> valid b ->
  le a b =
  (toordinal a <? toordinal b) ||
  ((toordinal a =? toordinal b) && time_le a b).
Proof.
  intros Ha Hb. rewrite le_fields.
  pose proof (date_lt_toordinal a b Ha Hb) as Hab.
  pose proof (date_lt_toordinal b a Hb Ha) as Hba.
  destruct (Z.lt_trichotomy (year a) (year b)) as [Hy|[Hy|Hy]].
  - specialize (Hab ltac:(lia)).
    rewrite (proj2 (Z.ltb_lt _ _) Hy), (proj2 (Z.ltb_lt _ _) Hab). done.
  - destruct (Z.lt_trichotomy (month a) (month b)) as [Hm|[Hm|Hm]].
    + specialize (Hab ltac:(lia)).
      rewrite (proj2 (Z.ltb_lt (month a) _) Hm), (proj2 (Z.ltb_lt _ _) Hab).
      rewrite (proj2 (Z.eqb_eq (year a) _) Hy). by rewrite orb_true_r.
    + destruct (Z.lt_trichotomy (day a) (day b)) as [Hd|[Hd|Hd]].
      * specialize (Hab ltac:(lia)).
        rewrite (proj2 (Z.ltb_lt (day a) _) Hd), (proj2 (Z.ltb_lt _ _) Hab).
        rewrite (proj2 (Z.eqb_eq (year a) _) Hy),
          (proj2 (Z.eqb_eq (month a) _) Hm).
        by rewrite !orb_true_r.
      * assert (toordinal a = toordinal b) as Ho
          by (unfold toordinal; by rewrite Hy, Hm, Hd).
        rewrite Ho, Hy, Hm, Hd, !Z.ltb_irrefl, !Z.eqb_refl. done.
      * specialize (Hba ltac:(lia)).
        rewrite (proj2 (Z.ltb_ge (toordinal a) _)) by lia.
        rewrite (proj2 (Z.eqb_neq (toordinal a) _)) by lia.
        rewrite (proj2 (Z.ltb_ge (year a) _)) by lia.
        rewrite (proj2 (Z.ltb_ge (month a) _)) by lia.
        rewrite (proj2 (Z.ltb_ge (day a) _)) by lia.
        rewrite (proj2 (Z.eqb_neq (day a) _)) by lia.
        by rewrite !andb_false_r.
    + specialize (Hba ltac:(lia)).
      rewrite (proj2 (Z.ltb_ge (toordinal a) _)) by lia.
      rewrite (proj2 (Z.eqb_neq (toordinal a) _)) by lia.
      rewrite (proj2 (Z.ltb_ge (year a) _)) by lia.
      rewrite (proj2 (Z.ltb_ge (month a) _)) by lia.
      rewrite (proj2 (Z.eqb_neq (month a) _)) by lia.
      by rewrite !andb_false_r.
  - specialize (Hba ltac:(lia)).
    rewrite (proj2 (Z.ltb_ge (toordinal a) _)) by lia.
    rewrite (proj2 (Z.eqb_neq (toordinal a) _)) by lia.
    rewrite (proj2 (Z.ltb_ge (year a) _)) by lia.
    rewrite (proj2 (Z.eqb_neq (year a) _)) by lia.
    done.
Qed.

Lemma add_one_day_time a b :
  add_one_day a = Some b -> time_of_day b = time_of_day a.
Proof.
  unfold add_one_day. repeat case_match; try done; by intros [= <-].
Qed.

(** The day after a day that is not the last of the last year. *)
Lemma add_one_day_some a :
  valid a -> year a < MAXYEAR -> exists b, add_one_day a = Some b.
Proof.
  intros _ Hy. unfold add_one_day.
  repeat case_match; try by eexists.
  apply Z.ltb_ge in H1. lia.
Qed.

Lemma le_year a b : le a b = true -> year a <= year b.
Proof.
  unfold le, fields. intros H. apply lex_le_cons in H. lia.
Qed.

End Visits.
Section VisitedDays.
Import Datetime.

Lemma time_le_next a b c :
  add_one_day a = Some b -> time_le b c = time_le a c.
Proof.
  intros H. unfold time_le. by rewrite (add_one_day_time a b H).
Qed.

Lemma range_loop_visits os end_date n :
  valid end_date -> year end_date < MAXYEAR ->
  forall current files fuel,
    valid current ->
    days_visited current end_date = n ->
    (n < fuel)%nat ->
    FileUtils.range_loop fuel os current end_date files
    = Some (Ok (files ++
                List.filter (fun p => FS.path_exists p os)
                  (List.map Config.get_raw_file_path (days_from n current)))).
Proof.
  intros He Hmax. induction n as [|n IH]; intros current files fuel Hc Hn Hfuel.
  - destruct fuel as [|fuel]; [lia|]. simpl.
    rewrite (le_by_ordinal current end_date Hc He).
    unfold days_visited in Hn.
    destruct (time_le current end_date).
    + rewrite (proj2 (Z.ltb_ge _ _)) by lia.
      rewrite (proj2 (Z.eqb_neq _ _)) by lia. simpl. by rewrite app_nil_r.
    + rewrite (proj2 (Z.ltb_ge _ _)) by lia.
      rewrite andb_false_r. simpl. by rewrite app_nil_r.
  - destruct fuel as [|fuel]; [lia|]. cbn [FileUtils.range_loop].
    assert (le current end_date = true) as Hle.
    { rewrite (le_by_ordinal current end_date Hc He).
      unfold days_visited in Hn.
      destruct (time_le current end_date).
      - destruct (Z.lt_trichotomy (toordinal current) (toordinal end_date))
          as [H|[H|H]]; [|rewrite H, Z.eqb_refl; by rewrite orb_true_r|lia].
        by rewrite (proj2 (Z.ltb_lt _ _) H).
      - rewrite (proj2 (Z.ltb_lt _ _)) by lia. done. }
    rewrite Hle.
    destruct (add_one_day_some current Hc) as [next Hnext].
    { pose proof (le_year _ _ Hle). lia. }
    rewrite Hnext.
    destruct (add_one_day_next current next Hc Hnext) as [Hv Hord].
    cbn [days_from List.map]. rewrite Hnext.
    rewrite (IH next _ fuel Hv); [| |lia].
    + cbn [List.filter].
      destruct (FS.path_exists (Config.get_raw_file_path current) os);
        by rewrite <- ?app_assoc.
    + unfold days_visited in *. rewrite (time_le_next current next) by done.
      rewrite Hord. lia.
Qed.

(** The ordinals of the days that are visited. *)
Lemma days_from_ordinal n current D :
  valid current -> D ∈ days_from n current ->
  valid D /\ time_of_day D = time_of_day current /\
  toordinal current <= toordinal D < toordinal current + Z.of_nat n.
Proof.
  revert current. induction n as [|n IH]; intros current Hc; simpl.
  - intros H. by apply elem_of_nil in H.
  - intros H. apply elem_of_cons in H as [->|H]; [split; [done|split; [done|lia]]|].
    destruct (add_one_day current) as [next|] eqn:Hnext;
      [|by apply elem_of_nil in H].
    destruct (add_one_day_next current next Hc Hnext) as [Hv Hord].
    destruct (IH next Hv H) as (HvD & Ht & Ho).
    split; [done|]. split; [by rewrite Ht, (add_one_day_time current next)|].
    lia.
Qed.

End VisitedDays.

(** X20.  [list_raw_files_in_range(start, end)], for two dates the
    constructor of [datetime] accepts and an end before the last year,
    returns the raw file paths of the days it visits that exist, in the
    order of the days.  The days visited are the day of [start], the day
    after, and so on, each at the time of day of [start], as long as
    they are not after [end]: none when [start] is after [end], and the
    day of [end] itself only when the time of day of [start] is not
    after that of [end]. *)
Theorem list_raw_files_in_range_visits_each_day
    (start_date end_date : datetime) (os : OS) :
  Datetime.valid start_date -> Datetime.valid end_date ->
  Datetime.year end_date < Datetime.MAXYEAR ->
  FileUtils.list_raw_files_in_range start_date end_date os
  = Some (Ok (List.filter (fun p => FS.path_exists p os)
                (List.map Config.get_raw_file_path
                   (days_from (days_visited start_date end_date) start_date)))) /\
  (Datetime.le start_date end_date = false ->
   FileUtils.list_raw_files_in_range start_date end_date os = Some (Ok [])) /\
  (time_le start_date end_date = false ->
   forall found,
     FileUtils.list_raw_files_in_range start_date end_date os = Some (Ok found) ->
     Config.get_raw_file_path end_date ∉ found).
Proof.
  intros Hs He Hmax.
  assert (FileUtils.list_raw_files_in_range start_date end_date os
          = Some (Ok (List.filter (fun p => FS.path_exists p os)
                        (List.map Config.get_raw_file_path
                           (days_from (days_visited start_date end_date)
                              start_date))))) as Hrun.
  { unfold FileUtils.list_raw_files_in_range.
    rewrite (range_loop_visits os end_date (days_visited start_date end_date)
               He Hmax start_date [] _ Hs eq_refl); [done|].
    unfold FileUtils.range_fuel, days_visited.
    destruct (time_le start_date end_date); lia. }
  split; [exact Hrun|]. split.
  - intros Hle. rewrite Hrun.
    rewrite (le_by_ordinal start_date end_date Hs He) in Hle.
    apply orb_false_iff in Hle as [H1 H2]. apply Z.ltb_ge in H1.
    assert (days_visited start_date end_date = 0%nat) as ->; [|done].
    unfold days_visited. destruct (time_le start_date end_date); [|lia].
    rewrite andb_true_r in H2. apply Z.eqb_neq in H2. lia.
  - intros Htime found Hfound Hin. rewrite Hrun in Hfound.
    injection Hfound as <-.
    apply list_elem_of_In, filter_In in Hin as [Hin _].
    apply in_map_iff in Hin as (D & Hpath & HD).
    apply list_elem_of_In in HD.
    destruct (days_from_ordinal _ _ _ Hs HD) as (Hv & _ & Ho).
    apply (raw_file_path_same_day D end_date Hv He) in Hpath
      as (Hy & Hm & Hd).
    assert (Datetime.toordinal D = Datetime.toordinal end_date) as Heq
      by (unfold Datetime.toordinal; by rewrite Hy, Hm, Hd).
    unfold days_visited in Ho. rewrite Htime in Ho. lia.
Qed.

Lemma list_raw_files_in_range_visits_each_day_witness :
  let start_date := Datetime.mk 2025 2 10 12 0 0 0 in
  let end_date := Datetime.date 2025 2 11 in
  let p := Config.get_raw_file_path end_date in
  let os := FS.mkOS {[ p := FS.File [] ]} [] in
  (Datetime.valid start_date /\ Datetime.valid end_date /\
   Datetime.year end_date < Datetime.MAXYEAR) /\
  FS.path_exists p os = true /\
  FileUtils.list_raw_files_in_range start_date end_date os = Some (Ok []).
Proof.
  intros start_date end_date p os.
  assert (Datetime.valid start_date) as Hs by (repeat split; vm_compute; congruence).
  assert (Datetime.valid end_date) as He by (repeat split; vm_compute; congruence).
  assert (Datetime.year end_date < Datetime.MAXYEAR) as Hmax by (vm_compute; done).
  split; [done|]. split; [by vm_compute|].
  rewrite (proj1 (list_raw_files_in_range_visits_each_day start_date end_date os
                    Hs He Hmax)).
  by vm_compute.
Defined.
(* ------------------------------------------------------------------ *)
(** ** [ensure_path_exists] and the options of the factory *)
(* ------------------------------------------------------------------ *)

Section EnsurePath.

(** When [mkdir] fails, a regular file is at the path or above it. *)
Lemma mkdir_from_file_in_the_way done_ todo fs e :
  FS.mkdir_from done_ todo fs = Raise e ->
  exists k c, (0 < k <= length todo)%nat /\
    fs !! (done_ ++ take k todo) = Some (FS.File c).
Proof.
  revert done_ fs. induction todo as [|part rest IH]; intros done_ fs; simpl;
    [done|].
  destruct (fs !! (done_ ++ [part])) as [[|c]|] eqn:E.
  - intros H. destruct (IH _ _ H) as (k & c & Hk & Hc).
    exists (S k), c. split; [lia|]. simpl. by rewrite <- app_assoc in Hc.
  - intros _. exists 1%nat, c. split; [lia|]. by simpl.
  - intros H. destruct (IH _ _ H) as (k & c & Hk & Hc).
    exists (S k), c. split; [lia|]. simpl. rewrite <- app_assoc in Hc.
    rewrite lookup_insert_ne in Hc; [done|].
    intros Heq. apply (f_equal length) in Heq.
    rewrite !length_app in Heq. simpl in Heq.
    rewrite length_take in Heq. lia.
Qed.

End EnsurePath.

(** X21.  [ensure_path_exists(path)] returns the path it was given,
    with the directory and every directory above it in place, and what
    existed before is left as it was; a second call then changes
    nothing.  It raises, [FileExistsError] or [NotADirectoryError] and
    without creating anything, exactly when a regular file is at the
    path or at one of the directories above it. *)
Theorem ensure_path_exists_makes_ancestors (path : Path) (os : OS) :
  match FileUtils.ensure_path_exists path os with
  | (os', Ok p) =>
      p = path /\
      (forall k, (0 < k <= length path)%nat ->
         FS.files os' !! take k path = Some FS.Dir) /\
      (forall q x, FS.files os !! q = Some x -> FS.files os' !! q = Some x) /\
      FileUtils.ensure_path_exists path os' = (os', Ok path)
  | (os', Raise e) =>
      os' = os /\ (e = FileExistsError \/ e = NotADirectoryError) /\
      exists k c, (0 < k <= length path)%nat /\
        FS.files os !! take k path = Some (FS.File c)
  end /\
  ((forall k c, (0 < k <= length path)%nat ->
      FS.files os !! take k path <> Some (FS.File c)) ->
   exists os', FileUtils.ensure_path_exists path os = (os', Ok path)).
Proof.
  unfold FileUtils.ensure_path_exists, FS.mkdir_parents, bind, ret.
  destruct (FS.mkdir_from [] path (FS.files os)) as [fs'|e] eqn:Hmk; simpl.
  - split; [|by eexists].
    split; [done|]. split; [|split].
    + intros k Hk. by apply (mkdir_from_dirs [] path (FS.files os) fs' k).
    + intros q x. by apply (mkdir_from_keeps [] path (FS.files os) fs').
    + rewrite mkdir_from_again; [done|].
      intros k Hk. by apply (mkdir_from_dirs [] path (FS.files os) fs' k).
  - destruct (mkdir_from_file_in_the_way _ _ _ _ Hmk) as (k & c & Hk & Hc).
    split.
    + split; [done|]. split; [by apply (mkdir_from_raises _ _ _ _ Hmk)|].
      by exists k, c.
    + intros Hfree. by destruct (Hfree k c Hk).
Qed.


(* ------------------------------------------------------------------ *)
(** ** The partition values [get_data_summary] reads off a path *)
(* ------------------------------------------------------------------ *)

Section PartitionValues.
Import DataSummary.

Lemma split_at_no_sep cur s :
  all_chars not_equals_sign s = true ->
  split_at "=" cur s = [String.rev_app cur s].
Proof.
  revert cur. induction s as [|c s IH]; intros cur; simpl.
  - done.
  - intros H. apply andb_true_iff in H as [Hc Hs].
    unfold not_equals_sign in Hc. apply negb_true_iff in Hc. rewrite Hc.
    by rewrite IH.
Qed.

Lemma split_at_nonempty sep cur s : split_at sep cur s <> [].
Proof.
  revert cur. induction s as [|c s IH]; intros cur; simpl; [done|].
  destruct (Ascii.eqb c sep); [done|apply IH].
Qed.

Lemma dec_not_equals_sign c : is_dec_char c = true -> not_equals_sign c = true.
Proof.
  revert c.
  assert (all_ascii (fun c => implb (is_dec_char c) (not_equals_sign c)) = true)
    as H by (by vm_compute).
  intros c Hc. pose proof (all_ascii_spec _ H c) as Hi. cbv beta in Hi.
  by rewrite Hc in Hi.
Qed.

Lemma startswith_inv s p :
  PyStr.startswith s p = true -> exists rest, s = p +:+ rest.
Proof.
  revert s. induction p as [|a p IH]; intros s; [by exists s|].
  destruct s as [|b s]; [done|]. simpl.
  intros H. apply andb_true_iff in H as [Hab Hs].
  apply Ascii.eqb_eq in Hab as ->.
  destruct (IH s Hs) as [rest ->]. by exists rest.
Qed.

(** A part that starts with [key=] has a value. *)
Lemma value_of_key key rest :
  all_chars not_equals_sign key = true ->
  exists v, value_of (key +:+ "=" +:+ rest) = Ok v.
Proof.
  intros Hkey. unfold value_of, split.
  assert (forall cur,
            split_at "=" cur (key +:+ "=" +:+ rest)
            = String.rev_app cur key :: split_at "=" EmptyString rest) as ->.
  { induction key as [|c key IH]; intros cur.
    - change (split_at "=" cur (String "=" rest)
              = String.rev_app cur "" :: split_at "=" "" rest).
      reflexivity.
    - change (split_at "=" cur (String c (key +:+ "=" +:+ rest))
              = String.rev_app cur (String c key) :: split_at "=" "" rest).
      simpl in Hkey. apply andb_true_iff in Hkey as [Hc Hkey].
      unfold not_equals_sign in Hc. apply negb_true_iff in Hc.
      simpl. rewrite Hc. by rewrite IH. }
  pose proof (split_at_nonempty "=" EmptyString rest).
  destruct (split_at "=" "" rest) as [|v l]; [done|]. by exists v.
Qed.

Lemma value_of_digits key x :
  all_chars not_equals_sign key = true ->
  all_chars is_dec_char x = true ->
  value_of (key +:+ "=" +:+ x) = Ok x.
Proof.
  intros Hkey Hx. unfold value_of, split.
  assert (forall cur,
            split_at "=" cur (key +:+ "=" +:+ x)
            = [String.rev_app cur key; x]) as ->; [|done].
  induction key as [|c key IH]; intros cur.
  - change (split_at "=" cur (String "=" x) = [String.rev_app cur ""; x]).
    cbn [split_at Ascii.eqb Bool.eqb]. rewrite split_at_no_sep; [done|].
    eapply all_chars_impl; [apply dec_not_equals_sign|done].
  - change (split_at "=" cur (String c (key +:+ "=" +:+ x))
            = [String.rev_app cur (String c key); x]).
    simpl in Hkey. apply andb_true_iff in Hkey as [Hc Hkey].
    unfold not_equals_sign in Hc. apply negb_true_iff in Hc.
    simpl. rewrite Hc. by rewrite IH.
Qed.

Lemma scan_returns acc part : exists acc', scan acc part = Ok acc'.
Proof.
  unfold scan.
  destruct (PyStr.startswith part "year=") eqn:Hy.
  { apply startswith_inv in Hy as [rest ->].
    destruct (value_of_key "year" rest eq_refl) as [v Hv].
    change ("year=" +:+ rest) with ("year" +:+ "=" +:+ rest).
    rewrite Hv. by eexists. }
  destruct (PyStr.startswith part "month=") eqn:Hm.
  { apply startswith_inv in Hm as [rest ->].
    destruct (value_of_key "month" rest eq_refl) as [v Hv].
    change ("month=" +:+ rest) with ("month" +:+ "=" +:+ rest).
    rewrite Hv. by eexists. }
  destruct (PyStr.startswith part "day=") eqn:Hd; [|by eexists].
  apply startswith_inv in Hd as [rest ->].
  destruct (value_of_key "day" rest eq_refl) as [v Hv].
  change ("day=" +:+ rest) with ("day" +:+ "=" +:+ rest).
  rewrite Hv. by eexists.
Qed.

Lemma scan_parts_returns parts acc : exists v, scan_parts acc parts = Ok v.
Proof.
  revert acc. induction parts as [|part rest IH]; intros acc; simpl;
    [by eexists|].
  destruct (scan_returns acc part) as [acc' ->]. apply IH.
Qed.

Lemma scan_parts_app acc l1 l2 :
  scan_parts acc (l1 ++ l2)
  = match scan_parts acc l1 with
    | Ok acc' => scan_parts acc' l2
    | Raise e => Raise e
    end.
Proof.
  revert acc. induction l1 as [|part l1 IH]; intros acc; simpl; [done|].
  destruct (scan acc part); [apply IH|done].
Qed.

End PartitionValues.

(** X23.  The loop of [get_data_summary] over the parts of a path never
    raises: a part that starts with [year=], [month=] or [day=] always
    has a piece after the equals sign, so the index [[1]] is in range. *)
Theorem partition_values_never_raises (file_path : Path) :
  exists v, DataSummary.partition_values file_path = Ok v.
Proof. apply scan_parts_returns. Qed.

(** X24.  Round trip with the Loader.  From the path the Loader writes
    for a date the constructor of [datetime] accepts, the loop of
    [get_data_summary] reads back the year as [str(year)] and the month
    and the day as their two digits, whatever the base path is: the
    parts of the partition come after those of the base and so have the
    last word. *)
Theorem partition_values_of_output_path (self : ParquetLoader.t) (D : datetime) :
  Datetime.valid D ->
  DataSummary.partition_values (ParquetLoader.output_path_for self D)
  = Ok (DataSummary.mkValues
          (Some (PyStr.str_int (Datetime.year D)))
          (Some (Spec.two_digits (Datetime.month D)))
          (Some (Spec.two_digits (Datetime.day D)))).
Proof.
  intros HD. pose proof HD as (Hy & Hm & Hd & _).
  pose proof (days_in_month_le_31 (Datetime.year D) (Datetime.month D)).
  rewrite output_path_for_last, hive_partition_path_spec by done.
  unfold DataSummary.partition_values, Spec.hive_dir.
  rewrite <- app_assoc, scan_parts_app.
  destruct (scan_parts_returns (ParquetLoader.base_path self)
              (DataSummary.mkValues None None None)) as [acc ->].
  cbn [app DataSummary.scan_parts].
  assert (forall x, all_chars is_dec_char x = true ->
            DataSummary.scan acc ("year=" +:+ x)
            = Ok (DataSummary.mkValues (Some x) (DataSummary.month acc)
                    (DataSummary.day acc))) as Hyear.
  { intros x Hx. unfold DataSummary.scan.
    change (PyStr.startswith ("year=" +:+ x) "year=") with true. cbv iota.
    change ("year=" +:+ x) with ("year" +:+ "=" +:+ x).
    by rewrite value_of_digits. }
  assert (forall acc x, all_chars is_dec_char x = true ->
            DataSummary.scan acc ("month=" +:+ x)
            = Ok (DataSummary.mkValues (DataSummary.year acc) (Some x)
                    (DataSummary.day acc))) as Hmonth.
  { intros acc0 x Hx. unfold DataSummary.scan.
    change (PyStr.startswith ("month=" +:+ x) "year=") with false.
    change (PyStr.startswith ("month=" +:+ x) "month=") with true. cbv iota.
    change ("month=" +:+ x) with ("month" +:+ "=" +:+ x).
    by rewrite value_of_digits. }
  assert (forall acc x, all_chars is_dec_char x = true ->
            DataSummary.scan acc ("day=" +:+ x)
            = Ok (DataSummary.mkValues (DataSummary.year acc)
                    (DataSummary.month acc) (Some x))) as Hday.
  { intros acc0 x Hx. unfold DataSummary.scan.
    change (PyStr.startswith ("day=" +:+ x) "year=") with false.
    change (PyStr.startswith ("day=" +:+ x) "month=") with false.
    change (PyStr.startswith ("day=" +:+ x) "day=") with true. cbv iota.
    change ("day=" +:+ x) with ("day" +:+ "=" +:+ x).
    by rewrite value_of_digits. }
  rewrite Hyear by apply str_int_dec.
  rewrite Hmonth
    by (rewrite <- format_0d_two_digits by lia; apply format_0d_dec).
  rewrite Hday
    by (rewrite <- format_0d_two_digits by lia; apply format_0d_dec).
  cbn [DataSummary.year DataSummary.month DataSummary.day].
  rewrite (filename_for_spec D HD). unfold Spec.partition_file_name.
  unfold DataSummary.scan.
  change (PyStr.startswith ("case_history_" +:+ ?x) "year=") with false.
  reflexivity.
Qed.

Lemma partition_values_of_output_path_witness :
  Datetime.valid (Datetime.date 2025 2 11) /\
  DataSummary.partition_values
    (ParquetLoader.output_path_for (ParquetLoader.__init__ None)
       (Datetime.date 2025 2 11))
  = Ok (DataSummary.mkValues (Some "2025") (Some "02") (Some "11")).
Proof.
  assert (Datetime.valid (Datetime.date 2025 2 11)) as HD
    by (repeat split; vm_compute; congruence).
  split; [exact HD|].
  exact (partition_values_of_output_path (ParquetLoader.__init__ None)
           (Datetime.date 2025 2 11) HD).
Defined.
(* ------------------------------------------------------------------ *)
(** ** Loading a source file *)
(* ------------------------------------------------------------------ *)

Section LoadSources.
Import LoaderSources.

Variable read_csv : Path -> OS -> result DataFrame.
Variable read_excel : Path -> pyval -> OS -> result DataFrame.
Variable now : datetime.




End LoadSources.



(* ------------------------------------------------------------------ *)
(** ** The folders of [setup_project.py] *)
(* ------------------------------------------------------------------ *)

Section Entries.

Lemma keeps_entry_ret {A} q (a : A) : keeps_entry q (@ret OS A a).
Proof. by intros os. Qed.

Lemma keeps_entry_raise {A} q e : keeps_entry q (@raise OS A e).
Proof. by intros os. Qed.

Lemma keeps_entry_bind {A B} q (m : M OS A) (k : A -> M OS B) :
  keeps_entry q m -> (forall a, keeps_entry q (k a)) -> keeps_entry q (bind m k).
Proof.
  intros Hm Hk os. unfold bind. specialize (Hm os).
  destruct (m os) as [os1 [a|e]]; simpl in *; [|done].
  by rewrite (Hk a os1).
Qed.

Lemma keeps_entry_get_bind {A} q (k : OS -> M OS A) :
  (forall o, keeps_entry q (k o)) -> keeps_entry q (bind get k).
Proof. intros Hk os. unfold bind, get. apply Hk. Qed.

Lemma keeps_entries_ret {A} (a : A) : keeps_entries (@ret OS A a).
Proof. by intros os. Qed.

Lemma keeps_entries_raise {A} e : keeps_entries (@raise OS A e).
Proof. by intros os. Qed.

Lemma keeps_entries_bind {A B} (m : M OS A) (k : A -> M OS B) :
  keeps_entries m -> (forall a, keeps_entries (k a)) -> keeps_entries (bind m k).
Proof.
  intros Hm Hk os q x Hq. unfold bind. specialize (Hm os q x Hq).
  destruct (m os) as [os1 [a|e]]; simpl in *; [|done].
  by apply (Hk a os1).
Qed.

(** [mkdir] changes nothing but the path and what is above it. *)
Lemma mkdir_from_frame_off_path done_ todo fs fs' q :
  FS.mkdir_from done_ todo fs = Ok fs' ->
  (forall k, (0 < k <= length todo)%nat -> done_ ++ take k todo <> q) ->
  fs' !! q = fs !! q.
Proof.
  revert done_ fs. induction todo as [|part rest IH]; intros done_ fs; simpl.
  - by intros [= ->].
  - intros Hmk Hoff.
    assert (done_ ++ [part] <> q) as Hne
      by (apply (Hoff 1%nat); simpl; lia).
    assert (forall k, (0 < k <= length rest)%nat ->
              (done_ ++ [part]) ++ take k rest <> q) as Hoff'.
    { intros k Hk. rewrite <- app_assoc. apply (Hoff (S k)). simpl. lia. }
    destruct (fs !! (done_ ++ [part])) as [[|c]|] eqn:E; [|done|].
    + by apply (IH _ _ Hmk).
    + rewrite (IH _ _ Hmk Hoff'). by rewrite lookup_insert_ne.
Qed.

Lemma keeps_entry_mkdir q p :
  (forall k, (0 < k <= length p)%nat -> take k p <> q) ->
  keeps_entry q (FS.mkdir_parents p).
Proof.
  intros Hoff os. unfold FS.mkdir_parents.
  destruct (FS.mkdir_from [] p (FS.files os)) as [fs'|e] eqn:Hmk; [|done].
  simpl. by apply (mkdir_from_frame_off_path [] p (FS.files os) fs' q).
Qed.

Lemma keeps_entries_mkdir p : keeps_entries (FS.mkdir_parents p).
Proof.
  intros os q x Hq. unfold FS.mkdir_parents.
  destruct (FS.mkdir_from [] p (FS.files os)) as [fs'|e] eqn:Hmk; [|done].
  simpl. by apply (mkdir_from_keeps [] p (FS.files os) fs').
Qed.

Lemma keeps_entry_touch q p : p <> q -> keeps_entry q (SetupProject.touch p).
Proof.
  intros Hne os. unfold SetupProject.touch.
  destruct (FS.files os !! p); [done|].
  destruct (SetupProject.check_parent p os); [|done].
  simpl. by rewrite lookup_insert_ne.
Qed.

Lemma keeps_entries_touch p : keeps_entries (SetupProject.touch p).
Proof.
  intros os q x Hq. unfold SetupProject.touch.
  destruct (FS.files os !! p) eqn:E; [done|].
  destruct (SetupProject.check_parent p os); [|done].
  simpl. rewrite lookup_insert_ne; [done|]. intros Heq. subst q. congruence.
Qed.

Lemma keeps_entry_write_text q p c :
  p <> q -> keeps_entry q (SetupProject.write_text p c).
Proof.
  intros Hne os. unfold SetupProject.write_text.
  destruct (FS.files os !! p) as [[|c0]|];
    [done|..]; (destruct (SetupProject.check_parent p os); [|done]);
    simpl; by rewrite lookup_insert_ne.
Qed.

(** The script writes a text only where nothing exists. *)
Lemma keeps_entries_write_if_missing {A} p c (k : unit -> M OS A) :
  p <> [] ->
  (forall a, keeps_entries (k a)) ->
  keeps_entries
    (bind get (fun os1 =>
       bind (if FS.path_exists p os1 then ret tt
             else SetupProject.write_text p c) k)).
Proof.
  intros Hp Hk os q x Hq. unfold bind at 1. unfold get.
  destruct (FS.path_exists p os) eqn:Hex; [by apply Hk|].
  assert (FS.files os !! p = None) as Hnone.
  { unfold FS.path_exists in Hex. destruct p as [|a p]; [done|].
    apply bool_decide_eq_false in Hex.
    destruct (FS.files os !! (a :: p)) eqn:E; [|done].
    destruct Hex. by eexists. }
  unfold bind, SetupProject.write_text. rewrite Hnone.
  destruct (SetupProject.check_parent p os); [|done].
  apply Hk. simpl. rewrite lookup_insert_ne; [done|].
  intros Heq. subst q. congruence.
Qed.

Lemma keeps_entry_for_each {A} q (f : A -> M OS unit) l :
  (forall x, x ∈ l -> keeps_entry q (f x)) ->
  keeps_entry q (SetupProject.for_each f l).
Proof.
  induction l as [|x l IH]; intros Hf; simpl; [apply keeps_entry_ret|].
  apply keeps_entry_bind.
  - apply Hf. by left.
  - intros _. apply IH. intros y Hy. apply Hf. by right.
Qed.

Lemma keeps_entries_for_each {A} (f : A -> M OS unit) l :
  (forall x, keeps_entries (f x)) ->
  keeps_entries (SetupProject.for_each f l).
Proof.
  intros Hf. induction l as [|x l IH]; simpl; [apply keeps_entries_ret|].
  apply keeps_entries_bind; [apply Hf|]. by intros _.
Qed.

(** A path under another top-level name is none of the directories
    above a path. *)
Lemma take_other_branch (base : Path) a rest name more k :
  a <> name -> take k (base ++ a :: rest) <> base ++ name :: more.
Proof.
  intros Hne Heq.
  destruct (decide (k <= length base)%nat) as [Hk|Hk].
  - apply (f_equal length) in Heq.
    rewrite length_take, !length_app in Heq. simpl in Heq. lia.
  - rewrite take_app_ge in Heq by lia.
    apply app_inv_head in Heq.
    destruct (k - length base)%nat as [|j] eqn:Hj; [lia|].
    simpl in Heq. by injection Heq.
Qed.

(** After the loop over the folders each of them is a directory. *)
Lemma mkdir_each_dirs (base : Path) folders os os' :
  SetupProject.for_each (fun folder => FS.mkdir_parents (base /: folder))
    folders os = (os', Ok tt) ->
  forall folder, folder ∈ folders ->
    base /: folder <> [] ->
    FS.files os' !! (base /: folder) = Some FS.Dir.
Proof.
  revert os. induction folders as [|x l IH]; intros os Hrun folder Hin Hne;
    [by apply elem_of_nil in Hin|].
  simpl in Hrun. unfold bind in Hrun.
  destruct (FS.mkdir_parents (base /: x) os) as [os1 [[]|e]] eqn:Hmk; [|done].
  apply elem_of_cons in Hin as [->|Hin]; [|by apply (IH os1)].
  assert (FS.files os1 !! (base /: x) = Some FS.Dir) as Hdir.
  { unfold FS.mkdir_parents in Hmk.
    destruct (FS.mkdir_from [] (base /: x) (FS.files os)) as [fs'|e] eqn:Hfrom;
      [|done].
    injection Hmk as <-. simpl.
    pose proof (mkdir_from_dirs [] (base /: x) (FS.files os) fs'
                  (length (base /: x)) Hfrom) as H.
    rewrite firstn_all in H. apply H.
    destruct (base /: x); [done|simpl; lia]. }
  assert (keeps_entries
            (SetupProject.for_each
               (fun folder => FS.mkdir_parents (base /: folder)) l)) as Hkeep
    by (apply keeps_entries_for_each; intros y; apply keeps_entries_mkdir).
  specialize (Hkeep os1 _ _ Hdir). by rewrite Hrun in Hkeep.
Qed.

End Entries.
(** Membership in a list that is written out. *)
Ltac in_list :=
  repeat first [apply list_elem_of_here | apply list_elem_of_further].

Ltac not_in_list :=
  let H := fresh "H" in
  intros H;
  repeat (apply elem_of_cons in H as [H|H]; [discriminate H|]);
  by apply elem_of_nil in H.

Section SetupFolders.
Import SetupProject.

Lemma keeps_entry_get_bind_at {A} (k : OS -> M OS A) os q :
  keeps_entry q (k os) ->
  FS.files (fst (bind get k os)) !! q = FS.files os !! q.
Proof. intros H. unfold bind, get. apply H. Qed.

(** Each folder of the list lies under one of the top-level names. *)
Lemma base_folders_branch :
  Forall (fun folder =>
            exists a rest, a ∈ top_level /\
              forall base : Path, base /: folder = base ++ a :: rest)
    base_folders.
Proof.
  unfold base_folders, top_level.
  repeat (apply Forall_cons; split;
          [eexists _, _; split; [|intros base; reflexivity]; in_list|]).
  apply Forall_nil_2.
Qed.

Lemma init_files_branch :
  Forall (fun init_file =>
            exists rest, forall base : Path,
              base /: init_file = base ++ "src" :: rest)
    init_files.
Proof.
  unfold init_files.
  apply Forall_cons; split;
    [exists ["__init__.py"]; intros base; by vm_compute|].
  apply Forall_cons; split;
    [exists ["config"; "__init__.py"]; intros base; by vm_compute|].
  apply Forall_cons; split;
    [exists ["extraction"; "__init__.py"]; intros base; by vm_compute|].
  apply Forall_cons; split;
    [exists ["transformation"; "__init__.py"]; intros base; by vm_compute|].
  apply Forall_cons; split;
    [exists ["reporting"; "__init__.py"]; intros base; by vm_compute|].
  apply Forall_nil_2.
Qed.

Lemma raw_example_path_branch (base : Path) now :
  Datetime.valid now ->
  base /: "data" /: "raw" /: "case_history"
    /: PyStr.str_int (Datetime.year now)
    /: PyStr.format_0d 2 (Datetime.month now)
    /: PyStr.format_0d 2 (Datetime.day now)
  = base ++ "data" :: ["raw"; "case_history";
                       PyStr.str_int (Datetime.year now);
                       PyStr.format_0d 2 (Datetime.month now);
                       PyStr.format_0d 2 (Datetime.day now)].
Proof.
  intros (Hy & Hm & Hd & _).
  pose proof (days_in_month_le_31 (Datetime.year now) (Datetime.month now)).
  change (base /: "data" /: "raw" /: "case_history")
    with (((base ++ ["data"]) ++ ["raw"]) ++ ["case_history"]).
  rewrite (joinpath_digits _ (PyStr.str_int _))
    by (first [apply str_int_dec | apply str_int_nonempty]).
  rewrite (joinpath_digits _ (PyStr.format_0d 2 (Datetime.month now)))
    by (first [apply format_0d_dec
              | rewrite format_0d_two_digits by lia; done]).
  rewrite (joinpath_digits _ (PyStr.format_0d 2 (Datetime.day now)))
    by (first [apply format_0d_dec
              | rewrite format_0d_two_digits by lia; done]).
  by rewrite <- !app_assoc.
Qed.

Lemma bind_ok_split {A B} (m : M OS A) (k : A -> M OS B) os b :
  snd (bind m k os) = Ok b ->
  exists os1 a, m os = (os1, Ok a) /\ bind m k os = k a os1.
Proof.
  unfold bind. destruct (m os) as [os1 [a|e]]; [by eexists _, _|done].
Qed.

Lemma other_branch_ne (base : Path) a rest name more :
  a <> name -> base ++ a :: rest <> base ++ name :: more.
Proof. intros Hne Heq. apply app_inv_head in Heq. by injection Heq. Qed.

Lemma not_top_level name a : name ∉ top_level -> a ∈ top_level -> a <> name.
Proof. intros Hout Hin ->. by apply Hout. Qed.

(** The script leaves alone what lies under any other name. *)
Lemma setup_keeps_other_branches gitignore readme now os name more :
  Datetime.valid now ->
  name ∉ top_level ->
  FS.files (fst (create_project_structure gitignore readme now os))
    !! (FS.cwd os ++ name :: more)
  = FS.files os !! (FS.cwd os ++ name :: more).
Proof.
  intros Hnow Hname. unfold create_project_structure.
  apply keeps_entry_get_bind_at. cbv zeta.
  set (base := FS.cwd os). set (q := base ++ name :: more).
  rewrite (raw_example_path_branch base now Hnow).
  apply keeps_entry_bind; [|intros _; apply keeps_entry_bind;
    [|intros _; apply keeps_entry_bind;
      [|intros _; apply keeps_entry_bind;
        [|intros _; apply keeps_entry_get_bind; intros o1;
          apply keeps_entry_bind;
          [|intros _; apply keeps_entry_get_bind; intros o2;
            apply keeps_entry_bind;
            [|intros _; apply keeps_entry_ret]]]]]].
  - apply keeps_entry_for_each. intros folder Hin.
    pose proof base_folders_branch as HF. rewrite Forall_forall in HF.
    destruct (HF folder Hin) as (a & rest & Ha & Hpath).
    rewrite Hpath. apply keeps_entry_mkdir. intros k _.
    apply take_other_branch. by apply not_top_level.
  - apply keeps_entry_mkdir. intros k _.
    apply take_other_branch. apply not_top_level; [done|].
    unfold top_level. in_list.
  - destruct (PurePath.relative_to _ _);
      [apply keeps_entry_ret|apply keeps_entry_raise].
  - apply keeps_entry_for_each. intros init_file Hin.
    pose proof init_files_branch as HF. rewrite Forall_forall in HF.
    destruct (HF init_file Hin) as (rest & Hpath).
    rewrite Hpath. apply keeps_entry_touch. apply other_branch_ne.
    apply not_top_level; [done|]. unfold top_level. in_list.
  - destruct (FS.path_exists _ o1); [apply keeps_entry_ret|].
    apply keeps_entry_write_text.
    change (base /: ".gitignore") with (base ++ ".gitignore" :: []).
    apply other_branch_ne. apply not_top_level; [done|].
    unfold top_level. in_list.
  - destruct (FS.path_exists _ o2); [apply keeps_entry_ret|].
    apply keeps_entry_write_text.
    change (base /: "README.md") with (base ++ "README.md" :: []).
    apply other_branch_ne. apply not_top_level; [done|].
    unfold top_level. in_list.
Qed.

(** When the script returns, each folder of its list is a directory. *)
Lemma setup_makes_base_folders gitignore readme now os folder :
  snd (create_project_structure gitignore readme now os) = Ok tt ->
  folder ∈ base_folders ->
  FS.files (fst (create_project_structure gitignore readme now os))
    !! (FS.cwd os /: folder) = Some FS.Dir.
Proof.
  unfold create_project_structure.
  change (bind get ?k os) with (k os os). cbv beta zeta.
  set (base := FS.cwd os).
  intros Hok Hin.
  destruct (bind_ok_split _ _ _ _ Hok) as (os1 & [] & Hloop & Hrun).
  rewrite Hrun.
  assert (FS.files os1 !! (base /: folder) = Some FS.Dir) as Hdir.
  { apply (mkdir_each_dirs base base_folders os os1 Hloop folder Hin).
    pose proof base_folders_branch as HF. rewrite Forall_forall in HF.
    destruct (HF folder Hin) as (a & rest & _ & Hpath).
    rewrite Hpath. by destruct base. }
  match goal with
  | |- FS.files (fst (?m os1)) !! _ = _ =>
      assert (keeps_entries m) as Hkeep
  end.
  { apply keeps_entries_bind; [apply keeps_entries_mkdir|intros _].
    apply keeps_entries_bind;
      [destruct (PurePath.relative_to _ _);
         [apply keeps_entries_ret|apply keeps_entries_raise]|intros _].
    apply keeps_entries_bind;
      [apply keeps_entries_for_each; intros x; apply keeps_entries_touch
      |intros _].
    apply keeps_entries_write_if_missing;
      [change (base /: ".gitignore") with (base ++ [".gitignore"]);
       by destruct base|intros _].
    apply keeps_entries_write_if_missing;
      [change (base /: "README.md") with (base ++ ["README.md"]);
       by destruct base|intros _].
    apply keeps_entries_ret. }
  by apply Hkeep.
Qed.

End SetupFolders.

(** X27.  The list of folders of [create_project_structure] has no
    comma between ["tests"] and ["sql/queries"], so these two literals
    are the one folder [testssql/queries].  The script never makes nor
    changes anything at [tests], [sql] or [sql/queries] under the
    working directory, nor under any name other than the eight it works
    on; and when it returns, every folder of its list is a directory,
    [testssql/queries] among them. *)
Theorem setup_project_makes_testssql
    (gitignore_content : string) (readme_content : datetime -> string)
    (now : datetime) (os : OS) :
  Datetime.valid now ->
  let run := SetupProject.create_project_structure gitignore_content
               readme_content now os in
  let base := FS.cwd os in
  (forall name more, name ∉ SetupProject.top_level ->
     FS.files (fst run) !! (base ++ name :: more)
     = FS.files os !! (base ++ name :: more)) /\
  FS.files (fst run) !! (base ++ ["tests"]) = FS.files os !! (base ++ ["tests"]) /\
  FS.files (fst run) !! (base ++ ["sql"]) = FS.files os !! (base ++ ["sql"]) /\
  FS.files (fst run) !! (base ++ ["sql"; "queries"])
  = FS.files os !! (base ++ ["sql"; "queries"]) /\
  (snd run = Ok tt ->
   (forall folder, folder ∈ SetupProject.base_folders ->
      FS.files (fst run) !! (base /: folder) = Some FS.Dir) /\
   FS.files (fst run) !! (base ++ ["testssql"; "queries"]) = Some FS.Dir).
Proof.
  intros Hnow run base. subst run base.
  assert (forall name, name = "tests" \/ name = "sql" ->
            name ∉ SetupProject.top_level) as Hout.
  { intros name [-> | ->]; unfold SetupProject.top_level; not_in_list. }
  split; [intros name more Hname; by apply setup_keeps_other_branches|].
  split; [apply setup_keeps_other_branches; auto|].
  split; [apply setup_keeps_other_branches; auto|].
  split; [apply setup_keeps_other_branches; auto|].
  intros Hok. split.
  - intros folder Hin. by apply setup_makes_base_folders.
  - apply (setup_makes_base_folders gitignore_content readme_content now os
             "testssql/queries" Hok).
    unfold SetupProject.base_folders. in_list.
Qed.

Lemma setup_project_makes_testssql_witness :
  let now := Datetime.mk 2025 2 11 9 30 0 0 in
  let os := FS.mkOS ∅ ["/"; "srv"; "dwh"] in
  Datetime.valid now /\
  FS.files (fst (SetupProject.create_project_structure "*.duckdb"
                   (fun _ => "# Data Warehouse") now os))
    !! ["/"; "srv"; "dwh"; "tests"] = None.
Proof.
  intros now os.
  assert (Datetime.valid now) as Hnow by (repeat split; vm_compute; congruence).
  split; [exact Hnow|].
  change ["/"; "srv"; "dwh"; "tests"] with (FS.cwd os ++ ["tests"]).
  rewrite (proj1 (proj2 (setup_project_makes_testssql "*.duckdb"
                           (fun _ => "# Data Warehouse") now os Hnow))).
  apply lookup_empty.
Defined.
(* ------------------------------------------------------------------ *)
(** ** The order of paths, and [list_all_raw_files] *)
(* ------------------------------------------------------------------ *)

Section StringOrder.

Lemma ascii_compare_refl a : Ascii.compare a a = Eq.
Proof. unfold Ascii.compare. apply N.compare_refl. Qed.

Lemma ascii_compare_lt_trans a b c :
  Ascii.compare a b = Lt -> Ascii.compare b c = Lt -> Ascii.compare a c = Lt.
Proof.
  unfold Ascii.compare. rewrite !N.compare_lt_iff. lia.
Qed.

Lemma string_compare_refl s : String.compare s s = Eq.
Proof.
  induction s as [|a s IH]; simpl; [done|]. by rewrite ascii_compare_refl.
Qed.

Lemma string_compare_lt_trans s t u :
  String.compare s t = Lt -> String.compare t u = Lt ->
  String.compare s u = Lt.
Proof.
  revert t u. induction s as [|a s IH]; intros [|b t] [|c u]; simpl; try done.
  destruct (Ascii.compare a b) eqn:Eab; [|intros _|done].
  - apply Ascii.compare_eq_iff in Eab as ->.
    destruct (Ascii.compare b c); [apply IH|done|done].
  - destruct (Ascii.compare b c) eqn:Ebc; [|intros _|done].
    + apply Ascii.compare_eq_iff in Ebc as <-. by rewrite Eab.
    + by rewrite (ascii_compare_lt_trans a b c).
Qed.

Lemma string_compare_gt s t :
  String.compare s t = Gt <-> String.compare t s = Lt.
Proof.
  rewrite (String.compare_antisym t s).
  destruct (String.compare s t); simpl; split; congruence.
Qed.

(** A common beginning plays no part in the comparison. *)
Lemma string_compare_append p s t :
  String.compare (p +:+ s) (p +:+ t) = String.compare s t.
Proof.
  induction p as [|a p IH]; [done|].
  change (String.compare (String a (p +:+ s)) (String a (p +:+ t))
          = String.compare s t).
  simpl. by rewrite ascii_compare_refl.
Qed.

End StringOrder.

Section PathOrder.
Import RawFiles.

Lemma path_compare_refl p : path_compare p p = Eq.
Proof.
  induction p as [|a p IH]; simpl; [done|]. by rewrite string_compare_refl.
Qed.

Lemma path_compare_eq p q : path_compare p q = Eq -> p = q.
Proof.
  revert q. induction p as [|a p IH]; intros [|b q]; simpl; try done.
  destruct (String.compare a b) eqn:E; try done.
  apply String.compare_eq_iff in E as ->. intros H. by rewrite (IH q H).
Qed.

Lemma path_compare_antisym p q :
  path_compare p q = CompOpp (path_compare q p).
Proof.
  revert q. induction p as [|a p IH]; intros [|b q]; simpl; try done.
  rewrite (String.compare_antisym b a).
  destruct (String.compare a b); simpl; [apply IH|done|done].
Qed.

Lemma path_compare_lt_trans p q r :
  path_compare p q = Lt -> path_compare q r = Lt -> path_compare p r = Lt.
Proof.
  revert q r. induction p as [|a p IH]; intros [|b q] [|c r]; simpl; try done.
  destruct (String.compare a b) eqn:Eab; [|intros _|done].
  - apply String.compare_eq_iff in Eab as ->.
    destruct (String.compare b c); [apply IH|done|done].
  - destruct (String.compare b c) eqn:Ebc; [|intros _|done].
    + apply String.compare_eq_iff in Ebc as <-. by rewrite Eab.
    + by rewrite (string_compare_lt_trans a b c).
Qed.

Lemma path_compare_app base p q :
  path_compare (base ++ p) (base ++ q) = path_compare p q.
Proof.
  induction base as [|a base IH]; simpl; [done|].
  by rewrite string_compare_refl.
Qed.

Lemma path_leb_total p q : path_leb p q = false -> path_leb q p = true.
Proof.
  unfold path_leb. rewrite (path_compare_antisym q p).
  by destruct (path_compare p q).
Qed.

Lemma path_leb_trans p q r :
  path_leb p q = true -> path_leb q r = true -> path_leb p r = true.
Proof.
  unfold path_leb.
  destruct (path_compare p q) eqn:Epq; [|intros _|done].
  - apply path_compare_eq in Epq as ->. done.
  - destruct (path_compare q r) eqn:Eqr; [|intros _|done].
    + apply path_compare_eq in Eqr as <-. by rewrite Epq.
    + by rewrite (path_compare_lt_trans p q r).
Qed.

(** [sorted] keeps the elements and puts them in order. *)
Lemma insert_sorted_elem p q l : q ∈ insert_sorted p l <-> q = p \/ q ∈ l.
Proof.
  induction l as [|x l IH]; simpl.
  - rewrite list_elem_of_singleton. split; [auto|].
    intros [H|H]; [done|by apply elem_of_nil in H].
  - destruct (path_leb p x).
    + by rewrite elem_of_cons.
    + rewrite !elem_of_cons, IH. tauto.
Qed.

Lemma sorted_elem q l : q ∈ sorted l <-> q ∈ l.
Proof.
  induction l as [|x l IH]; simpl; [done|].
  rewrite insert_sorted_elem, elem_of_cons, IH. tauto.
Qed.

Lemma insert_sorted_ordered p l :
  in_order l -> in_order (insert_sorted p l).
Proof.
  induction l as [|x l IH]; simpl.
  - intros _. split; [constructor|done].
  - intros [Hx Hl]. destruct (path_leb p x) eqn:Hpx.
    + split; [|by split].
      constructor; [done|].
      rewrite Forall_forall in Hx |- *. intros y Hy.
      by apply (path_leb_trans p x y); [|apply Hx].
    + split; [|by apply IH].
      rewrite Forall_forall in Hx |- *. intros y Hy.
      apply insert_sorted_elem in Hy as [->|Hy]; [|by apply Hx].
      by apply path_leb_total.
Qed.

Lemma sorted_ordered l : in_order (sorted l).
Proof.
  induction l as [|x l IH]; simpl; [done|].
  by apply insert_sorted_ordered.
Qed.

(** In a list in order, the smaller of two elements comes first. *)
Lemma ordered_comes_before p q l :
  in_order l ->
  p ∈ l -> q ∈ l -> path_ltb p q = true -> comes_before p q l.
Proof.
  induction l as [|x l IH]; intros Hs Hp Hq Hlt.
  - by apply elem_of_nil in Hp.
  - destruct Hs as [Hx Hl].
    assert (p <> q) as Hne.
    { intros ->. unfold path_ltb in Hlt. by rewrite path_compare_refl in Hlt. }
    apply elem_of_cons in Hp as [Hpx|Hp], Hq as [Hqx|Hq].
    + congruence.
    + subst x. apply list_elem_of_split in Hq as (l2 & l3 & ->).
      by exists [], l2, l3.
    + exfalso. subst x. rewrite Forall_forall in Hx. specialize (Hx p Hp).
      unfold path_leb in Hx. unfold path_ltb in Hlt.
      rewrite (path_compare_antisym q p) in Hx.
      by destruct (path_compare p q).
    + destruct (IH Hl Hp Hq Hlt) as (l1 & l2 & l3 & ->).
      by exists (x :: l1), l2, l3.
Qed.

End PathOrder.
Section DigitOrder.

Lemma digit_compare x y :
  0 <= x < 10 -> 0 <= y < 10 ->
  Ascii.compare (Spec.digit x) (Spec.digit y) = (x ?= y).
Proof.
  intros Hx Hy. unfold Ascii.compare, Spec.digit.
  rewrite !N_ascii_embedding by lia.
  destruct (N.compare_spec (48 + Z.to_N x) (48 + Z.to_N y)),
    (Z.compare_spec x y); (done || lia).
Qed.

Lemma two_digits_lt a b :
  0 <= a -> a < b -> b < 100 ->
  String.compare (Spec.two_digits a) (Spec.two_digits b) = Lt.
Proof.
  intros Ha Hab Hb. unfold Spec.two_digits. simpl.
  pose proof (Z.div_mod a 10 ltac:(lia)) as Ea.
  pose proof (Z.div_mod b 10 ltac:(lia)) as Eb.
  pose proof (Z.mod_pos_bound a 10 ltac:(lia)).
  pose proof (Z.mod_pos_bound b 10 ltac:(lia)).
  rewrite !digit_compare by lia.
  destruct (Z.compare_spec (a / 10) (b / 10)) as [E|E|E]; [|done|lia].
  destruct (Z.compare_spec (a mod 10) (b mod 10)); [lia|done|lia].
Qed.

Lemma str_int_four_digits n :
  1000 <= n < 10000 -> PyStr.str_int n = Spec.four_digits n.
Proof.
  intros Hn. apply String.eqb_eq.
  apply (forallb_range
    (fun n => String.eqb (PyStr.str_int n) (Spec.four_digits n)) 1000 9000);
    [by vm_compute | lia].
Qed.

Lemma four_digits_lt a b :
  0 <= a -> a < b -> b < 10000 ->
  String.compare (Spec.four_digits a) (Spec.four_digits b) = Lt.
Proof.
  intros Ha Hab Hb. unfold Spec.four_digits.
  assert (forall n, 0 <= n < 10000 ->
            n = 1000 * (n / 1000) + 100 * (n / 100 mod 10) + n mod 100 /\
            0 <= n / 1000 < 10 /\ 0 <= n / 100 mod 10 < 10 /\
            0 <= n mod 100 < 100) as E
    by (intros n Hn; Z.to_euclidean_division_equations; lia).
  destruct (E a ltac:(lia)) as (Ea & Ha3 & Ha2 & Ha1).
  destruct (E b ltac:(lia)) as (Eb & Hb3 & Hb2 & Hb1).
  simpl. rewrite !digit_compare by lia.
  destruct (Z.compare_spec (a / 1000) (b / 1000)) as [E3|E3|E3];
    [|done|lia].
  destruct (Z.compare_spec (a / 100 mod 10) (b / 100 mod 10)) as [E2|E2|E2];
    [|done|lia].
  apply two_digits_lt; lia.
Qed.

Lemma str_int_year_lt a b :
  1000 <= a -> a < b -> b < 10000 ->
  String.compare (PyStr.str_int a) (PyStr.str_int b) = Lt.
Proof.
  intros Ha Hab Hb. rewrite !str_int_four_digits by lia.
  apply four_digits_lt; lia.
Qed.

End DigitOrder.

Section ListAllRawFiles.
Import RawFiles.

(** The comparison of two paths of three directories and a file name
    below a common base. *)
Lemma path_compare_below base a b c f a' b' c' f' :
  path_compare ((base ++ [a; b; c]) ++ [f]) ((base ++ [a'; b'; c']) ++ [f'])
  = match String.compare a a' with
    | Eq =>
        match String.compare b b' with
        | Eq =>
            match String.compare c c' with
            | Eq => path_compare [f] [f']
            | x => x
            end
        | x => x
        end
    | x => x
    end.
Proof. rewrite <- !app_assoc, path_compare_app. reflexivity. Qed.

Lemma day_before_fields D D' :
  Datetime.valid D -> Datetime.valid D' -> 1000 <= Datetime.year D ->
  day_before D D' ->
  forall (p q r : string),
    match String.compare (p +:+ PyStr.str_int (Datetime.year D))
            (p +:+ PyStr.str_int (Datetime.year D')) with
    | Eq =>
        match String.compare (q +:+ Spec.two_digits (Datetime.month D))
                (q +:+ Spec.two_digits (Datetime.month D')) with
        | Eq =>
            match String.compare (r +:+ Spec.two_digits (Datetime.day D))
                    (r +:+ Spec.two_digits (Datetime.day D')) with
            | Eq => Gt
            | x => x
            end
        | x => x
        end
    | x => x
    end = Lt.
Proof.
  intros (Hy & Hm & Hd & _) (Hy' & Hm' & Hd' & _) H1000 Hbefore p q r.
  pose proof (days_in_month_le_31 (Datetime.year D) (Datetime.month D)).
  pose proof (days_in_month_le_31 (Datetime.year D') (Datetime.month D')).
  unfold Datetime.MINYEAR, Datetime.MAXYEAR in *.
  rewrite !string_compare_append.
  destruct Hbefore as [Hlt|[-> [Hlt|[-> Hlt]]]].
  - by rewrite str_int_year_lt by lia.
  - rewrite string_compare_refl. by rewrite two_digits_lt by lia.
  - rewrite !string_compare_refl. by rewrite two_digits_lt by lia.
Qed.

(** The file of an earlier day is the smaller path, in both layouts. *)
Lemma output_path_for_lt (self : ParquetLoader.t) D D' :
  Datetime.valid D -> Datetime.valid D' -> 1000 <= Datetime.year D ->
  day_before D D' ->
  path_ltb (ParquetLoader.output_path_for self D)
    (ParquetLoader.output_path_for self D') = true.
Proof.
  intros HD HD' H1000 Hbefore. unfold path_ltb.
  rewrite !output_path_for_last, !hive_partition_path_spec by done.
  unfold Spec.hive_dir. rewrite path_compare_below.
  pose proof (day_before_fields D D' HD HD' H1000 Hbefore
                "year=" "month=" "day=") as H.
  repeat (case_match; try done).
Qed.

Lemma raw_file_path_lt D D' :
  Datetime.valid D -> Datetime.valid D' -> 1000 <= Datetime.year D ->
  day_before D D' ->
  path_ltb (Config.get_raw_file_path D) (Config.get_raw_file_path D') = true.
Proof.
  intros HD HD' H1000 Hbefore. unfold path_ltb.
  rewrite !get_raw_file_path_last, !raw_data_path_spec by done.
  rewrite path_compare_below.
  pose proof (day_before_fields D D' HD HD' H1000 Hbefore "" "" "") as H.
  change (EmptyString +:+ ?s) with s in H.
  repeat (case_match; try done).
Qed.

(** What [list_all_raw_files] returns. *)
Lemma list_all_raw_files_elem os q :
  q ∈ list_all_raw_files os <->
  is_Some (FS.files os !! q) /\
  PurePath.is_prefix Config.RAW_DATA_PATH q = true /\
  (length Config.RAW_DATA_PATH < length q)%nat /\
  ends_with (name q) ".parquet" = true /\
  walked os Config.RAW_DATA_PATH q = true.
Proof.
  unfold list_all_raw_files, rglob_parquet. cbv zeta.
  rewrite sorted_elem, list_elem_of_In, filter_In, <- list_elem_of_In.
  rewrite !andb_true_iff, Nat.ltb_lt.
  change (List.map fst (map_to_list (FS.files os)))
    with (fst <$> map_to_list (FS.files os)).
  rewrite list_elem_of_fmap. split.
  - intros [([k x] & -> & Hin) H]. apply elem_of_map_to_list in Hin.
    simpl in *. split; [by exists x|tauto].
  - intros ([x Hx] & H). split; [|tauto].
    exists (q, x). split; [done|]. by apply elem_of_map_to_list.
Qed.

Lemma ends_with_append p s : ends_with (p +:+ s) s = true.
Proof.
  induction p as [|c p IH].
  - change (ends_with s s = true).
    destruct s as [|c s]; [done|]. cbn [ends_with].
    by rewrite String.eqb_refl.
  - change (ends_with (String c (p +:+ s)) s = true). cbn [ends_with].
    rewrite IH. apply orb_true_r.
Qed.

Lemma is_prefix_app p q : PurePath.is_prefix p (p ++ q) = true.
Proof.
  induction p as [|a p IH]; simpl; [done|].
  by rewrite String.eqb_refl.
Qed.

Lemma name_last p f : name (p ++ [f]) = f.
Proof. unfold name. apply last_last. Qed.

End ListAllRawFiles.
(** X28.  [list_all_raw_files] finds what the Loader saved.  After a
    save by a Loader with the default base path that wrote its file, for
    a date the constructor of [datetime] accepts, the output path is in
    the list [list_all_raw_files] returns: it lies below [RAW_DATA_PATH],
    in directories the save has made, under a name that ends in
    [.parquet]. *)
Theorem list_all_raw_files_finds_saved_file (df : DataFrame) (D : datetime)
    (os : OS) :
  Datetime.valid D ->
  wrote (snd (ParquetLoader._save_to_parquet (ParquetLoader.__init__ None)
                df D os)) ->
  ParquetLoader.output_path_for (ParquetLoader.__init__ None) D
  ∈ RawFiles.list_all_raw_files
      (fst (ParquetLoader._save_to_parquet (ParquetLoader.__init__ None)
              df D os)).
Proof.
  intros HD Hw.
  destruct (wrote_inv _ df D os Hw) as (fs1 & Hmk & Hnodir & Hfiles & Hcwd).
  pose proof (partition_path_length (ParquetLoader.__init__ None) D HD)
    as [Hl1 Hl2].
  apply list_all_raw_files_elem. split; [|split; [|split; [|split]]].
  - rewrite Hfiles, lookup_insert_eq. by eexists.
  - rewrite output_path_for_last, hive_partition_path_spec by done.
    unfold Spec.hive_dir. rewrite <- app_assoc. apply is_prefix_app.
  - rewrite Hl2. simpl. lia.
  - rewrite output_path_for_last, name_last.
    unfold ParquetLoader.filename_for.
    rewrite <- append_assoc. apply ends_with_append.
  - unfold RawFiles.walked. apply forallb_forall. intros k Hk.
    apply in_seq in Hk. rewrite Hl2 in Hk. simpl in Hk.
    unfold RawFiles.is_dir. rewrite Hfiles.
    assert (take k (ParquetLoader.output_path_for (ParquetLoader.__init__ None) D)
            = take k (ParquetLoader._get_hive_partition_path
                        (ParquetLoader.__init__ None) D)) as Htake.
    { rewrite output_path_for_last. apply take_app_le. rewrite Hl1. simpl. lia. }
    rewrite Htake.
    rewrite lookup_insert_ne.
    + pose proof (mkdir_from_dirs [] _ (FS.files os) fs1 k Hmk) as Hdir.
      rewrite app_nil_l in Hdir. rewrite Hdir by (rewrite Hl1; simpl; lia).
      by case_match.
    + intros Heq. apply (f_equal length) in Heq.
      rewrite length_take, Hl1, Hl2 in Heq. simpl in Heq. lia.
Qed.

Lemma list_all_raw_files_finds_saved_file_witness :
  let self := ParquetLoader.__init__ None in
  let D := Datetime.date 2025 2 11 in
  let os := FS.mkOS ∅ [] in
  (Datetime.valid D /\
   wrote (snd (ParquetLoader._save_to_parquet self [[PInt 1]] D os))) /\
  ParquetLoader.output_path_for self D
  ∈ RawFiles.list_all_raw_files
      (fst (ParquetLoader._save_to_parquet self [[PInt 1]] D os)).
Proof.
  intros self D os.
  assert (Datetime.valid D) as HD by (repeat split; vm_compute; congruence).
  assert (wrote (snd (ParquetLoader._save_to_parquet self [[PInt 1]] D os)))
    as Hw by (vm_compute; exact I).
  split; [done|].
  exact (list_all_raw_files_finds_saved_file [[PInt 1]] D os HD Hw).
Defined.

(** X29.  The order of the list follows the calendar.  For two dates the
    constructor of [datetime] accepts, from the year 1000 on, the first
    on an earlier day than the second: when the files a Loader writes for
    them are both in the list [list_all_raw_files] returns, the file of
    the earlier day comes before the other; and so do the two paths of
    [get_raw_file_path]. *)
Theorem list_all_raw_files_chronological (self : ParquetLoader.t) (os : OS)
    (D D' : datetime) :
  Datetime.valid D -> Datetime.valid D' -> 1000 <= Datetime.year D ->
  day_before D D' ->
  let listed := RawFiles.list_all_raw_files os in
  (ParquetLoader.output_path_for self D ∈ listed ->
   ParquetLoader.output_path_for self D' ∈ listed ->
   comes_before (ParquetLoader.output_path_for self D)
     (ParquetLoader.output_path_for self D') listed) /\
  (Config.get_raw_file_path D ∈ listed ->
   Config.get_raw_file_path D' ∈ listed ->
   comes_before (Config.get_raw_file_path D) (Config.get_raw_file_path D')
     listed).
Proof.
  intros HD HD' H1000 Hbefore listed.
  assert (in_order listed) as Hord by apply sorted_ordered.
  split; intros Hin Hin'.
  - apply ordered_comes_before; [done..|]. by apply output_path_for_lt.
  - apply ordered_comes_before; [done..|]. by apply raw_file_path_lt.
Qed.

Lemma list_all_raw_files_chronological_witness :
  let self := ParquetLoader.__init__ None in
  let D := Datetime.date 2025 2 11 in
  let D' := Datetime.date 2025 3 2 in
  let os :=
    fst (ParquetLoader._save_to_parquet self [[PInt 2]] D'
           (fst (ParquetLoader._save_to_parquet self [[PInt 1]] D
                   (FS.mkOS ∅ [])))) in
  (Datetime.valid D /\ Datetime.valid D' /\ 1000 <= Datetime.year D /\
   day_before D D' /\
   ParquetLoader.output_path_for self D ∈ RawFiles.list_all_raw_files os /\
   ParquetLoader.output_path_for self D' ∈ RawFiles.list_all_raw_files os) /\
  comes_before (ParquetLoader.output_path_for self D)
    (ParquetLoader.output_path_for self D') (RawFiles.list_all_raw_files os).
Proof.
  intros self D D' os.
  assert (Datetime.valid D) as HD by (repeat split; vm_compute; congruence).
  assert (Datetime.valid D') as HD' by (repeat split; vm_compute; congruence).
  assert (1000 <= Datetime.year D) as H1000 by (vm_compute; congruence).
  assert (day_before D D') as Hbefore by (right; split; [done|by left]).
  assert (ParquetLoader.output_path_for self D
          ∈ RawFiles.list_all_raw_files os) as Hin
    by (apply (@bool_decide_unpack _
                 (list_elem_of_dec (A := list string) _ _));
        vm_compute; exact I).
  assert (ParquetLoader.output_path_for self D'
          ∈ RawFiles.list_all_raw_files os) as Hin'
    by (apply (@bool_decide_unpack _
                 (list_elem_of_dec (A := list string) _ _));
        vm_compute; exact I).
  split; [done|].
  exact (proj1 (list_all_raw_files_chronological self os D D'
                  HD HD' H1000 Hbefore) Hin Hin').
Defined.
